(** * Verification model of [timeseries/stats_task.py]

    The module periodically collects statistics from a Red/discord.py bot
    and publishes them as attributes of the namespaces under [bot.stats].
    The Python code is embedded shallowly: every coroutine becomes a
    function in a state-and-exception monad over the mutable part of the
    bot object, the host objects it reads (guilds, members, cogs, the bank,
    the HTTP endpoint) are records, Python dictionaries whose iteration
    order is observable are association lists in insertion order, and the
    attribute dictionaries of the published namespaces are finite maps. *)

From Stdlib Require Import ZArith QArith Qabs Lia Lqa.
From stdpp Require Import gmap strings list fin_maps pretty.

#[local] Set Warnings "-register-all".

(** ** Exceptions and results *)

(** The subclasses of [Exception] that the code paths of the module can
    meet.  [asyncio.CancelledError] derives from [BaseException] on the
    interpreter versions the module runs on (it uses the walrus operator)
    and is outside the model. *)
Inductive exn :=
| KeyError (k : string)
| TypeError
| ValueError
| AttributeError
| OverflowError
| ZeroDivisionError
| AsyncioTimeoutError          (* asyncio.TimeoutError *)
| ServerTimeoutError           (* aiohttp.ServerTimeoutError *)
| ClientConnectionError        (* aiohttp transport failure that is no timeout *)
| HostError (msg : string).    (* any other Exception raised by a host call *)

Inductive result (A : Type) :=
| Ok (a : A)
| Raise (e : exn).
Arguments Ok {A} a.
Arguments Raise {A} e.

Definition is_ok {A} (r : result A) : bool :=
  match r with Ok _ => true | Raise _ => false end.

Definition rbind {A B} (r : result A) (k : A -> result B) : result B :=
  match r with Ok a => k a | Raise e => Raise e end.

(** ** Python values *)

(** Values that cross the boundary of the module: configuration records,
    the JSON body of the vote endpoint, and the published counters.  A
    float is the rational it denotes; the non-finite floats only occur as
    latencies and have their own type below. *)
Inductive pyval :=
| VNone
| VBool (b : bool)
| VInt (z : Z)
| VFloat (q : Q)
| VStr (s : string)
| VList (l : list pyval)
| VDict (d : list (string * pyval)).

(** A [dict] in insertion order. *)
Section Dict.
Context {K V : Type} `{EqDecision K}.

Fixpoint dict_get (k : K) (d : list (K * V)) : option V :=
  match d with
  | [] => None
  | (k', v) :: d' => if decide (k = k') then Some v else dict_get k d'
  end.

(** [d[k] = v]: an existing key keeps its position. *)
Fixpoint dict_set (k : K) (v : V) (d : list (K * V)) : list (K * V) :=
  match d with
  | [] => [(k, v)]
  | (k', v') :: d' =>
      if decide (k = k') then (k, v) :: d' else (k', v') :: dict_set k v d'
  end.

(** [d.update(upd)] *)
Definition dict_update (d upd : list (K * V)) : list (K * V) :=
  fold_left (fun acc kv => dict_set kv.1 kv.2 acc) upd d.

Definition dict_mem (k : K) (d : list (K * V)) : bool :=
  match dict_get k d with Some _ => true | None => false end.
End Dict.

(** ** Binary64 rounding *)

(** Nearest integer to [n / d] for [0 < d], ties to even. *)
Definition round_half_even_div (n d : Z) : Z :=
  let q := (n / d)%Z in
  let r := (n mod d)%Z in
  if (2 * r <? d)%Z then q
  else if (d <? 2 * r)%Z then (q + 1)%Z
  else if Z.even q then q else (q + 1)%Z.

(** The exponent [e] with [2^52 <= |n/d| / 2^e < 2^53], for [n <> 0]. *)
Definition fl64_exponent (a d : Z) : Z :=
  let e0 := (Z.log2 a - Z.log2 d - 53)%Z in
  if (2 ^ 53 * d * 2 ^ Z.max 0 e0 <=? a * 2 ^ Z.max 0 (- e0))%Z
  then (e0 + 1)%Z else e0.

(** Round to nearest, ties to even, with a 53-bit significand.  The
    exponent range of binary64 is not modelled: the result is the float a
    correctly rounded operation returns as long as it neither overflows nor
    falls into the subnormal range. *)
Definition fl64 (x : Q) : Q :=
  let n := Qnum x in
  let d := Zpos (Qden x) in
  if (n =? 0)%Z then 0%Q
  else
    let a := Z.abs n in
    let e := fl64_exponent a d in
    let m := round_half_even_div (a * 2 ^ Z.max 0 (- e)) (d * 2 ^ Z.max 0 e) in
    Qred (Qmake (Z.sgn n * m * 2 ^ Z.max 0 e) (Z.to_pos (2 ^ Z.max 0 (- e)))).

(** ** Python operators on values *)

Inductive pynum := NInt (z : Z) | NFloat (q : Q).

Definition as_num (v : pyval) : option pynum :=
  match v with
  | VBool b => Some (NInt (if b then 1 else 0)%Z)
  | VInt z => Some (NInt z)
  | VFloat q => Some (NFloat q)
  | _ => None
  end.

(** [float(n)] *)
Definition to_float (n : pynum) : Q :=
  match n with NInt z => fl64 (inject_Z z) | NFloat q => q end.

Definition num_is_zero (n : pynum) : bool :=
  match n with NInt z => (z =? 0)%Z | NFloat q => Qeq_bool q 0 end.

(** [bool(v)] *)
Definition py_truthy (v : pyval) : bool :=
  match v with
  | VNone => false
  | VBool b => b
  | VInt z => negb (z =? 0)%Z
  | VFloat q => negb (Qeq_bool q 0)
  | VStr s => negb (String.eqb s "")
  | VList l => match l with [] => false | _ => true end
  | VDict d => match d with [] => false | _ => true end
  end.

(** [a + b] *)
Definition py_add (a b : pyval) : result pyval :=
  match as_num a, as_num b with
  | Some (NInt x), Some (NInt y) => Ok (VInt (x + y))
  | Some x, Some y => Ok (VFloat (fl64 (to_float x + to_float y)))
  | _, _ =>
      match a, b with
      | VStr s, VStr t => Ok (VStr (s +:+ t))
      | VList l, VList r => Ok (VList (l ++ r))
      | _, _ => Raise TypeError
      end
  end.

(** [a - b] (numbers; sets are not among the values) *)
Definition py_sub (a b : pyval) : result pyval :=
  match as_num a, as_num b with
  | Some (NInt x), Some (NInt y) => Ok (VInt (x - y))
  | Some x, Some y => Ok (VFloat (fl64 (to_float x - to_float y)))
  | _, _ => Raise TypeError
  end.

(** [a / b]; the quotient of two ints is correctly rounded. *)
Definition py_truediv (a b : pyval) : result pyval :=
  match as_num a, as_num b with
  | Some x, Some y =>
      if num_is_zero y then Raise ZeroDivisionError
      else match x, y with
           | NInt n, NInt d => Ok (VFloat (fl64 (inject_Z n / inject_Z d)))
           | _, _ => Ok (VFloat (fl64 (to_float x / to_float y)))
           end
  | _, _ => Raise TypeError
  end.

Fixpoint str_repeat (n : nat) (s : string) : string :=
  match n with O => "" | S n' => s +:+ str_repeat n' s end.

(** [a * b] *)
Definition py_mul (a b : pyval) : result pyval :=
  match as_num a, as_num b with
  | Some (NInt x), Some (NInt y) =>
      Ok (VInt (x * y))
  | Some x, Some y => Ok (VFloat (fl64 (to_float x * to_float y)))
  | Some (NInt n), None | None, Some (NInt n) =>
      match (match as_num a with Some _ => b | None => a end) with
      | VStr s => Ok (VStr (str_repeat (Z.to_nat n) s))
      | VList l => Ok (VList (mjoin (replicate (Z.to_nat n) l)))
      | _ => Raise TypeError
      end
  | _, _ => Raise TypeError
  end.

(** [v.get(k, dflt)] on a value: only a dict has [get]. *)
Definition py_get (v : pyval) (k : string) (dflt : pyval) : result pyval :=
  match v with
  | VDict d => Ok (default dflt (dict_get k d))
  | _ => Raise AttributeError
  end.

(** [v[k]] with a string key. *)
Definition py_getitem (v : pyval) (k : string) : result pyval :=
  match v with
  | VDict d =>
      match dict_get k d with Some x => Ok x | None => Raise (KeyError k) end
  | _ => Raise TypeError
  end.

(** *** Strings of digits *)

Definition is_digit (c : Ascii.ascii) : bool :=
  let n := Ascii.nat_of_ascii c in (48 <=? n)%nat && (n <=? 57)%nat.

(** [re.sub(r"\D", "", s)] on an ASCII string. *)
Fixpoint strip_non_digits (s : string) : string :=
  match s with
  | EmptyString => EmptyString
  | String c s' =>
      if is_digit c then String c (strip_non_digits s') else strip_non_digits s'
  end.

Fixpoint digits_value (acc : Z) (s : string) : Z :=
  match s with
  | EmptyString => acc
  | String c s' =>
      digits_value (10 * acc + Z.of_nat (Ascii.nat_of_ascii c - 48))%Z s'
  end.

(** [int(s)] for a string made of digits only; the empty string is a
    [ValueError]. *)
Definition int_of_digits (s : string) : result Z :=
  match s with
  | EmptyString => Raise ValueError
  | _ => Ok (digits_value 0 s)
  end.

(** ** Latencies *)

(** discord.py reports [float('inf')] for a shard whose heartbeat was not
    acknowledged yet and [float('nan')] when there is no shard. *)
Inductive pyfloat :=
| Finite (q : Q)
| PosInf
| NegInf
| NaN.

(** [x * 1000] *)
Definition pyfloat_mul1000 (x : pyfloat) : pyfloat :=
  match x with
  | Finite q => Finite (fl64 (q * 1000))
  | other => other
  end.

(** [round(x)]: nearest int, ties to even. *)
Definition pyfloat_round (x : pyfloat) : result Z :=
  match x with
  | Finite q => Ok (round_half_even_div (Qnum q) (Zpos (Qden q)))
  | PosInf | NegInf => Raise OverflowError
  | NaN => Raise ValueError
  end.

(** [int(x)]: truncation toward zero. *)
Definition pyfloat_int (x : pyfloat) : result Z :=
  match x with
  | Finite q => Ok (Z.quot (Qnum q) (Zpos (Qden q)))
  | PosInf | NegInf => Raise OverflowError
  | NaN => Raise ValueError
  end.

(** ** The mutable part of the bot object *)

(** A [SimpleNamespace]: its identity and its attribute dictionary. *)
Record Namespace := {
  ns_id : nat;
  ns_dict : gmap string pyval;
}.

(** An [asyncio.Event]. *)
Record Event := {
  ev_id : nat;
  ev_flag : bool;
}.

(** [bot.stats]: its identity, the category namespaces by attribute name,
    and the attribute [to_dict] (the [functools.partial] object, by
    identity). *)
Record Stats := {
  stats_id : nat;
  cats : gmap string Namespace;
  to_dict : option nat;
}.

(** The attributes of the bot that this module creates and writes; an
    absent attribute is [None] ([hasattr] is false). *)
Record Red := {
  stats : option Stats;
  _stats_task : option (option nat);
  _stats_ready : option Event;
}.

(** What a run leaves behind besides the bot attributes. *)
Inductive effect :=
| EvLog (msg : string) (e : exn)   (* log.exception(msg) while handling e *)
| EvSleep (d : Q)                  (* await asyncio.sleep(d) *)
| EvReadySet.                      (* bot._stats_ready.set() *)

Record world := {
  bot : Red;
  next_obj : nat;           (* identity of the next allocated object *)
  trace : list effect;      (* oldest first *)
}.

(** ** Coroutines: state and exceptions *)

Definition M (A : Type) : Type := world -> result A * world.

Definition ret {A} (a : A) : M A := fun w => (Ok a, w).

Definition raise {A} (e : exn) : M A := fun w => (Raise e, w).

Definition bind {A B} (m : M A) (k : A -> M B) : M B :=
  fun w =>
    match m w with
    | (Ok a, w') => k a w'
    | (Raise e, w') => (Raise e, w')
    end.

Definition lift {A} (r : result A) : M A := fun w => (r, w).

Declare Scope py_scope.
Delimit Scope py_scope with py.
Notation "x <- m ;; k" := (bind m (fun x => k))
  (at level 100, m at next level, right associativity) : py_scope.
Notation "m ;; k" := (bind m (fun _ => k))
  (at level 100, right associativity) : py_scope.
Local Open Scope py_scope.

(** [try: body / except Exception as e: handler e] *)
Definition try_except {A} (body : M A) (handler : exn -> M A) : M A :=
  fun w =>
    match body w with
    | (Ok a, w') => (Ok a, w')
    | (Raise e, w') => handler e w'
    end.

(** [with contextlib.suppress(...): body], the listed classes given as a
    predicate. *)
Definition suppress (caught : exn -> bool) (body : M unit) : M unit :=
  try_except body (fun e => if caught e then ret tt else raise e).

Definition emit (ev : effect) : M unit :=
  fun w => (Ok tt, {| bot := bot w; next_obj := next_obj w;
                      trace := trace w ++ [ev] |}).

(** [log.exception(msg)] inside an [except] clause handling [e]. *)
Definition log_exception (msg : string) (e : exn) : M unit :=
  emit (EvLog msg e).

(** [await asyncio.sleep(d)] *)
Definition sleep (d : Q) : M unit := emit (EvSleep d).

Definition get_bot : M Red := fun w => (Ok (bot w), w).

Definition put_bot (b : Red) : M unit :=
  fun w => (Ok tt, {| bot := b; next_obj := next_obj w; trace := trace w |}).

(** A fresh object identity. *)
Definition alloc : M nat :=
  fun w => (Ok (next_obj w),
            {| bot := bot w; next_obj := S (next_obj w); trace := trace w |}).

(** [bot.stats.<cat>] *)
Definition getattr_stats (cat : string) : M Namespace :=
  b <- get_bot ;;
  match stats b with
  | None => raise AttributeError
  | Some st =>
      match cats st !! cat with
      | None => raise AttributeError
      | Some ns => ret ns
      end
  end.

(** [setattr(ns, key, v)] for the namespace held in [bot.stats.<cat>]. *)
Definition setattr_ns (cat key : string) (v : pyval) : M unit :=
  b <- get_bot ;;
  match stats b with
  | None => raise AttributeError
  | Some st =>
      match cats st !! cat with
      | None => raise AttributeError
      | Some ns =>
          put_bot
            {| stats := Some
                 {| stats_id := stats_id st;
                    cats := <[cat := {| ns_id := ns_id ns;
                                         ns_dict := <[key := v]> (ns_dict ns) |}]>
                              (cats st);
                    to_dict := to_dict st |};
               _stats_task := _stats_task b;
               _stats_ready := _stats_ready b |}
      end
  end.

(** [getattr(bot.stats.<cat>, key)] *)
Definition getattr_ns (cat key : string) : M pyval :=
  ns <- getattr_stats cat ;;
  match ns_dict ns !! key with
  | None => raise AttributeError
  | Some v => ret v
  end.

(** The published value of a label, read from a world. *)
Definition published (w : world) (cat key : string) : option pyval :=
  st ← stats (bot w); ns ← cats st !! cat; ns_dict ns !! key.

(** [for x in l: acc = body x acc] *)
Fixpoint for_each {A St} (l : list A) (body : A -> St -> M St) (acc : St)
    : M St :=
  match l with
  | [] => ret acc
  | x :: l' => acc' <- body x acc ;; for_each l' body acc'
  end.

(** Modelled from the spec: [redbot.core.utils.AsyncIter] is imported from
    the host framework and is not part of the module; the spec describes it
    as a batch-yielding iteration that yields control periodically.
    [async for x in AsyncIter(l, steps=steps, delay=delay)] visits every
    item of [l] in order; the iterator counts the items it has handed out
    and, when the count has reached [steps], sleeps for [delay] before the
    next item and starts counting again.  Its constructor refuses
    [steps < 1] with a [ValueError]. *)
Fixpoint async_iter_from {A St} (delay : Q) (steps i : nat) (l : list A)
    (body : A -> St -> M St) (acc : St) : M St :=
  match l with
  | [] => ret acc
  | x :: l' =>
      (if (i =? steps)%nat then sleep delay else ret tt) ;;
      acc' <- body x acc ;;
      async_iter_from delay steps (if (i =? steps)%nat then 1 else S i)%nat
        l' body acc'
  end.

Definition async_for {A St} (l : list A) (steps : nat) (delay : Q)
    (body : A -> St -> M St) (acc : St) : M St :=
  if (steps <? 1)%nat then raise ValueError
  else async_iter_from delay steps 0 l body acc.

(** ** Shard latencies and currency *)

(** The host objects the collectors read. *)
Inductive Status := online | idle | dnd | offline | invisible.

Inductive ActivityType :=
| unknown | playing | streaming | listening | watching | custom | competing.

Record Activity := { a_type : ActivityType }.

Record Member := {
  m_id : Z;
  m_bot : bool;
  m_is_on_mobile : bool;          (* member.is_on_mobile() *)
  m_activities : list Activity;
  m_status : Status;
  m_mobile_status : Status;
  m_desktop_status : Status;
  m_web_status : Status;
}.

Inductive Channel :=
| TextChannel (id : Z) (is_nsfw is_news : bool)
| VoiceChannel (id : Z) (members : list Member)
| CategoryChannel (id : Z)
| OtherChannel (id : Z).          (* stage, store and later channel types *)

Record Emoji := { e_animated : bool }.

Record Guild := {
  g_id : Z;
  g_unavailable : bool;
  g_member_count : option Z;      (* None: the attribute is missing *)
  g_features : list string;
  g_verification_level : string;  (* str(guild.verification_level) *)
  g_roles : list Z;
  g_large : bool;
  g_chunked : bool;
  g_premium_tier : Z;
  g_channels : list Channel;
  g_emojis : list Emoji;
  g_me : Member;
  g_members : list Member;
}.

(** The MartTools cog: [get_value(name, perma=True, raw=True)] when the
    cog has that attribute. *)
Record MartTools := { mt_get_value : option (string -> result pyval) }.

(** The Adventure cog: [config.all_users()], the items of the returned
    dict. *)
Record Adventure := {
  adv_all_users : result (list (Z * list (string * pyval)));
}.

(** What [session.get(...)] and the response give. *)
Inductive http_outcome :=
| HttpRaise (e : exn)                             (* the request raised *)
| HttpResponse (status : Z) (json : result pyval). (* resp.json(...) *)

Record Host := {
  get_set_lightmode : result bool;
  get_set_detailed : result bool;
  get_set_topgg : result bool;
  guilds : list Guild;
  latency : pyfloat;
  shard_count : option Z;
  latencies : list (Z * pyfloat);
  bank_all_users : result (list (Z * pyval));
  active_players : list Z;                        (* lavalink.active_players() *)
  all_players : list Z;                           (* lavalink.all_players() *)
  cog_MartTools : option MartTools;               (* bot.get_cog("MartTools") *)
  cog_Adventure : option Adventure;               (* bot.get_cog("Adventure") *)
  get_shared_api_tokens_dbl : result (list (string * pyval));
  user_id : Z;
  http_get : Z -> pyval -> http_outcome;          (* bot id, Authorization *)
}.

(** [f"{n}"] for an int. *)
Definition str_of_int (n : Z) : string := pretty n.

Definition write_shards_data (h : Host) : M unit :=
  for_each (latencies h)
    (fun '(index, latency) _ =>
       _ <- getattr_stats "shards" ;;
       ms <- lift (pyfloat_int (pyfloat_mul1000 latency)) ;;
       setattr_ns "shards" (str_of_int (index + 1)) (VInt ms))
    tt.

(** [for key, value in counter.items(): setattr(bot.stats.<cat>, str(key), value)] *)
Definition publish_counter (cat : string) (counter : list (string * pyval))
    : M unit :=
  for_each counter (fun '(key, value) _ => setattr_ns cat key value) tt.

(** [write_currency_data] with the batch size of its iteration as a
    parameter; the source fixes it to 50. *)
Definition write_currency_data_steps (steps : nat) (h : Host) : M unit :=
  let counter : list (string * pyval) := [] in
  accounts <- lift (bank_all_users h) ;;
  let overall := VInt 0 in
  overall <- async_for accounts steps 0
               (fun '(key, value) overall =>
                  balance <- lift (py_getitem value "balance") ;;
                  lift (py_add overall balance))
               overall ;;
  let counter := dict_set "Currency In Circulation" overall counter in
  publish_counter "currency" counter.

Definition write_currency_data (h : Host) : M unit :=
  write_currency_data_steps 50 h.

(** ** Counters *)

(** [counter[k]] on a [collections.Counter]: a missing key reads as 0. *)
Definition counter_get (k : string) (c : list (string * pyval)) : pyval :=
  default (VInt 0) (dict_get k c).

(** [counter[k] += v] *)
Definition counter_iadd (k : string) (v : pyval) (c : list (string * pyval))
    : result (list (string * pyval)) :=
  rbind (py_add (counter_get k c) v) (fun x => Ok (dict_set k x c)).

(** [d[k].add(x)] on a [defaultdict(set)] *)
Definition set_add (k : string) (x : Z) (d : list (string * gset Z))
    : list (string * gset Z) :=
  dict_set k (default ∅ (dict_get k d) ∪ {[x]}) d.

(** [for x in l: acc = body x acc] without suspension points. *)
Fixpoint rfor_each {A St} (l : list A) (body : A -> St -> result St) (acc : St)
    : result St :=
  match l with
  | [] => Ok acc
  | x :: l' => rbind (body x acc) (rfor_each l' body)
  end.

(** ** The vote endpoint *)

(** The exception classes named in
    [contextlib.suppress(aiohttp.ServerTimeoutError, asyncio.TimeoutError)]. *)
Definition is_timeout (e : exn) : bool :=
  match e with
  | AsyncioTimeoutError | ServerTimeoutError => true
  | _ => false
  end.

(** The body of the [with suppress(...)] block either returns [{}] (status
    other than 200) or assigns the parsed body to [data], which the
    statement after the block returns; a suppressed exception leaves the
    initial [data = {}]. *)
Definition get_votes (h : Host) : M pyval :=
  tokens <- lift (get_shared_api_tokens_dbl h) ;;
  let key := default (VStr "") (dict_get "api_key" tokens) in
  if negb (py_truthy key) then ret (VDict [])
  else
    let data := VDict [] in
    try_except
      (match http_get h (user_id h) key with
       | HttpRaise e => raise e
       | HttpResponse status json =>
           if negb (status =? 200)%Z then ret (VDict [])
           else lift json
       end)
      (fun e => if is_timeout e then ret data else raise e).

(** ** The audio collector *)

(** Label and MartTools counter name of the thirteen [get_value] calls, in
    source order. *)
Definition mart_tools_counters : list (string * string) :=
  [ ("Tracks Played", "tracks_played");
    ("Streams Played", "streams_played");
    ("YouTube Streams Played", "yt_streams_played");
    ("Mixer Streams Played", "mixer_streams_played");
    ("Twitch Streams Played", "ttv_streams_played");
    ("Other Streams Played", "other_streams_played");
    ("YouTube Videos Played", "youtube_tracks");
    ("SoundCloud Tracks Played", "soundcloud_tracks");
    ("Bandcamp Tracks Played", "bandcamp_tracks");
    ("Vimeo Tracks Played", "vimeo_tracks");
    ("Mixer Tracks Played", "mixer_tracks");
    ("TwichTV Videos Played", "twitch_tracks");
    ("Other Tracks Played", "other_tracks") ].

(** [hasattr(mart_tools_cog, "get_value")]: false for [None]. *)
Definition mart_tools_get_value (h : Host) : option (string -> result pyval) :=
  match cog_MartTools h with
  | None => None
  | Some cog => mt_get_value cog
  end.

(** The last loop of [write_audio_data]: a string value is reduced to its
    digits and parsed before it is published. *)
Definition publish_audio_counter (counter : list (string * pyval)) : M unit :=
  for_each counter
    (fun '(key, value) _ =>
       value <- match value with
                | VStr s => z <- lift (int_of_digits (strip_non_digits s)) ;;
                            ret (VInt z)
                | _ => ret value
                end ;;
       setattr_ns "audio" key value)
    tt.

(** The statements of the [try] block before the publishing loop; they
    only read the host. *)
Definition collect_audio (h : Host) : result (list (string * pyval)) :=
  let counter : list (string * pyval) := [] in
  let counter :=
    dict_set "Active Music Players"
      (VInt (Z.of_nat (length (active_players h)))) counter in
  let counter :=
    dict_set "Music Players"
      (VInt (Z.of_nat (length (all_players h)))) counter in
  rbind (py_sub (counter_get "Music Players" counter)
                (counter_get "Active Music Players" counter))
    (fun inactive =>
       let counter := dict_set "Inactive Music Players" inactive counter in
       rbind (get_set_detailed h)
         (fun detailed =>
            match detailed, mart_tools_get_value h with
            | true, Some get_value =>
                rfor_each mart_tools_counters
                  (fun '(label, name) counter =>
                     rbind (get_value name)
                       (fun v => Ok (dict_set label v counter)))
                  counter
            | _, _ => Ok counter
            end)).

(** The [try] block of [write_audio_data]. *)
Definition audio_pass (h : Host) : M unit :=
  counter <- lift (collect_audio h) ;;
  publish_audio_counter counter.

Definition write_audio_data (h : Host) : M unit :=
  lightmode <- lift (get_set_lightmode h) ;;
  if lightmode then ret tt
  else
    try_except (audio_pass h)
      (fun e => log_exception "Exception in write_audio_data" e).

(** ** The adventure collector *)

Definition adventures_default : list (string * pyval) :=
  [ ("wins", VInt 0); ("loses", VInt 0); ("fight", VInt 0); ("spell", VInt 0);
    ("talk", VInt 0); ("pray", VInt 0); ("run", VInt 0); ("fumbles", VInt 0) ].

(** The first inner loop: missing sub-fields get their defaults. *)
Definition backfill_account (v : list (string * pyval)) : list (string * pyval) :=
  fold_left
    (fun v item =>
       if dict_mem item v then v
       else if String.eqb item "adventures"
            then dict_update v [(item, VDict adventures_default)]
            else dict_update v [(item, VInt 0)])
    ["adventures"; "rebirths"; "set_items"] v.

(** The second inner loop: [rebirths] and [set_items] are copied, and the
    whole [adventures] record is merged in once for each of its keys that
    is one of the eight known counters. *)
Definition flatten_account (v : list (string * pyval))
    : result (list (string * pyval)) :=
  rfor_each v
    (fun '(vk, vi) user_data =>
       if bool_decide (vk ∈ ["rebirths"; "set_items"])
       then Ok (dict_update user_data [(vk, vi)])
       else if bool_decide (vk ∈ ["adventures"])
       then match vi with
            | VDict items =>
                Ok (fold_left
                      (fun user_data '(s, sv) =>
                         if dict_mem s adventures_default
                         then dict_update user_data items
                         else user_data)
                      items user_data)
            | _ => Raise AttributeError
            end
       else Ok user_data)
    [].

Definition adventure_labels : list (string * string) :=
  [ ("Set Items", "set_items"); ("Rebirths", "rebirths"); ("Wins", "wins");
    ("Losses", "loses"); ("Physical Attacks", "fight");
    ("Magical Attacks", "spell"); ("Diplomatic Attacks", "talk");
    ("Prayers", "pray"); ("Retreats", "run"); ("Fumbles", "fumbles") ].

(** The ten [adventure_count[label] += u_data.get(field, 0)] statements. *)
Definition tally_account (u_data : list (string * pyval))
    (adventure_count : list (string * pyval)) : result (list (string * pyval)) :=
  rfor_each adventure_labels
    (fun '(label, field) adventure_count =>
       counter_iadd label (default (VInt 0) (dict_get field u_data))
         adventure_count)
    adventure_count.

(** The first loop of the [try] block: one flattened record per user. *)
Definition flatten_accounts (raw_accounts : list (Z * list (string * pyval)))
    : M (list (Z * list (string * pyval))) :=
  async_for raw_accounts 50 0
    (fun '(k, v) (raw_accounts_new : list (Z * list (string * pyval))) =>
       let v := backfill_account v in
       user_data <- lift (flatten_account v) ;;
       let user_data :=
         match user_data with
         | [] => []
         | _ => [(k, user_data)]
         end in
       ret (dict_update raw_accounts_new user_data))
    [].

(** The second loop: the sums over all users. *)
Definition tally_accounts (raw_accounts_new : list (Z * list (string * pyval)))
    : M (list (string * pyval)) :=
  async_for raw_accounts_new 25 0
    (fun '(u_id, u_data) adventure_count =>
       lift (tally_account u_data adventure_count))
    [].

(** The statements after the two loops: publication and the derived
    values. *)
Definition publish_adventure (adventure_count : list (string * pyval))
    : M unit :=
  setattr_ns "adventure" "Wins" (VInt 0) ;;
  setattr_ns "adventure" "Losses" (VInt 0) ;;
  publish_counter "adventure" adventure_count ;;
  wins <- getattr_ns "adventure" "Wins" ;;
  losses <- getattr_ns "adventure" "Losses" ;;
  total_adventure <- lift (py_add wins losses) ;;
  pers <-
    (if py_truthy total_adventure
     then
       wins <- getattr_ns "adventure" "Wins" ;;
       win_per <- lift (py_truediv wins total_adventure) ;;
       losses <- getattr_ns "adventure" "Losses" ;;
       loss_per <- lift (py_truediv losses total_adventure) ;;
       ret (win_per, loss_per)
     else ret (VInt 0, VInt 0)) ;;
  _ <- getattr_stats "adventure" ;;
  setattr_ns "adventure" "Adventures" total_adventure ;;
  _ <- getattr_stats "adventure" ;;
  win_pct <- lift (py_mul pers.1 (VInt 100)) ;;
  setattr_ns "adventure" "Win Percentage" win_pct ;;
  _ <- getattr_stats "adventure" ;;
  loss_pct <- lift (py_mul pers.2 (VInt 100)) ;;
  setattr_ns "adventure" "Loss Percentage" loss_pct.

(** The [try] block of [write_adventure_data]. *)
Definition adventure_pass (adv_cog : Adventure) : M unit :=
  raw_accounts <- lift (adv_all_users adv_cog) ;;
  raw_accounts_new <- flatten_accounts raw_accounts ;;
  adventure_count <- tally_accounts raw_accounts_new ;;
  publish_adventure adventure_count.

Definition write_adventure_data (h : Host) : M unit :=
  match cog_Adventure h with
  | None => ret tt
  | Some adv_cog =>
      lightmode <- lift (get_set_lightmode h) ;;
      if lightmode then ret tt
      else
        try_except (adventure_pass adv_cog)
          (fun e => log_exception "Exception in write_adventure_data" e)
  end.

(** ** The bot and guild collector *)

#[global] Instance Status_eq_dec : EqDecision Status.
Proof. solve_decision. Defined.

#[global] Instance ActivityType_eq_dec : EqDecision ActivityType.
Proof. solve_decision. Defined.

Definition verify : list (string * string) :=
  [ ("none", "None"); ("low", "Low"); ("medium", "Medium"); ("high", "High");
    ("extreme", "Extreme") ].

Definition features : list (string * string) :=
  [ ("VIP_REGIONS", "VIP Voice Servers");
    ("VANITY_URL", "Vanity URL");
    ("INVITE_SPLASH", "Splash Invite");
    ("VERIFIED", "Verified");
    ("PARTNERED", "Partnered");
    ("MORE_EMOJI", "More Emojis");
    ("DISCOVERABLE", "Server Discovery");
    ("FEATURABLE", "Featurable");
    ("COMMERCE", "Commerce");
    ("PUBLIC", "Public");
    ("NEWS", "News Channels");
    ("BANNER", "Banner Image");
    ("ANIMATED_ICON", "Animated Icon");
    ("PUBLIC_DISABLED", "Public disabled");
    ("MEMBER_LIST_DISABLED", "Member list disabled");
    ("ENABLED_DISCOVERABLE_BEFORE", "Was in Server Discovery");
    ("WELCOME_SCREEN_ENABLED", "Welcome Screen") ].

(** [table.get(k) or 'Unknown'] *)
Definition get_or_unknown (table : list (string * string)) (k : string) : string :=
  match dict_get k table with
  | Some name => if String.eqb name "" then "Unknown" else name
  | None => "Unknown"
  end.

(** The local tallies of one pass of [write_bot_data]. *)
Record tallies := {
  counter : list (string * pyval);
  server_counter : list (string * pyval);
  region_count : list (string * pyval);
  verify_count : list (string * pyval);
  features_count : list (string * pyval);
  temp_data : list (string * gset Z);
  server_temp_data : list (string * gset Z);
}.

Definition set_counter (c : list (string * pyval)) (t : tallies) : tallies :=
  {| counter := c; server_counter := server_counter t;
     region_count := region_count t; verify_count := verify_count t;
     features_count := features_count t; temp_data := temp_data t;
     server_temp_data := server_temp_data t |}.

Definition set_server_counter (c : list (string * pyval)) (t : tallies) : tallies :=
  {| counter := counter t; server_counter := c;
     region_count := region_count t; verify_count := verify_count t;
     features_count := features_count t; temp_data := temp_data t;
     server_temp_data := server_temp_data t |}.

Definition set_verify_count (c : list (string * pyval)) (t : tallies) : tallies :=
  {| counter := counter t; server_counter := server_counter t;
     region_count := region_count t; verify_count := c;
     features_count := features_count t; temp_data := temp_data t;
     server_temp_data := server_temp_data t |}.

Definition set_features_count (c : list (string * pyval)) (t : tallies) : tallies :=
  {| counter := counter t; server_counter := server_counter t;
     region_count := region_count t; verify_count := verify_count t;
     features_count := c; temp_data := temp_data t;
     server_temp_data := server_temp_data t |}.

Definition set_temp_data (d : list (string * gset Z)) (t : tallies) : tallies :=
  {| counter := counter t; server_counter := server_counter t;
     region_count := region_count t; verify_count := verify_count t;
     features_count := features_count t; temp_data := d;
     server_temp_data := server_temp_data t |}.

Definition set_server_temp_data (d : list (string * gset Z)) (t : tallies) : tallies :=
  {| counter := counter t; server_counter := server_counter t;
     region_count := region_count t; verify_count := verify_count t;
     features_count := features_count t; temp_data := temp_data t;
     server_temp_data := d |}.

(** [counter[k] += n] on one of the counters of the tallies. *)
Definition iadd_counter (k : string) (n : Z) (t : tallies) : result tallies :=
  rbind (counter_iadd k (VInt n) (counter t)) (fun c => Ok (set_counter c t)).

Definition iadd_server_counter (k : string) (n : Z) (t : tallies) : result tallies :=
  rbind (counter_iadd k (VInt n) (server_counter t))
    (fun c => Ok (set_server_counter c t)).

Definition add_temp (k : string) (x : Z) (t : tallies) : tallies :=
  set_temp_data (set_add k x (temp_data t)) t.

Definition add_server_temp (k : string) (x : Z) (t : tallies) : tallies :=
  set_server_temp_data (set_add k x (server_temp_data t)) t.

(** The recurring pattern
    [temp_data[users].add(member.id)] followed by
    [if member.bot: temp_data[bots].add(member.id)]
    [else: temp_data[humans].add(member.id)]. *)
Definition add_by_kind (users bots humans : string) (member : Member)
    (t : tallies) : tallies :=
  let t := add_temp users (m_id member) t in
  if m_bot member then add_temp bots (m_id member) t
  else add_temp humans (m_id member) t.

(** The detailed block at the top of the per-guild statistics. *)
Definition tally_guild_detailed (guild : Guild) (t : tallies) : result tallies :=
  rbind
    (rfor_each (g_features guild)
       (fun feature t =>
          rbind (counter_iadd (get_or_unknown features feature) (VInt 1)
                   (features_count t))
            (fun c => Ok (set_features_count c t)))
       t)
    (fun t =>
       rbind (counter_iadd (get_or_unknown verify (g_verification_level guild))
                (VInt 1) (verify_count t))
         (fun c => Ok (set_verify_count c t))).

(** Roles, size flags and boost tiers. *)
Definition tally_guild_flags (guild : Guild) (t : tallies) : result tallies :=
  rbind (iadd_server_counter "Roles" (Z.of_nat (length (g_roles guild))) t)
    (fun t =>
       let t := if g_large guild
                then add_server_temp "Large" (g_id guild) t else t in
       let t := if negb (g_chunked guild)
                then add_server_temp "Unchunked" (g_id guild) t else t in
       let guild_premium_tier := g_premium_tier guild in
       let t := if negb (guild_premium_tier =? 0)%Z
                then add_server_temp "Nitro Boosted" (g_id guild) t else t in
       let t := if (guild_premium_tier =? 1)%Z
                then add_server_temp "Tier 1 Nitro" (g_id guild) t
                else if (guild_premium_tier =? 2)%Z
                then add_server_temp "Tier 2 Nitro" (g_id guild) t
                else if (guild_premium_tier =? 3)%Z
                then add_server_temp "Tier 3 Nitro" (g_id guild) t
                else t in
       Ok t).

(** [member in members]: members compare by id. *)
Definition member_in (me : Member) (members : list Member) : bool :=
  existsb (fun m => (m_id m =? m_id me)%Z) members.

(** The body of [for channel in guild.channels]. *)
Definition tally_channel (guild : Guild) (channel : Channel) (t : tallies)
    : result tallies :=
  rbind (iadd_server_counter "Server Channels" 1 t)
    (fun t =>
       match channel with
       | TextChannel id is_nsfw is_news =>
           rbind (iadd_server_counter "Text Channels" 1 t)
             (fun t =>
                let t := if is_nsfw then add_temp "NSFW Text Channels" id t
                         else t in
                let t := if is_news then add_temp "News Text Channels" id t
                         else t in
                Ok t)
       | VoiceChannel id members =>
           rbind (iadd_server_counter "Voice Channels" 1 t)
             (fun t =>
           rbind (iadd_counter "Users in a VC" (Z.of_nat (length members)) t)
             (fun t =>
                if member_in (g_me guild) members
                then
                  rbind (iadd_counter "Users in a VC with me"
                           (Z.of_nat (length members) - 1) t)
                    (fun t =>
                  rbind (iadd_server_counter "Bots in a VC with me"
                           (Z.of_nat (length (filter (fun m => m_bot m = true)
                                                members)) - 1) t)
                    (fun t =>
                       Ok (fold_left
                             (fun t m =>
                                if m_is_on_mobile m
                                then add_temp "Users in a VC on Mobile" (m_id m) t
                                else t)
                             members t)))
                else Ok t))
       | CategoryChannel id => iadd_server_counter "Channel Categories" 1 t
       | OtherChannel id => Ok t
       end).

(** The body of [for emoji in guild.emojis]. *)
Definition tally_emoji (emoji : Emoji) (t : tallies) : result tallies :=
  rbind (iadd_server_counter "Emojis" 1 t)
    (fun t =>
       if e_animated emoji then iadd_server_counter "Animated Emojis" 1 t
       else iadd_server_counter "Static Emojis" 1 t).

(** The body of the loop over [member.activities]; the second component is
    the local variable [streaming]. *)
Definition tally_activity (member : Member) (a : Activity)
    (st : tallies * bool) : M (tallies * bool) :=
  let '(t, streaming_seen) := st in
  let '(t, streaming_seen) :=
    if decide (a_type a = streaming)
    then (add_by_kind "Users Streaming" "Bots Streaming" "Humans Streaming"
            member t, true)
    else if decide (a_type a = playing)
    then (add_by_kind "Users Gaming" "Bots Gaming" "Humans Gaming" member t,
          streaming_seen)
    else (t, streaming_seen) in
  let t := if decide (a_type a = listening)
           then add_by_kind "Users Listening" "Bots Listening"
                  "Humans Listening" member t
           else t in
  let t := if decide (a_type a = watching)
           then add_by_kind "Users Watching" "Bots Watching"
                  "Humans Watching" member t
           else t in
  let t := if decide (a_type a = custom)
           then add_by_kind "Users with Custom Status" "Bots with Custom Status"
                  "Humans with Custom Status" member t
           else t in
  ret (t, streaming_seen).

(** The overall presence of a member that is not streaming. *)
Definition tally_status (member : Member) (t : tallies) : tallies :=
  let t := if decide (m_status member <> offline)
           then add_by_kind "Users Connected" "Bots Connected"
                  "Humans Connected" member t
           else t in
  if decide (m_status member = online)
  then add_by_kind "Users Online" "Bots Online" "Humans Online" member t
  else if decide (m_status member = idle)
  then add_by_kind "Idle Users" "Idle Bots" "Idle Humans" member t
  else if decide (m_status member = dnd)
  then add_by_kind "Users in Do Not Disturb" "Bots in Do Not Disturb"
         "Humans in Do Not Disturb" member t
  else if decide (m_status member = offline)
  then add_by_kind "Users Offline" "Bots Offline" "Human Offline" member t
  else t.

(** The presence on one platform. *)
Definition tally_platform (status : Status)
    (l_online l_idle l_dnd l_offline : string) (member : Member) (t : tallies)
    : tallies :=
  if decide (status = online) then add_temp l_online (m_id member) t
  else if decide (status = idle) then add_temp l_idle (m_id member) t
  else if decide (status = dnd) then add_temp l_dnd (m_id member) t
  else if decide (status = offline) then add_temp l_offline (m_id member) t
  else t.

(** The body of the loop over [guild.members]. *)
Definition tally_member (detailed : bool) (member : Member) (t : tallies)
    : M tallies :=
  let t := add_temp "Unique Users" (m_id member) t in
  let t := if m_bot member then add_temp "Bots" (m_id member) t
           else add_temp "Humans" (m_id member) t in
  if detailed
  then
    let t := if m_is_on_mobile member
             then add_temp "Mobile Users" (m_id member) t else t in
    let streaming_seen := false in
    st <- async_for (m_activities member) 5 (1 # 100)
            (tally_activity member) (t, streaming_seen) ;;
    let '(t, streaming_seen) := st in
    let t := if negb streaming_seen then tally_status member t else t in
    let t := tally_platform (m_mobile_status member)
               "Users Online on Mobile" "Users Idle on Mobile"
               "Users in Do Not Disturb on Mobile" "Users Offline on Mobile"
               member t in
    let t := tally_platform (m_desktop_status member)
               "Users Online on Desktop" "Users Idle on Desktop"
               "Users in Do Not Disturb on Desktop" "Users Offline on Desktop"
               member t in
    let t := tally_platform (m_web_status member)
               "Users Online on Browser" "Users Idle on Browser"
               "Users in Do Not Disturb on Browser" "Users Offline on Browser"
               member t in
    ret t
  else ret t.

(** The body of [for guild in bot.guilds]. *)
Definition tally_guild (lightmode detailed : bool) (guild : Guild) (t : tallies)
    : M tallies :=
  if g_unavailable guild
  then ret (add_server_temp "Unavailable" (g_id guild) t)
  else
    t <- lift (iadd_server_counter "Members"
                 (default 0%Z (g_member_count guild)) t) ;;
    t <- (if negb lightmode
          then
            t <- (if detailed then lift (tally_guild_detailed guild t)
                  else ret t) ;;
            t <- lift (tally_guild_flags guild t) ;;
            t <- lift (rfor_each (g_channels guild) (tally_channel guild) t) ;;
            lift (rfor_each (g_emojis guild) tally_emoji t)
          else ret t) ;;
    async_for (g_members guild) 1000 0 (tally_member detailed) t.

Definition empty_tallies : tallies :=
  {| counter := []; server_counter := []; region_count := [];
     verify_count := []; features_count := []; temp_data := [];
     server_temp_data := [] |}.

(** The [if topgg:] block. *)
Definition tally_votes (h : Host) (t : tallies) : M tallies :=
  vote_data <- get_votes h ;;
  let vote_data := if py_truthy vote_data then vote_data else VDict [] in
  if py_truthy vote_data
  then
    monthly <- lift (py_get vote_data "monthlyPoints" VNone) ;;
    t <- (if py_truthy monthly
          then v <- lift (py_getitem vote_data "monthlyPoints") ;;
               ret (set_counter (dict_set "Monthly Votes" v (counter t)) t)
          else ret t) ;;
    points <- lift (py_get vote_data "points" VNone) ;;
    (if py_truthy points
     then v <- lift (py_getitem vote_data "points") ;;
          ret (set_counter (dict_set "Votes" v (counter t)) t)
     else ret t)
  else ret t.

(** [for key, value in sets.items(): counter[key] = len(value)] *)
Definition flatten_sets (sets : list (string * gset Z))
    (c : list (string * pyval)) : list (string * pyval) :=
  fold_left (fun c '(key, value) => dict_set key (VInt (Z.of_nat (size value))) c)
    sets c.

Definition is_overflow (e : exn) : bool :=
  match e with OverflowError => true | _ => false end.

(** Everything inside the [try] of [write_bot_data] up to the first
    [setattr]. *)
Definition collect_bot_data (h : Host) (lightmode detailed topgg : bool)
    : M tallies :=
  let t := empty_tallies in
  t <- (if topgg then tally_votes h t else ret t) ;;
  let t := set_server_counter
             (dict_set "Total" (VInt (Z.of_nat (length (guilds h))))
                (server_counter t)) t in
  t <- try_except
         (ms <- lift (pyfloat_round (pyfloat_mul1000 (latency h))) ;;
          ret (set_counter (dict_set "Discord Latency" (VInt ms) (counter t)) t))
         (fun e => if is_overflow e then ret t else raise e) ;;
  let t := set_counter
             (dict_set "Shards"
                (match shard_count h with Some n => VInt n | None => VNone end)
                (counter t)) t in
  t <- for_each (guilds h) (tally_guild lightmode detailed) t ;;
  let t := set_counter (flatten_sets (temp_data t) (counter t)) t in
  let t := set_server_counter
             (flatten_sets (server_temp_data t) (server_counter t)) t in
  ret t.

(** The [try] block of [write_bot_data]. *)
Definition bot_data_pass (h : Host) (lightmode detailed topgg : bool) : M unit :=
  t <- collect_bot_data h lightmode detailed topgg ;;
  publish_counter "bot" (counter t) ;;
  publish_counter "guilds" (server_counter t) ;;
  publish_counter "guilds_regions" (region_count t) ;;
  publish_counter "guild_features" (features_count t) ;;
  publish_counter "guild_verification" (verify_count t).

Definition write_bot_data (h : Host) : M unit :=
  lightmode <- lift (get_set_lightmode h) ;;
  flags <- (if negb lightmode
            then detailed <- lift (get_set_detailed h) ;;
                 topgg <- lift (get_set_topgg h) ;;
                 ret (detailed, topgg)
            else ret (false, false)) ;;
  let '(detailed, topgg) := flags in
  try_except (bot_data_pass h lightmode detailed topgg)
    (fun e => log_exception "Exception in write_bot_data" e).

(** ** The scheduler *)

(** [asyncio.gather(..., return_exceptions=True)]: every collector runs to
    its end, an exception it raises becomes its entry in the list of
    results, and the gather itself completes.  The collectors are
    cooperative tasks that write to different categories, so their
    interleaving is represented by running them in the listed order. *)
Fixpoint gather_return_exceptions (tasks : list (M unit))
    : M (list (result unit)) :=
  match tasks with
  | [] => ret []
  | task :: rest =>
      fun w =>
        let '(r, w') := task w in
        match gather_return_exceptions rest w' with
        | (Ok rs, w'') => (Ok (r :: rs), w'')
        | (Raise e, w'') => (Raise e, w'')
        end
  end.

Definition run_events (h : Host) : M unit :=
  _ <- gather_return_exceptions
         [ write_bot_data h;
           write_currency_data h;
           write_shards_data h;
           write_audio_data h;
           write_adventure_data h ] ;;
  ret tt.

(** [bot._stats_ready.is_set()] *)
Definition stats_ready_is_set : M bool :=
  b <- get_bot ;;
  match _stats_ready b with
  | None => raise AttributeError
  | Some ev => ret (ev_flag ev)
  end.

(** [bot._stats_ready.set()] *)
Definition stats_ready_set : M unit :=
  b <- get_bot ;;
  match _stats_ready b with
  | None => raise AttributeError
  | Some ev =>
      put_bot {| stats := stats b; _stats_task := _stats_task b;
                 _stats_ready := Some {| ev_id := ev_id ev; ev_flag := true |} |} ;;
      emit EvReadySet
  end.

(** One turn of the [while True] loop of [update_task], over the
    coroutine awaited inside the [try].  An exception raised in the
    [else] branch is not handled by the [except] clause. *)
Definition update_cycle (events : M unit) : M unit :=
  fun w =>
    match events w with
    | (Raise exc, w') =>
        (log_exception "update_task" exc ;; sleep 10) w'
    | (Ok _, w') =>
        (is_set <- stats_ready_is_set ;;
         (if negb is_set then stats_ready_set else ret tt) ;;
         sleep 60) w'
    end.

(** The loop of [update_task] over the first cycles of a run, the host
    seen by each cycle given in order; it only ends early when a cycle
    lets an exception through. *)
Definition update_loop (cycles : list (M unit)) : M unit :=
  for_each cycles (fun events _ => update_cycle events) tt.

Definition update_task (hosts : list Host) : M unit :=
  update_loop (map run_events hosts).

(** ** Initialisation *)

Definition bot_stats : list string :=
  [ "guilds"; "bot"; "shards"; "audio"; "currency"; "guilds_regions";
    "guild_features"; "guild_verification"; "adventure" ].

(** [if not hasattr(bot.stats, stat_obj): setattr(bot.stats, stat_obj, SimpleNamespace())] *)
Definition init_category (stat_obj : string) : M unit :=
  b <- get_bot ;;
  match stats b with
  | None => raise AttributeError
  | Some st =>
      match cats st !! stat_obj with
      | Some _ => ret tt
      | None =>
          id <- alloc ;;
          put_bot {| stats := Some
                       {| stats_id := stats_id st;
                          cats := <[stat_obj := {| ns_id := id; ns_dict := ∅ |}]>
                                    (cats st);
                          to_dict := to_dict st |};
                     _stats_task := _stats_task b;
                     _stats_ready := _stats_ready b |}
      end
  end.

Definition init_bot_stats : M unit :=
  b <- get_bot ;;
  (match stats b with
   | Some _ => ret tt
   | None =>
       id <- alloc ;;
       put_bot {| stats := Some {| stats_id := id; cats := ∅; to_dict := None |};
                  _stats_task := _stats_task b;
                  _stats_ready := _stats_ready b |}
   end) ;;
  for_each bot_stats (fun stat_obj _ => init_category stat_obj) tt ;;
  b <- get_bot ;;
  (match stats b with
   | None => raise AttributeError
   | Some st =>
       match to_dict st with
       | Some _ => ret tt
       | None =>
           id <- alloc ;;
           put_bot {| stats := Some {| stats_id := stats_id st; cats := cats st;
                                       to_dict := Some id |};
                      _stats_task := _stats_task b;
                      _stats_ready := _stats_ready b |}
       end
   end) ;;
  b <- get_bot ;;
  (match _stats_task b with
   | Some _ => ret tt
   | None =>
       put_bot {| stats := stats b; _stats_task := Some None;
                  _stats_ready := _stats_ready b |}
   end) ;;
  b <- get_bot ;;
  match _stats_ready b with
  | Some _ => ret tt
  | None =>
      id <- alloc ;;
      put_bot {| stats := stats b; _stats_task := _stats_task b;
                 _stats_ready := Some {| ev_id := id; ev_flag := false |} |}
  end.

(** [_get_dict(bot)], the function behind [bot.stats.to_dict]: the
    attribute dictionary of every attribute of [bot.stats] other than
    [to_dict]. *)
Definition _get_dict (b : Red) : result (gmap string (gmap string pyval)) :=
  match stats b with
  | None => Raise AttributeError
  | Some st => Ok (ns_dict <$> cats st)
  end.

(** [start_stats_tasks]: the task object created for [update_task]. *)
Definition start_stats_tasks : M unit :=
  id <- alloc ;;
  b <- get_bot ;;
  put_bot {| stats := stats b; _stats_task := Some (Some id);
             _stats_ready := _stats_ready b |}.

(** A bot object without any of the attributes, and a first world. *)
Definition fresh_bot : Red :=
  {| stats := None; _stats_task := None; _stats_ready := None |}.

Definition fresh_world : world :=
  {| bot := fresh_bot; next_obj := 0; trace := [] |}.

(** ** Vocabulary of the statements *)

(** [key] as [get_votes] reads it from the shared tokens. *)
Definition api_key (tokens : list (string * pyval)) : pyval :=
  default (VStr "") (dict_get "api_key" tokens).

(** [hasattr(bot.stats, cat)] *)
Definition has_category (w : world) (cat : string) : bool :=
  match stats (bot w) with
  | Some st => bool_decide (is_Some (cats st !! cat))
  | None => false
  end.

(** Every attribute that [init_bot_stats] looks for is there. *)
Definition initialised (w : world) : bool :=
  forallb (has_category w) bot_stats
  && match stats (bot w) with
     | Some st => bool_decide (is_Some (to_dict st))
     | None => false
     end
  && bool_decide (is_Some (_stats_task (bot w)))
  && bool_decide (is_Some (_stats_ready (bot w))).

Definition is_ready_set (ev : effect) : bool :=
  match ev with EvReadySet => true | _ => false end.

(** How often [bot._stats_ready.set()] was called so far. *)
Definition ready_set_calls (w : world) : nat :=
  length (List.filter is_ready_set (trace w)).

(** [bot._stats_ready.is_set()], false while there is no event. *)
Definition stats_ready_flag (w : world) : bool :=
  match _stats_ready (bot w) with
  | Some ev => ev_flag ev
  | None => false
  end.

(** For each cycle of the loop, whether the coroutine in its [try]
    completed without an exception. *)
Fixpoint cycle_outcomes (cycles : list (M unit)) (w : world) : list bool :=
  match cycles with
  | [] => []
  | events :: rest =>
      is_ok (events w).1 :: cycle_outcomes rest (update_cycle events w).2
  end.

(** A coroutine that neither touches the ready event nor calls its
    [set]. *)
Definition ready_frame : relation world :=
  fun w w' =>
    _stats_ready (bot w') = _stats_ready (bot w)
    /\ ready_set_calls w' = ready_set_calls w.

(** A coroutine that leaves the attributes of the bot alone. *)
Definition bot_frame : relation world :=
  fun w w' => bot w' = bot w.

(** The balance of a bank record that has an integer balance. *)
Definition account_balance (value : pyval) : Z :=
  match py_getitem value "balance" with
  | Ok (VInt b) => b
  | _ => 0%Z
  end.

(** A user balance record: [value["balance"]] is an int. *)
Definition balance_record (value : pyval) : Prop :=
  exists b : Z, py_getitem value "balance" = Ok (VInt b).

(** The arithmetic sum of the balances. *)
Definition sum_balances (accounts : list (Z * pyval)) : Z :=
  foldr (fun kv acc => (account_balance kv.2 + acc)%Z) 0%Z accounts.

(** Total players minus active players. *)
Definition inactive_players (h : Host) : Z :=
  (Z.of_nat (length (all_players h)) - Z.of_nat (length (active_players h)))%Z.

(** The ids collected so far under a label of [temp_data]. *)
Definition bucket (t : tallies) (label : string) : gset Z :=
  default ∅ (dict_get label (temp_data t)).

(** The labels an activity of the given type is counted under, for a bot
    or a human. *)
Definition activity_buckets (ty : ActivityType) (is_bot : bool) : list string :=
  match ty with
  | streaming =>
      ["Users Streaming"; if is_bot then "Bots Streaming" else "Humans Streaming"]
  | playing =>
      ["Users Gaming"; if is_bot then "Bots Gaming" else "Humans Gaming"]
  | listening =>
      ["Users Listening";
       if is_bot then "Bots Listening" else "Humans Listening"]
  | watching =>
      ["Users Watching"; if is_bot then "Bots Watching" else "Humans Watching"]
  | custom =>
      ["Users with Custom Status";
       if is_bot then "Bots with Custom Status"
       else "Humans with Custom Status"]
  | unknown | competing => []
  end.

(** The member is in every bucket of the activity. *)
Definition classified (member : Member) (a : Activity) (t : tallies) : Prop :=
  forall label, label ∈ activity_buckets (a_type a) (m_bot member) ->
                m_id member ∈ bucket t label.


(** The labels a pass in light mode can write. *)
Definition light_label (cat key : string) : Prop :=
  (cat = "bot"
   /\ key ∈ ["Discord Latency"; "Shards"; "Unique Users"; "Bots"; "Humans"])
  \/ (cat = "guilds" /\ key ∈ ["Total"; "Members"; "Unavailable"])
  \/ cat = "shards"
  \/ (cat = "currency" /\ key = "Currency In Circulation").

(** The labels the specification names for light mode: the unique
    user, bot and human counts, shard latencies and currency. *)
Definition named_light_label (cat key : string) : Prop :=
  (cat = "bot" /\ key ∈ ["Unique Users"; "Bots"; "Humans"])
  \/ cat = "shards"
  \/ cat = "currency".

(** Everything outside the light labels is as before: the published
    values, the set of categories, [to_dict], the task handle and the
    ready event. *)
Definition light_frame : relation world :=
  fun w w' =>
    (forall cat key, ~ light_label cat key ->
                     published w' cat key = published w cat key)
    /\ (forall cat, has_category w' cat = has_category w cat)
    /\ (to_dict <$> stats (bot w')) = (to_dict <$> stats (bot w))
    /\ _stats_task (bot w') = _stats_task (bot w)
    /\ _stats_ready (bot w') = _stats_ready (bot w).

(** What the tallies of a pass in light mode can hold. *)
Definition light_tallies (t : tallies) : Prop :=
  (counter t).*1 ⊆ ["Discord Latency"; "Shards"]
  /\ (server_counter t).*1 ⊆ ["Total"; "Members"]
  /\ (temp_data t).*1 ⊆ ["Unique Users"; "Bots"; "Humans"]
  /\ (server_temp_data t).*1 ⊆ ["Unavailable"]
  /\ region_count t = [] /\ verify_count t = [] /\ features_count t = [].

(** The guilds a pass tallies: those not marked unavailable. *)
Definition available (gs : list Guild) : list Guild :=
  List.filter (fun g => negb (g_unavailable g)) gs.

(** The ids of the members listed in a guild. *)
Definition member_ids (g : Guild) : gset Z :=
  list_to_set (m_id <$> g_members g).

(** The deduplicated member ids across the available guilds. *)
Definition unique_users (gs : list Guild) : gset Z :=
  ⋃ (member_ids <$> available gs).


(** [getattr(guild, "member_count", 0)] summed over the available guilds:
    the published Members total. *)
Definition member_count_total (gs : list Guild) : Z :=
  foldr (fun g acc => (default 0 (g_member_count g) + acc)%Z) 0%Z (available gs).

(** The keys of the dictionaries of the tallies are distinct, and no set
    of guild ids is kept under the label of the member total. *)
Definition tallies_wf (t : tallies) : Prop :=
  NoDup (counter t).*1 /\ NoDup (server_counter t).*1
  /\ NoDup (temp_data t).*1 /\ "Members" ∉ (server_temp_data t).*1.

(** A step of the tally that touches neither the unique-user set nor the
    member total. *)
Definition tallies_step (t t' : tallies) : Prop :=
  (tallies_wf t -> tallies_wf t')
  /\ bucket t' "Unique Users" = bucket t "Unique Users"
  /\ dict_get "Members" (server_counter t')
     = dict_get "Members" (server_counter t).

(** The entry of the member total after the given guilds. *)
Definition members_entry (gs : list Guild) : option pyval :=
  match available gs with
  | [] => None
  | _ => Some (VInt (member_count_total gs))
  end.

(** The step of the tally for one member: its id joins the unique users. *)
Definition member_step (x : Z) (t t' : tallies) : Prop :=
  (tallies_wf t -> tallies_wf t')
  /\ bucket t' "Unique Users" = bucket t "Unique Users" ∪ {[x]}
  /\ dict_get "Members" (server_counter t')
     = dict_get "Members" (server_counter t).

(** The step of the tally for one guild. *)
Definition guild_step (g : Guild) (t t' : tallies) : Prop :=
  (tallies_wf t -> tallies_wf t')
  /\ bucket t' "Unique Users"
     = bucket t "Unique Users" ∪ (if g_unavailable g then ∅ else member_ids g)
  /\ if g_unavailable g
     then dict_get "Members" (server_counter t')
          = dict_get "Members" (server_counter t)
     else forall z, counter_get "Members" (server_counter t) = VInt z ->
                    dict_get "Members" (server_counter t')
                    = Some (VInt (z + default 0%Z (g_member_count g))).

(** The tallies after the guilds [gs]. *)
Definition guilds_tallied (gs : list Guild) (t : tallies) : Prop :=
  tallies_wf t
  /\ bucket t "Unique Users" = unique_users gs
  /\ dict_get "Members" (server_counter t) = members_entry gs.

(** The tallies a completed collection hands to the publishing loops. *)
Definition guilds_collected (gs : list Guild) (t : tallies) : Prop :=
  NoDup (counter t).*1 /\ NoDup (server_counter t).*1
  /\ (unique_users gs <> ∅ ->
      dict_get "Unique Users" (counter t)
      = Some (VInt (Z.of_nat (size (unique_users gs)))))
  /\ dict_get "Members" (server_counter t) = members_entry gs.

(** The frame relation that relates any two worlds. *)
Definition any_world : relation world := fun _ _ => True.

(** An int or a float. *)
Definition is_number (v : pyval) : Prop :=
  match v with
  | VInt _ | VFloat _ => True
  | _ => False
  end.

(** A counter whose values are numbers. *)
Definition number_counter (c : list (string * pyval)) : Prop :=
  Forall (fun kv => is_number kv.2) c.

(** The label of the adventure category holds a number. *)
Definition number_label (w : world) (key : string) : Prop :=
  exists v, published w "adventure" key = Some v /\ is_number v.

(** The unit roundoff of binary64. *)
Definition unit_roundoff : Q := 1 # (2 ^ 53).

(** The tolerance of the sum of the two percentages: each comes from one
    division and one multiplication. *)
Definition percent_tolerance : Q :=
  100 * (2 * unit_roundoff + unit_roundoff * unit_roundoff).

(** The world a handler leaves: what the block had done, and the log
    entry. *)
Definition logged (msg : string) (e : exn) (w : world) : world :=
  {| bot := bot w; next_obj := next_obj w;
     trace := trace w ++ [EvLog msg e] |}.

(** ** Concrete inputs *)

(** The bot after [init_bot_stats] on a bot without any of the
    attributes. *)
Definition ready_world : world := (init_bot_stats fresh_world).2.

Definition example_member (id : Z) (is_bot : bool) (activities : list ActivityType)
    : Member :=
  {| m_id := id; m_bot := is_bot; m_is_on_mobile := false;
     m_activities := (fun ty => {| a_type := ty |}) <$> activities;
     m_status := online; m_mobile_status := offline;
     m_desktop_status := online; m_web_status := offline |}.

Definition example_guild (id : Z) (member_count : option Z)
    (members : list Member) : Guild :=
  {| g_id := id; g_unavailable := false; g_member_count := member_count;
     g_features := ["VIP_REGIONS"; "FOO_BAR"]; g_verification_level := "low";
     g_roles := [1%Z]; g_large := false; g_chunked := true;
     g_premium_tier := 2%Z;
     g_channels := [TextChannel 5 true false; VoiceChannel 6 members;
                    CategoryChannel 7];
     g_emojis := [{| e_animated := true |}];
     g_me := example_member 2 true [];
     g_members := members |}.

(** A host on which every call succeeds, with the parts the examples vary
    as parameters. *)
Definition example_host (lightmode : bool) (gs : list Guild)
    (shards : list (Z * pyfloat)) (accounts : list (Z * pyval))
    (active all : list Z) (outcome : http_outcome) : Host :=
  {| get_set_lightmode := Ok lightmode;
     get_set_detailed := Ok true;
     get_set_topgg := Ok true;
     guilds := gs;
     latency := Finite (123456 # 1000000);
     shard_count := Some 1%Z;
     latencies := shards;
     bank_all_users := Ok accounts;
     active_players := active;
     all_players := all;
     cog_MartTools :=
       Some {| mt_get_value := Some (fun _ => Ok (VStr "1,234")) |};
     cog_Adventure :=
       Some {| adv_all_users :=
                 Ok [ (1%Z, [("adventures",
                               VDict [("wins", VInt 1); ("loses", VInt 2)])]);
                      (2%Z, [("rebirths", VInt 3)]) ] |};
     get_shared_api_tokens_dbl := Ok [("api_key", VStr "token")];
     user_id := 99%Z;
     http_get := fun _ _ => outcome |}.

Definition example_accounts : list (Z * pyval) :=
  [ (1%Z, VDict [("name", VStr "a"); ("balance", VInt 100)]);
    (2%Z, VDict [("balance", VInt 50)]);
    (3%Z, VDict [("balance", VInt (-8)); ("created_at", VInt 0)]) ].

Definition example_votes : http_outcome :=
  HttpResponse 200 (Ok (VDict [("points", VInt 7); ("monthlyPoints", VInt 0)])).

(** A member with six activities, the sixth of them a stream. *)
Definition busy_member : Member :=
  example_member 1 false [playing; playing; playing; playing; playing; streaming].

Definition plain_host : Host :=
  example_host false
    [example_guild 10 (Some 2%Z) [busy_member; example_member 2 true []]]
    [(0%Z, Finite (5 # 100))] example_accounts [1%Z] [1%Z; 2%Z] example_votes.

(** Light mode on. *)
Definition light_host : Host :=
  example_host true
    [example_guild 10 (Some 2%Z) [busy_member; example_member 2 true []]]
    [(0%Z, Finite (5 # 100))] example_accounts [1%Z] [1%Z; 2%Z] example_votes.

(** The second shard has not seen a heartbeat acknowledged yet. *)
Definition waiting_shard_host : Host :=
  example_host false [] [(0%Z, Finite (5 # 100)); (1%Z, PosInf)]
    example_accounts [] [] example_votes.

(** The vote endpoint cannot be reached. *)
Definition unreachable_votes_host : Host :=
  example_host false [] [] [] [] [] (HttpRaise ClientConnectionError).

(** More active players than players. *)
Definition more_active_host : Host :=
  example_host false [] [] [] [1%Z; 2%Z] [1%Z] example_votes.


(** The tallies a computation returned, empty when it raised. *)
Definition returned_tallies (r : result tallies * world) : tallies :=
  match r.1 with
  | Ok t => t
  | Raise _ => empty_tallies
  end.

(** ** Vocabulary of the program logic *)

(** [spec R Q m]: from any world, [m] leaves a world related by [R], and a
    value it returns satisfies [Q]. *)
Definition spec (R : relation world) {A} (Q : A -> Prop) (m : M A) : Prop :=
  forall w, R w (m w).2 /\ forall a, (m w).1 = Ok a -> Q a.

(** [frames R m]: whatever [m] does and returns, it leaves a world related
    to the one it started from. *)
Abbreviation frames R m := (spec R (fun _ => True) m).

(** [keeps cat key]: the published value of the label is the same before
    and after. *)
Definition keeps (cat key : string) : relation world :=
  fun w w' => published w' cat key = published w cat key.

(** Buckets only grow. *)
Definition buckets_le (t t' : tallies) : Prop :=
  forall k x, x ∈ bucket t k -> x ∈ bucket t' k.

(** The tallies as [collect_bot_data] has them when it reaches the loop
    over the guilds. *)
Definition before_guilds (t : tallies) : Prop :=
  NoDup (counter t).*1 /\ NoDup (server_counter t).*1
  /\ dict_get "Members" (server_counter t) = None
  /\ temp_data t = [] /\ server_temp_data t = [].

(** ** Vocabulary of the further properties *)

(** The namespace object held in [bot.stats.<cat>], if there is one. *)
Definition category (w : world) (cat : string) : option Namespace :=
  st ← stats (bot w); cats st !! cat.

(** What [init_bot_stats] leaves alone: every published value, every
    category namespace, [to_dict], task handle and ready event that is
    already there, the attributes of [bot.stats] it does not know, and the
    log. *)
Definition init_frame : relation world :=
  fun w w' =>
    (forall cat key, published w' cat key = published w cat key)
    /\ (forall cat ns, category w cat = Some ns -> category w' cat = Some ns)
    /\ (forall cat, cat ∉ bot_stats -> category w' cat = category w cat)
    /\ (forall id, stats (bot w) ≫= to_dict = Some id ->
                   stats (bot w') ≫= to_dict = Some id)
    /\ (forall task, _stats_task (bot w) = Some task ->
                     _stats_task (bot w') = Some task)
    /\ (forall ev, _stats_ready (bot w) = Some ev ->
                   _stats_ready (bot w') = Some ev)
    /\ trace w' = trace w.

(** [int(latency * 1000)] does not raise. *)
Definition latency_ok (latency : pyfloat) : Prop :=
  is_ok (pyfloat_int (pyfloat_mul1000 latency)) = true.

(** The label of a shard index in the shards category. *)
Definition shard_label (index : Z) : string := str_of_int (index + 1).

(** A bank record that makes [overall += value["balance"]] raise [e]: the
    subscript raises, or the balance is no number. *)
Definition balance_fault (value : pyval) (e : exn) : Prop :=
  py_getitem value "balance" = Raise e
  \/ exists b, py_getitem value "balance" = Ok b
               /\ as_num b = None /\ e = TypeError.

(** A bank whose last record has no balance. *)
Definition broken_bank_host : Host :=
  example_host false [] [] (example_accounts ++ [(9%Z, VDict [])]) [] []
    example_votes.

(** A host seen at a moment when [bot.latency] is [x]. *)
Definition with_latency (x : pyfloat) (h : Host) : Host :=
  {| get_set_lightmode := get_set_lightmode h;
     get_set_detailed := get_set_detailed h;
     get_set_topgg := get_set_topgg h;
     guilds := guilds h;
     latency := x;
     shard_count := shard_count h;
     latencies := latencies h;
     bank_all_users := bank_all_users h;
     active_players := active_players h;
     all_players := all_players h;
     cog_MartTools := cog_MartTools h;
     cog_Adventure := cog_Adventure h;
     get_shared_api_tokens_dbl := get_shared_api_tokens_dbl h;
     user_id := user_id h;
     http_get := http_get h |}.

(** No shard is ready yet. *)
Definition starting_host : Host := with_latency NaN plain_host.

(** The categories each collector writes to. *)
Definition bot_data_categories : list string :=
  ["bot"; "guilds"; "guild_features"; "guild_verification"].

(** What the last loop of [write_audio_data] publishes for a counter
    value: a string is replaced by the int of its digits. *)
Definition audio_value (value : pyval) : result pyval :=
  match value with
  | VStr s => rbind (int_of_digits (strip_non_digits s)) (fun z => Ok (VInt z))
  | _ => Ok value
  end.

(** One of the member's activities is a stream. *)
Definition streams (member : Member) : bool :=
  existsb (fun a => bool_decide (a_type a = streaming)) (m_activities member).


(** Every presence label. *)
Definition status_labels : list string :=
  [ "Users Connected"; "Bots Connected"; "Humans Connected";
    "Users Online"; "Bots Online"; "Humans Online";
    "Idle Users"; "Idle Bots"; "Idle Humans";
    "Users in Do Not Disturb"; "Bots in Do Not Disturb";
    "Humans in Do Not Disturb";
    "Users Offline"; "Bots Offline"; "Human Offline" ].

(** The value an account record holds for a field of the adventure
    totals: [rebirths] and [set_items] are entries of the record, the other
    fields are entries of its [adventures] dict. *)
Definition account_field (v : list (string * pyval)) (field : string)
    : option pyval :=
  if bool_decide (field ∈ ["rebirths"; "set_items"]) then dict_get field v
  else match dict_get "adventures" v with
       | Some (VDict items) => dict_get field items
       | _ => None
       end.

(** What the account adds to the total of the field: 0 when the record
    does not have it. *)
Definition contribution (v : list (string * pyval)) (field : string) : Z :=
  match account_field v field with
  | Some (VInt z) => z
  | _ => 0%Z
  end.

Definition field_total (accounts : list (Z * list (string * pyval)))
    (field : string) : Z :=
  foldr (fun kv acc => (contribution kv.2 field + acc)%Z) 0%Z accounts.

(** An account record as the Adventure cog stores it: a dict (its keys are
    distinct) whose [adventures] entry, when present, is a dict that has no
    [rebirths] or [set_items] of its own, and whose values for the fields
    of the totals are ints. *)
Definition adventure_record (v : list (string * pyval)) : Prop :=
  NoDup v.*1
  /\ (forall vi, dict_get "adventures" v = Some vi ->
        exists items, vi = VDict items /\ NoDup items.*1
                      /\ ("rebirths" ∉ items.*1) /\ ("set_items" ∉ items.*1))
  /\ (forall field x, field ∈ adventure_labels.*2 ->
        account_field v field = Some x -> exists z, x = VInt z).

(** The [adventures] dict of a record when [write_adventure_data] merges
    it into the user's data: it has a key that is one of the known
    counters. *)
Definition merged_items (v : list (string * pyval)) : list (string * pyval) :=
  match dict_get "adventures" v with
  | Some (VDict items) =>
      if existsb (fun kv => dict_mem kv.1 adventures_default) items
      then items else []
  | _ => []
  end.

(** A counter all of whose values are ints, and the int it holds for a
    key (0 for a missing key, as [Counter] reads it). *)
Definition int_counter (c : list (string * pyval)) : Prop :=
  Forall (fun kv => exists z : Z, kv.2 = VInt z) c.

Definition counter_int (c : list (string * pyval)) (k : string) : Z :=
  match counter_get k c with
  | VInt z => z
  | _ => 0%Z
  end.

(** [u_data.get(field, 0)] as an int. *)
Definition field_int (u_data : list (string * pyval)) (field : string) : Z :=
  match default (VInt 0) (dict_get field u_data) with
  | VInt z => z
  | _ => 0%Z
  end.

(** An Adventure cog with two users: one with adventures only, one with
    rebirths only. *)
Definition example_adventure : Adventure :=
  {| adv_all_users :=
       Ok [ (1%Z, [("adventures",
                     VDict [("wins", VInt 1); ("loses", VInt 2)])]);
            (2%Z, [("rebirths", VInt 3)]) ] |}.

(** The labels of [counter] that a pass of [write_bot_data] sets before
    the loop over the guilds. *)
Definition early_labels : list string :=
  ["Monthly Votes"; "Votes"; "Discord Latency"; "Shards"].

(** A step of the tally that leaves the early labels of [counter] and the
    guild total of [server_counter] alone, and creates no set under any of
    them. *)
Definition early_step (t t' : tallies) : Prop :=
  (forall L, L ∈ early_labels ->
     dict_get L (counter t') = dict_get L (counter t))
  /\ (forall L, L ∈ early_labels ->
        L ∉ (temp_data t).*1 -> L ∉ (temp_data t').*1)
  /\ dict_get "Total" (server_counter t') = dict_get "Total" (server_counter t)
  /\ ("Total" ∉ (server_temp_data t).*1 -> "Total" ∉ (server_temp_data t').*1).

(** The vote labels a response body puts into [counter]: a count is
    written only when it is truthy. *)
Definition votes_counter (data : list (string * pyval))
    : list (string * pyval) :=
  let c := [] in
  let c := match dict_get "monthlyPoints" data with
           | Some v => if py_truthy v then dict_set "Monthly Votes" v c else c
           | None => c
           end in
  match dict_get "points" data with
  | Some v => if py_truthy v then dict_set "Votes" v c else c
  | None => c
  end.

(** * Reasoning about coroutines *)

Lemma bind_ok {A B} (m : M A) (k : A -> M B) w a w' :
  m w = (Ok a, w') -> bind m k w = k a w'.
Proof. intros H. unfold bind. by rewrite H. Qed.

Lemma bind_raise {A B} (m : M A) (k : A -> M B) w e w' :
  m w = (Raise e, w') -> bind m k w = (Raise e, w').
Proof. intros H. unfold bind. by rewrite H. Qed.

Lemma bind_inv_ok {A B} (m : M A) (k : A -> M B) w b w2 :
  bind m k w = (Ok b, w2) ->
  exists a w1, m w = (Ok a, w1) /\ k a w1 = (Ok b, w2).
Proof.
  unfold bind. destruct (m w) as [[a|e] w1]; [eauto | discriminate].
Qed.

(** ** The vote endpoint *)

Lemma get_votes_pure h w : (get_votes h w).2 = w.
Proof.
  unfold get_votes, bind, lift, try_except, ret, raise.
  destruct (get_shared_api_tokens_dbl h) as [tokens|e]; simpl; [|done].
  destruct (py_truthy _); simpl; [|done].
  destruct (http_get h _ _) as [e|status [body|e]]; simpl.
  - by destruct (is_timeout e).
  - by destruct (status =? 200)%Z.
  - destruct (status =? 200)%Z; simpl; [|done]. by destruct (is_timeout e).
Qed.

(** C3 (as the code has it).  With the API tokens read, [get_votes] returns
    an empty mapping when no API key is configured, when the response
    status is not 200, and when the request or the decoding of the body
    times out; it returns the decoded body on status 200; and any other
    exception of the request or of the decoding (a connection error, a
    body that is not JSON) is raised to the caller. *)
Theorem get_votes_cases h w tokens :
  get_shared_api_tokens_dbl h = Ok tokens ->
  let key := api_key tokens in
  let outcome := http_get h (user_id h) key in
  (py_truthy key = false -> (get_votes h w).1 = Ok (VDict [])) /\
  (py_truthy key = true ->
     (forall status json, outcome = HttpResponse status json ->
        status <> 200%Z -> (get_votes h w).1 = Ok (VDict [])) /\
     (forall e, outcome = HttpRaise e \/ outcome = HttpResponse 200 (Raise e) ->
        is_timeout e = true -> (get_votes h w).1 = Ok (VDict [])) /\
     (forall body, outcome = HttpResponse 200 (Ok body) ->
        (get_votes h w).1 = Ok body) /\
     (forall e, outcome = HttpRaise e \/ outcome = HttpResponse 200 (Raise e) ->
        is_timeout e = false -> (get_votes h w).1 = Raise e)).
Proof.
  intros Htok key outcome.
  unfold get_votes, bind, lift, try_except, ret, raise. rewrite Htok.
  fold (api_key tokens). fold key. fold outcome. split.
  - intros ->. done.
  - intros ->. simpl. repeat split.
    + intros status json -> Hst. simpl.
      destruct (Z.eqb_spec status 200); [done|]. done.
    + intros e [-> | ->] He; simpl; by rewrite He.
    + by intros body ->.
    + intros e [-> | ->] He; simpl; by rewrite He.
Qed.

(** ** Partial-correctness triples with a frame relation *)

Section SpecRules.
Context (R : relation world) `{!PreOrder R}.

Lemma spec_ret {A} (Q : A -> Prop) a : Q a -> spec R Q (ret a).
Proof. intros HQ w. split; [reflexivity|]. simpl. by intros ? [= <-]. Qed.

Lemma spec_raise {A} (Q : A -> Prop) e : spec R Q (raise e).
Proof. intros w. split; [reflexivity|]. done. Qed.

Lemma spec_lift {A} (Q : A -> Prop) (r : result A) :
  (forall a, r = Ok a -> Q a) -> spec R Q (lift r).
Proof. intros HQ w. split; [reflexivity|]. exact HQ. Qed.

Lemma spec_weaken {A} (Q Q' : A -> Prop) m :
  spec R Q m -> (forall a, Q a -> Q' a) -> spec R Q' m.
Proof. intros Hm HQ w. destruct (Hm w) as [HR Ha]. split; eauto. Qed.

Lemma spec_bind {A B} (Q : A -> Prop) (Q' : B -> Prop) m (k : A -> M B) :
  spec R Q m -> (forall a, Q a -> spec R Q' (k a)) -> spec R Q' (bind m k).
Proof.
  intros Hm Hk w. destruct (Hm w) as [HR Ha]. unfold bind.
  destruct (m w) as [[a|e] w1]; simpl in *; [|done].
  destruct (Hk a (Ha a eq_refl) w1) as [HR1 Hb].
  split; [by etrans|done].
Qed.

Lemma spec_try_except {A} (Q : A -> Prop) body handler :
  spec R Q body -> (forall e, spec R Q (handler e)) ->
  spec R Q (try_except body handler).
Proof.
  intros Hb Hh w. destruct (Hb w) as [HR Ha]. unfold try_except.
  destruct (body w) as [[a|e] w1]; simpl in *; [done|].
  destruct (Hh e w1) as [HR1 Hb1]. split; [by etrans|done].
Qed.

Lemma spec_for_each {A St} (I : St -> Prop) (l : list A) body acc :
  I acc ->
  (forall x a, x ∈ l -> I a -> spec R I (body x a)) ->
  spec R I (for_each l body acc).
Proof.
  revert acc. induction l as [|x l IH]; intros acc HI Hbody; simpl.
  - by apply spec_ret.
  - eapply spec_bind.
    + apply Hbody; [left|done].
    + intros a Ha. apply IH; [done|]. intros y b Hy. apply Hbody. by right.
Qed.

Lemma spec_async_iter_from {A St} (I : St -> Prop) delay steps i
    (l : list A) body acc :
  spec R (fun _ => True) (sleep delay) ->
  I acc ->
  (forall x a, x ∈ l -> I a -> spec R I (body x a)) ->
  spec R I (async_iter_from delay steps i l body acc).
Proof.
  intros Hsleep. revert i acc.
  induction l as [|x l IH]; intros i acc HI Hbody; simpl.
  - by apply spec_ret.
  - eapply spec_bind with (Q := fun _ => True).
    { destruct (i =? steps)%nat; [done|by apply spec_ret]. }
    intros _ _. eapply spec_bind.
    + apply Hbody; [left|done].
    + intros a Ha. apply IH; [done|]. intros y b Hy. apply Hbody. by right.
Qed.

Lemma spec_async_for {A St} (I : St -> Prop) (l : list A) steps delay body acc :
  spec R (fun _ => True) (sleep delay) ->
  I acc ->
  (forall x a, x ∈ l -> I a -> spec R I (body x a)) ->
  spec R I (async_for l steps delay body acc).
Proof.
  intros. unfold async_for. destruct (steps <? 1)%nat.
  - apply spec_raise.
  - by apply spec_async_iter_from.
Qed.

Lemma spec_gather (tasks : list (M unit)) :
  Forall (spec R (fun _ => True)) tasks ->
  spec R (fun _ => True) (gather_return_exceptions tasks).
Proof.
  induction 1 as [|task rest Ht _ IH]; simpl.
  - by apply spec_ret.
  - intros w. destruct (Ht w) as [HR _].
    destruct (task w) as [r w1]; simpl in *.
    destruct (IH w1) as [HR1 _].
    destruct (gather_return_exceptions rest w1) as [[rs|e] w2]; simpl in *;
      (split; [by etrans|done]).
Qed.

Lemma spec_get_bot : spec R (fun _ => True) get_bot.
Proof. intros w. split; [reflexivity|done]. Qed.

Lemma spec_getattr_stats cat : spec R (fun _ => True) (getattr_stats cat).
Proof.
  intros w. unfold getattr_stats, bind, get_bot, raise, ret.
  destruct (stats (bot w)) as [st|]; simpl; [|split; [reflexivity|done]].
  destruct (cats st !! cat); simpl; (split; [reflexivity|done]).
Qed.

Lemma spec_getattr_ns cat key : spec R (fun _ => True) (getattr_ns cat key).
Proof.
  intros w. unfold getattr_ns, getattr_stats, bind, get_bot, raise, ret.
  destruct (stats (bot w)) as [st|]; simpl; [|split; [reflexivity|done]].
  destruct (cats st !! cat) as [ns|]; simpl; [|split; [reflexivity|done]].
  destruct (ns_dict ns !! key); simpl; (split; [reflexivity|done]).
Qed.
End SpecRules.

(** A value-only triple: what a returned value satisfies, whatever the
    world. *)
Lemma spec_total_frame {A} (Q : A -> Prop) (m : M A) :
  spec (fun _ _ => True) Q m <-> forall w a, (m w).1 = Ok a -> Q a.
Proof. split; [intros H w; apply H | intros H w; split; [done|apply H]]. Qed.

(** ** Initialisation *)

Lemma init_category_present w st ns cat :
  stats (bot w) = Some st -> cats st !! cat = Some ns ->
  init_category cat w = (Ok tt, w).
Proof.
  intros Hst Hns. unfold init_category, bind, get_bot, ret.
  by rewrite Hst, Hns.
Qed.

Lemma init_categories_present (l : list string) w :
  forallb (has_category w) l = true ->
  for_each l (fun stat_obj _ => init_category stat_obj) tt w = (Ok tt, w).
Proof.
  induction l as [|cat l IH]; simpl; [done|].
  intros [Hc Hl]%andb_prop. unfold has_category in Hc.
  destruct (stats (bot w)) as [st|] eqn:Hst; [|done].
  apply bool_decide_eq_true in Hc as [ns Hns].
  erewrite bind_ok by (by eapply init_category_present). by apply IH.
Qed.

Lemma world_eta w :
  {| bot := bot w; next_obj := next_obj w; trace := trace w |} = w.
Proof. by destruct w. Qed.

Lemma red_eta b :
  {| stats := stats b; _stats_task := _stats_task b;
     _stats_ready := _stats_ready b |} = b.
Proof. by destruct b. Qed.

(** C10.  On a bot object that already has every attribute
    [init_bot_stats] provides (in particular on the bot as a first call
    left it, with whatever counters have been written since), another call
    returns normally and changes nothing: the same category namespaces with
    the same contents, the same [to_dict], task handle and ready event, no
    object allocated and nothing logged. *)
Theorem init_bot_stats_idempotent w :
  initialised w = true -> init_bot_stats w = (Ok tt, w).
Proof.
  unfold initialised. intros [[[Hcats Htd]%andb_prop Htask]%andb_prop Hev]%andb_prop.
  destruct (stats (bot w)) as [st|] eqn:Hst; [|done].
  apply bool_decide_eq_true in Htd as [td Htd], Htask as [task Htask],
    Hev as [ev Hev].
  unfold init_bot_stats.
  rewrite (bind_ok _ _ w (bot w) w) by done. rewrite Hst.
  rewrite (bind_ok _ _ w tt w) by done.
  rewrite (bind_ok _ _ w tt w) by (by apply init_categories_present).
  rewrite (bind_ok _ _ w (bot w) w) by done. rewrite Hst, Htd.
  rewrite (bind_ok _ _ w tt w) by done.
  rewrite (bind_ok _ _ w (bot w) w) by done. rewrite Htask.
  rewrite (bind_ok _ _ w tt w) by done.
  rewrite (bind_ok _ _ w (bot w) w) by done. by rewrite Hev.
Qed.

(** The first call establishes what the second one relies on. *)
Lemma init_categories_spec (l : list string) w :
  is_Some (stats (bot w)) ->
  exists w',
    for_each l (fun stat_obj _ => init_category stat_obj) tt w = (Ok tt, w')
    /\ forallb (has_category w') l = true
    /\ (forall cat, has_category w cat = true -> has_category w' cat = true)
    /\ (forall st, stats (bot w) = Some st ->
          exists st', stats (bot w') = Some st' /\ to_dict st' = to_dict st
                      /\ stats_id st' = stats_id st
                      /\ forall cat ns, cats st !! cat = Some ns ->
                                        cats st' !! cat = Some ns)
    /\ _stats_task (bot w') = _stats_task (bot w)
    /\ _stats_ready (bot w') = _stats_ready (bot w)
    /\ trace w' = trace w.
Proof.
  revert w. induction l as [|cat l IH]; intros w [st Hst]; simpl.
  - exists w. split_and!; eauto.
  - unfold init_category at 1. unfold bind at 1 2. unfold get_bot at 1.
    rewrite Hst.
    destruct (cats st !! cat) as [ns|] eqn:Hns; simpl.
    + destruct (IH w) as (w' & Hrun & Hall & Hmono & Hkeep & Ht & He & Htr);
        [by eauto|].
      exists w'. rewrite Hrun. split_and!; try done.
      * apply andb_true_intro. split; [|done]. apply Hmono.
        unfold has_category. rewrite Hst. apply bool_decide_eq_true. by eauto.
      * intros st0 [= <-]. by apply Hkeep.
    + set (w1 := {| bot := _; next_obj := _; trace := _ |}).
      destruct (IH w1) as (w' & Hrun & Hall & Hmono & Hkeep & Ht & He & Htr);
        [by eauto|].
      exists w'. rewrite Hrun. split_and!; try done.
      * apply andb_true_intro. split; [|done]. apply Hmono.
        unfold has_category. simpl. apply bool_decide_eq_true.
        rewrite lookup_insert_eq. by eauto.
      * intros c Hc. apply Hmono. unfold has_category in *. simpl.
        rewrite Hst in Hc. apply bool_decide_eq_true.
        apply bool_decide_eq_true in Hc as [ns' Hc].
        destruct (decide (cat = c)) as [->|Hne]; [congruence|].
        rewrite lookup_insert_ne by done. by eauto.
      * intros st0 [= <-].
        destruct (Hkeep _ eq_refl) as (st' & Hst' & Htd & Hid & Hc).
        exists st'. split_and!; try done.
        intros c ns' Hc'. apply Hc. simpl.
        destruct (decide (cat = c)) as [->|Hne]; [congruence|].
        by rewrite lookup_insert_ne.
Qed.

Lemma initialised_intro w st :
  forallb (has_category w) bot_stats = true ->
  stats (bot w) = Some st -> is_Some (to_dict st) ->
  is_Some (_stats_task (bot w)) -> is_Some (_stats_ready (bot w)) ->
  initialised w = true.
Proof.
  intros Hall Hst Htd Ht He. unfold initialised. rewrite Hall, Hst.
  by rewrite !bool_decide_eq_true_2.
Qed.

Lemma init_bot_stats_initialised w :
  (init_bot_stats w).1 = Ok tt /\ initialised (init_bot_stats w).2 = true.
Proof.
  unfold init_bot_stats.
  rewrite (bind_ok _ _ w (bot w) w) by done.
  set (first := match stats (bot w) with Some _ => _ | None => _ end).
  assert (exists w1, first w = (Ok tt, w1) /\ is_Some (stats (bot w1))
                     /\ _stats_task (bot w1) = _stats_task (bot w)
                     /\ _stats_ready (bot w1) = _stats_ready (bot w))
    as (w1 & Hfirst & Hst1 & Ht1 & He1).
  { subst first. destruct (stats (bot w)) as [st|] eqn:Hst.
    - exists w. rewrite Hst. eauto.
    - eexists. split; [reflexivity|]. simpl. eauto. }
  rewrite (bind_ok _ _ w tt w1) by done.
  destruct (init_categories_spec bot_stats w1 Hst1)
    as (w2 & Hrun & Hall & Hmono & Hkeep & Ht2 & He2 & Htr2).
  rewrite (bind_ok _ _ w1 tt w2) by done.
  rewrite (bind_ok _ _ w2 (bot w2) w2) by done.
  destruct Hst1 as [st1 Hst1].
  destruct (Hkeep _ Hst1) as (st2 & Hst2 & _).
  rewrite Hst2.
  set (third := match to_dict st2 with Some _ => _ | None => _ end).
  assert (exists w3 st3, third w2 = (Ok tt, w3) /\ stats (bot w3) = Some st3
                     /\ cats st3 = cats st2 /\ is_Some (to_dict st3)
                     /\ _stats_task (bot w3) = _stats_task (bot w2)
                     /\ _stats_ready (bot w3) = _stats_ready (bot w2))
    as (w3 & st3 & Hthird & Hst3 & Hc3 & Htd3 & Ht3 & He3).
  { subst third. destruct (to_dict st2) as [td|] eqn:Htd.
    - exists w2, st2. rewrite Htd. eauto 10.
    - eexists _, _. split; [reflexivity|]. simpl. eauto 10. }
  rewrite (bind_ok _ _ w2 tt w3) by done.
  rewrite (bind_ok _ _ w3 (bot w3) w3) by done.
  set (fourth := match _stats_task (bot w3) with Some _ => _ | None => _ end).
  assert (exists w4, fourth w3 = (Ok tt, w4) /\ stats (bot w4) = Some st3
                     /\ is_Some (_stats_task (bot w4))
                     /\ _stats_ready (bot w4) = _stats_ready (bot w3))
    as (w4 & Hfourth & Hst4 & Ht4 & He4).
  { subst fourth. destruct (_stats_task (bot w3)) as [t|] eqn:Ht.
    - exists w3. rewrite Ht. eauto.
    - eexists. split; [reflexivity|]. simpl. eauto. }
  rewrite (bind_ok _ _ w3 tt w4) by done.
  rewrite (bind_ok _ _ w4 (bot w4) w4) by done.
  assert (forallb (has_category w4) bot_stats = true) as Hall4.
  { rewrite forallb_forall in *. intros c Hc. specialize (Hall c Hc).
    unfold has_category in *. rewrite Hst4. rewrite Hst2 in Hall.
    by rewrite Hc3. }
  destruct (_stats_ready (bot w4)) as [ev|] eqn:Hev.
  - split; [done|]. eapply initialised_intro; eauto.
  - split; [done|]. cbn [snd fst bind alloc put_bot].
    eapply initialised_intro; cbn [bot stats _stats_task _stats_ready]; eauto.
Qed.

(** ** Frames that every collector respects *)

(** Decompose a coroutine along its syntax, keeping only the frame. *)
Ltac frame_step :=
  lazymatch goal with
  | |- spec _ _ (ret _) => apply spec_ret; [typeclasses eauto | exact I]
  | |- spec _ _ (raise _) => apply spec_raise; typeclasses eauto
  | |- spec _ _ (lift _) => apply spec_lift; [typeclasses eauto | intros; exact I]
  | |- spec _ _ (bind _ _) =>
      eapply spec_bind with (Q := fun _ => True);
      [typeclasses eauto | | intros ? _]
  | |- spec _ _ (try_except _ _) =>
      apply spec_try_except; [typeclasses eauto | | intros ?]
  | |- spec _ _ (for_each _ _ _) =>
      apply spec_for_each; [typeclasses eauto | exact I | intros ? ? _ _]
  | |- spec _ _ (async_for _ _ _ _ _) =>
      apply spec_async_for; [typeclasses eauto | | exact I | intros ? ? _ _]
  | |- spec _ _ (gather_return_exceptions _) =>
      apply spec_gather; [typeclasses eauto | repeat constructor]
  | |- spec _ _ get_bot => apply spec_get_bot; typeclasses eauto
  | |- spec _ _ (getattr_stats _) => apply spec_getattr_stats; typeclasses eauto
  | |- spec _ _ (getattr_ns _ _) => apply spec_getattr_ns; typeclasses eauto
  | |- spec _ _ (if ?b then _ else _) => destruct b
  | |- spec _ _ (match ?x with _ => _ end) => destruct x
  | |- spec _ _ (match ?x with _ => _ end _) => destruct x
  | |- spec _ _ ((fun _ => _) _) => cbv beta
  | |- spec _ _ ((fun _ => _) _ _) => cbv beta
  end.

Section CollectorFrames.
Context (R : relation world) `{!PreOrder R}.
Hypothesis R_emit_sleep : forall d, frames R (sleep d).
Hypothesis R_emit_log : forall msg e, frames R (log_exception msg e).
Hypothesis R_setattr : forall cat key v, frames R (setattr_ns cat key v).

Ltac frame_auto :=
  repeat first
    [ apply R_emit_sleep | apply R_emit_log | apply R_setattr | frame_step ].

Lemma frames_publish_counter cat counter :
  frames R (publish_counter cat counter).
Proof. unfold publish_counter. frame_auto. Qed.

Lemma frames_write_shards_data h : frames R (write_shards_data h).
Proof. unfold write_shards_data. frame_auto. Qed.

Lemma frames_write_currency_data_steps steps h :
  frames R (write_currency_data_steps steps h).
Proof.
  unfold write_currency_data_steps. frame_auto.
  apply frames_publish_counter.
Qed.

Lemma frames_get_votes h : frames R (get_votes h).
Proof. intros w. rewrite get_votes_pure. split; [reflexivity|done]. Qed.

Lemma frames_write_audio_data h : frames R (write_audio_data h).
Proof.
  unfold write_audio_data, audio_pass, publish_audio_counter. frame_auto.
Qed.

Lemma frames_write_adventure_data h : frames R (write_adventure_data h).
Proof.
  unfold write_adventure_data, adventure_pass, flatten_accounts,
    tally_accounts, publish_adventure.
  frame_auto; apply frames_publish_counter.
Qed.

Lemma frames_tally_member detailed member t :
  frames R (tally_member detailed member t).
Proof. unfold tally_member, tally_activity. frame_auto. Qed.

Lemma frames_tally_guild lightmode detailed guild t :
  frames R (tally_guild lightmode detailed guild t).
Proof.
  unfold tally_guild. frame_auto; apply frames_tally_member.
Qed.

Lemma frames_collect_bot_data h lightmode detailed topgg :
  frames R (collect_bot_data h lightmode detailed topgg).
Proof.
  unfold collect_bot_data, tally_votes.
  frame_auto; first [apply frames_get_votes | apply frames_tally_guild].
Qed.

Lemma frames_write_bot_data h : frames R (write_bot_data h).
Proof.
  unfold write_bot_data, bot_data_pass.
  frame_auto;
    first [apply frames_collect_bot_data | apply frames_publish_counter].
Qed.

Lemma frames_run_events h : frames R (run_events h).
Proof.
  unfold run_events, write_currency_data. frame_auto.
  - apply frames_write_bot_data.
  - apply frames_write_currency_data_steps.
  - apply frames_write_shards_data.
  - apply frames_write_audio_data.
  - apply frames_write_adventure_data.
Qed.
End CollectorFrames.

(** ** The scheduler *)

#[global] Instance ready_frame_preorder : PreOrder ready_frame.
Proof.
  split.
  - by intros w.
  - intros w1 w2 w3 [H1 H2] [H3 H4]. split; congruence.
Qed.

Lemma ready_set_calls_emit ev w :
  ready_set_calls (emit ev w).2
  = (ready_set_calls w + if is_ready_set ev then 1 else 0)%nat.
Proof.
  unfold ready_set_calls, emit. simpl. rewrite List.filter_app, length_app.
  simpl. by destruct (is_ready_set ev).
Qed.

Lemma ready_frame_sleep d : frames ready_frame (sleep d).
Proof.
  intros w. split; [|done]. split; [done|].
  unfold sleep. rewrite ready_set_calls_emit. simpl. lia.
Qed.

Lemma ready_frame_log msg e : frames ready_frame (log_exception msg e).
Proof.
  intros w. split; [|done]. split; [done|].
  unfold log_exception. rewrite ready_set_calls_emit. simpl. lia.
Qed.

Lemma ready_frame_setattr cat key v : frames ready_frame (setattr_ns cat key v).
Proof.
  intros w. split; [|done].
  unfold setattr_ns, bind, get_bot, put_bot, raise.
  destruct (stats (bot w)) as [st|]; simpl; [|done].
  by destruct (cats st !! cat).
Qed.

Lemma run_events_ready_frame h : frames ready_frame (run_events h).
Proof.
  apply frames_run_events; first [typeclasses eauto | apply ready_frame_sleep
    | apply ready_frame_log | apply ready_frame_setattr].
Qed.

(** The gather never raises, so neither does [run_events]. *)
Lemma gather_return_exceptions_ok tasks w :
  exists rs, (gather_return_exceptions tasks w).1 = Ok rs.
Proof.
  revert w. induction tasks as [|task rest IH]; intros w; simpl; [by eauto|].
  destruct (task w) as [r w1]. destruct (IH w1) as [rs Hrs].
  destruct (gather_return_exceptions rest w1) as [[rs'|e] w2]; simpl in *;
    [by eauto|done].
Qed.

Lemma run_events_ok h w : (run_events h w).1 = Ok tt.
Proof.
  unfold run_events, bind.
  destruct (gather_return_exceptions_ok
              [write_bot_data h; write_currency_data h; write_shards_data h;
               write_audio_data h; write_adventure_data h] w) as [rs Hrs].
  destruct (gather_return_exceptions _ w) as [[rs'|e] w1]; simpl in *; done.
Qed.

(** One turn of the loop, when the ready event exists. *)
Lemma update_cycle_ready events w ev :
  frames ready_frame events ->
  _stats_ready (bot w) = Some ev ->
  let completed := is_ok (events w).1 in
  let w' := (update_cycle events w).2 in
  (update_cycle events w).1 = Ok tt
  /\ is_Some (_stats_ready (bot w'))
  /\ stats_ready_flag w' = ev_flag ev || completed
  /\ ready_set_calls w'
     = (ready_set_calls w + if negb (ev_flag ev) && completed then 1 else 0)%nat.
Proof.
  intros Hframe Hev. destruct (Hframe w) as [[Hsame Hcalls] _].
  rewrite Hev in Hsame.
  unfold update_cycle, stats_ready_is_set, stats_ready_set, sleep,
    log_exception, bind, get_bot, put_bot, emit, ret, raise, stats_ready_flag,
    ready_set_calls in *.
  destruct (events w) as [[[]|e] w1]; cbn [fst snd bot trace is_ok] in *.
  - rewrite Hsame. cbn [fst snd bot trace is_ok negb].
    destruct (ev_flag ev) eqn:Hflag; cbn [fst snd bot trace negb _stats_ready].
    + rewrite Hsame, Hflag. split_and!; eauto.
      rewrite List.filter_app, length_app. simpl. lia.
    + rewrite Hsame. cbn [fst snd bot trace negb _stats_ready ev_flag].
      split_and!; eauto.
      rewrite !List.filter_app, !length_app. simpl. lia.
  - rewrite Hsame. split_and!; eauto; [by rewrite orb_false_r|].
    rewrite !List.filter_app, !length_app. simpl.
    rewrite andb_false_r. lia.
Qed.

Lemma update_loop_ready cycles : forall w ev,
  Forall (fun events => frames ready_frame events) cycles ->
  _stats_ready (bot w) = Some ev ->
  let completed := existsb id (cycle_outcomes cycles w) in
  let w' := (update_loop cycles w).2 in
  (update_loop cycles w).1 = Ok tt
  /\ stats_ready_flag w' = ev_flag ev || completed
  /\ ready_set_calls w'
     = (ready_set_calls w + if negb (ev_flag ev) && completed then 1 else 0)%nat.
Proof.
  induction cycles as [|events rest IH]; intros w ev Hall Hev; simpl.
  - unfold stats_ready_flag. rewrite Hev, orb_false_r, andb_false_r.
    split_and!; [done|done|lia].
  - inversion Hall as [|? ? Hframe Hrest]; subst.
    destruct (update_cycle_ready events w ev Hframe Hev)
      as (Hok & [ev1 Hev1] & Hflag & Hcalls).
    unfold update_loop. simpl. unfold bind.
    destruct (update_cycle events w) as [[[]|e] w1] eqn:Hcycle; simpl in *;
      [|done].
    destruct (IH w1 ev1 Hrest Hev1) as (Hok' & Hflag' & Hcalls').
    unfold update_loop in *. split_and!; [done| |].
    + rewrite Hflag'. unfold stats_ready_flag in Hflag. rewrite Hev1 in Hflag.
      rewrite Hflag. unfold id at 1. by rewrite orb_assoc.
    + rewrite Hcalls', Hcalls.
      unfold stats_ready_flag in Hflag. rewrite Hev1 in Hflag. rewrite Hflag.
      unfold id.
      destruct (ev_flag ev), (is_ok (events w).1),
        (existsb (fun x => x) (cycle_outcomes rest w1)); simpl; lia.
Qed.



(** With [run_events] in the [try], every cycle completes, so the event is
    set by the first cycle. *)
Lemma update_task_sets_ready_in_first_cycle h hosts w ev :
  _stats_ready (bot w) = Some ev -> ev_flag ev = false ->
  let w' := (update_task (h :: hosts) w).2 in
  stats_ready_flag (update_cycle (run_events h) w).2 = true
  /\ stats_ready_flag w' = true
  /\ ready_set_calls w' = S (ready_set_calls w).
Proof.
  intros Hev Hflag.
  assert (Forall (fun events => frames ready_frame events)
            (map run_events (h :: hosts))) as Hall.
  { apply Forall_map, Forall_forall. intros h' _.
    apply run_events_ready_frame. }
  destruct (update_loop_ready _ w ev Hall Hev) as (_ & Hf & Hc).
  destruct (update_cycle_ready (run_events h) w ev
              (run_events_ready_frame h) Hev) as (_ & _ & Hf1 & _).
  simpl in *. rewrite run_events_ok in *. simpl in *.
  rewrite Hflag in *. simpl in *. unfold update_task. simpl.
  split_and!; [by rewrite Hf1 | done | lia].
Qed.

(** ** Writing to the store *)

Lemma setattr_ns_ok w cat key v :
  has_category w cat = true -> (setattr_ns cat key v w).1 = Ok tt.
Proof.
  unfold has_category, setattr_ns, bind, get_bot, put_bot, raise.
  destruct (stats (bot w)) as [st|]; [|done].
  intros [ns Hns]%bool_decide_eq_true. by rewrite Hns.
Qed.

Lemma setattr_ns_raises w cat key v :
  has_category w cat = false ->
  setattr_ns cat key v w = (Raise AttributeError, w).
Proof.
  unfold has_category, setattr_ns, bind, get_bot, put_bot, raise.
  destruct (stats (bot w)) as [st|]; [|done].
  intros Hns%bool_decide_eq_false.
  destruct (cats st !! cat) eqn:E; [|done]. destruct Hns. by eauto.
Qed.

Lemma published_setattr_ns w cat key v cat' key' :
  published (setattr_ns cat key v w).2 cat' key'
  = if has_category w cat && bool_decide (cat = cat' /\ key = key')
    then Some v else published w cat' key'.
Proof.
  destruct (has_category w cat) eqn:Hcat; simpl.
  - unfold has_category in Hcat.
    unfold setattr_ns, bind, get_bot, put_bot, raise, published.
    destruct (stats (bot w)) as [st|] eqn:Hst; [|done].
    apply bool_decide_eq_true in Hcat as [ns Hns]. rewrite Hns. simpl.
    case_bool_decide as Heq.
    + destruct Heq as [<- <-]. rewrite lookup_insert_eq. simpl.
      by rewrite lookup_insert_eq.
    + simpl. destruct (decide (cat = cat')) as [<-|Hne].
      * rewrite lookup_insert_eq, Hns. simpl.
        rewrite lookup_insert_ne; [done|]. intros ->. by apply Heq.
      * by rewrite lookup_insert_ne.
  - by rewrite setattr_ns_raises.
Qed.

Lemma has_category_setattr_ns w cat key v c :
  has_category (setattr_ns cat key v w).2 c = has_category w c.
Proof.
  unfold has_category, setattr_ns, bind, get_bot, put_bot, raise.
  destruct (stats (bot w)) as [st|] eqn:Hst; simpl; [|by rewrite Hst].
  destruct (cats st !! cat) as [ns|] eqn:Hns; simpl; [|by rewrite Hst].
  destruct (decide (cat = c)) as [<-|Hne].
  - rewrite lookup_insert_eq, Hns. by rewrite !bool_decide_eq_true_2 by eauto.
  - by rewrite lookup_insert_ne.
Qed.

Lemma trace_setattr_ns w cat key v :
  trace (setattr_ns cat key v w).2 = trace w.
Proof.
  unfold setattr_ns, bind, get_bot, put_bot, raise.
  destruct (stats (bot w)) as [st|]; simpl; [|done].
  by destruct (cats st !! cat).
Qed.

(** ** The currency collector *)

Lemma sum_balances_cons kv accounts :
  sum_balances (kv :: accounts)
  = (account_balance kv.2 + sum_balances accounts)%Z.
Proof. done. Qed.

(** The loop adds every balance to the running total, whatever the batch
    size; only the trace records where it paused. *)
Lemma currency_loop steps accounts : forall i acc w,
  Forall (fun kv => balance_record kv.2) accounts ->
  exists w',
    async_iter_from 0 steps i accounts
      (fun '(key, value) overall =>
         balance <- lift (py_getitem value "balance") ;;
         lift (py_add overall balance))
      (VInt acc) w
    = (Ok (VInt (acc + sum_balances accounts)), w')
    /\ bot w' = bot w.
Proof.
  induction accounts as [|[key value] accounts IH]; intros i acc w Hall.
  - exists w. simpl. unfold ret. by rewrite Z.add_0_r.
  - inversion Hall as [|? ? [b Hb] Hrest]; subst. cbn [snd] in Hb.
    rewrite sum_balances_cons. unfold account_balance at 1. cbn [snd].
    rewrite Hb. cbn [async_iter_from].
    set (w1 := ((if (i =? steps)%nat then sleep 0 else ret tt) w).2).
    assert ((if (i =? steps)%nat then sleep 0 else ret tt) w = (Ok tt, w1)
            /\ bot w1 = bot w) as [Hpause Hbot1].
    { subst w1. by destruct (i =? steps)%nat. }
    erewrite bind_ok by exact Hpause.
    destruct (IH (if (i =? steps)%nat then 1 else S i)%nat (acc + b)%Z w1 Hrest)
      as (w' & Hloop & Hbot).
    exists w'. erewrite bind_ok; last first.
    { unfold bind, lift. rewrite Hb. simpl. reflexivity. }
    rewrite Hloop. split; [|congruence]. do 3 f_equal. lia.
Qed.

(** C6.  For every collection of user balance records and every positive
    batch size of the yielding iteration, the currency collector returns
    normally and the label "Currency In Circulation" of the currency
    category holds the arithmetic sum of all balances. *)
Theorem currency_in_circulation_is_sum steps h w accounts :
  (1 <= steps)%nat ->
  bank_all_users h = Ok accounts ->
  Forall (fun kv => balance_record kv.2) accounts ->
  has_category w "currency" = true ->
  (write_currency_data_steps steps h w).1 = Ok tt
  /\ published (write_currency_data_steps steps h w).2
       "currency" "Currency In Circulation"
     = Some (VInt (sum_balances accounts)).
Proof.
  intros Hsteps Hbank Hall Hcat.
  unfold write_currency_data_steps.
  erewrite bind_ok by (unfold lift; rewrite Hbank; reflexivity).
  unfold async_for. destruct (Nat.ltb_spec steps 1) as [?|_]; [lia|].
  destruct (currency_loop steps accounts 0%nat 0%Z w Hall) as (w' & Hloop & Hbot).
  erewrite bind_ok by exact Hloop.
  assert (has_category w' "currency" = true) as Hcat'.
  { unfold has_category in *. by rewrite Hbot. }
  unfold publish_counter. cbn [dict_set for_each]. unfold bind, ret.
  pose proof (setattr_ns_ok w' "currency" "Currency In Circulation"
                (VInt (sum_balances accounts)) Hcat') as Hok.
  pose proof (published_setattr_ns w' "currency" "Currency In Circulation"
                (VInt (sum_balances accounts)) "currency"
                "Currency In Circulation") as Hpub.
  rewrite Hcat' in Hpub. rewrite bool_decide_eq_true_2 in Hpub by done.
  destruct (setattr_ns _ _ _ w') as [[[]|e] w'']; simpl in *; done.
Qed.

(** ** Dictionaries in insertion order *)

Section DictFacts.
Context {K V : Type} `{EqDecision K}.
Implicit Types (d : list (K * V)) (k : K) (v : V).

Lemma dict_get_set_eq k v d : dict_get k (dict_set k v d) = Some v.
Proof.
  induction d as [|[k' v'] d IH]; simpl.
  - by rewrite decide_True.
  - destruct (decide (k = k')) as [->|Hne]; simpl.
    + by rewrite decide_True.
    + by rewrite decide_False.
Qed.

Lemma dict_get_set_ne k k' v d :
  k <> k' -> dict_get k' (dict_set k v d) = dict_get k' d.
Proof.
  intros Hne. induction d as [|[k0 v0] d IH]; simpl.
  - by rewrite decide_False.
  - destruct (decide (k = k0)) as [->|Hne0]; simpl.
    + by rewrite !decide_False by done.
    + destruct (decide (k' = k0)); [done|apply IH].
Qed.

Lemma dict_get_set k k' v d :
  dict_get k' (dict_set k v d)
  = if decide (k = k') then Some v else dict_get k' d.
Proof.
  destruct (decide (k = k')) as [->|Hne].
  - apply dict_get_set_eq.
  - by apply dict_get_set_ne.
Qed.

Lemma dict_get_None k d : dict_get k d = None <-> k ∉ d.*1.
Proof.
  induction d as [|[k' v'] d IH]; simpl.
  - split; [intros _; apply not_elem_of_nil | done].
  - rewrite not_elem_of_cons. destruct (decide (k = k')) as [->|Hne].
    + split; [done | by intros [? _]].
    + rewrite IH. tauto.
Qed.

Lemma dict_get_Some_elem k v d : dict_get k d = Some v -> (k, v) ∈ d.
Proof.
  induction d as [|[k' v'] d IH]; simpl; [done|].
  destruct (decide (k = k')) as [->|Hne].
  - intros [= ->]. left.
  - intros. right. auto.
Qed.

Lemma dict_set_keys k v d k' :
  k' ∈ (dict_set k v d).*1 -> k' = k \/ k' ∈ d.*1.
Proof.
  induction d as [|[k0 v0] d IH]; simpl.
  - intros ->%list_elem_of_singleton. by left.
  - destruct (decide (k = k0)) as [->|Hne]; simpl.
    + rewrite !elem_of_cons. tauto.
    + rewrite !elem_of_cons. intros [->|Hin]; [tauto|].
      destruct (IH Hin); tauto.
Qed.

Lemma dict_set_keys_mono k v d k' :
  k' ∈ d.*1 -> k' ∈ (dict_set k v d).*1.
Proof.
  induction d as [|[k0 v0] d IH]; simpl.
  - by intros ?%elem_of_nil.
  - destruct (decide (k = k0)) as [->|Hne]; simpl.
    + rewrite !elem_of_cons. tauto.
    + rewrite !elem_of_cons. intros [->|Hin]; [tauto|]. right. auto.
Qed.

Lemma dict_set_app_notin k v d1 d2 :
  k ∉ d1.*1 -> dict_set k v (d1 ++ d2) = d1 ++ dict_set k v d2.
Proof.
  induction d1 as [|[k' v'] d1 IH]; simpl; [done|].
  rewrite not_elem_of_cons. intros [Hne Hnot].
  rewrite decide_False by done. by rewrite IH.
Qed.

Lemma dict_update_cons d kv upd :
  dict_update d (kv :: upd) = dict_update (dict_set kv.1 kv.2 d) upd.
Proof. done. Qed.
End DictFacts.

(** ** Loops without suspension points *)

Lemma rfor_each_inv {A St} (I : St -> Prop) (l : list A) body acc acc' :
  I acc ->
  (forall x a a', x ∈ l -> I a -> body x a = Ok a' -> I a') ->
  rfor_each l body acc = Ok acc' -> I acc'.
Proof.
  revert acc. induction l as [|x l IH]; intros acc HI Hbody; simpl.
  - by intros [= <-].
  - destruct (body x acc) as [a|e] eqn:Hx; simpl; [|done].
    apply IH.
    + eapply Hbody; [left|done|done].
    + intros y b b' Hy. apply Hbody. by right.
Qed.

Lemma for_each_app {A St} (l1 l2 : list A) (body : A -> St -> M St) acc w :
  for_each (l1 ++ l2) body acc w
  = bind (for_each l1 body acc) (for_each l2 body) w.
Proof.
  revert acc w. induction l1 as [|x l1 IH]; intros acc w; simpl; [done|].
  unfold bind at 1. unfold bind at 2.
  destruct (body x acc w) as [[a|e] w1] eqn:Hx.
  - rewrite IH. unfold bind. by rewrite Hx.
  - unfold bind. by rewrite Hx.
Qed.

(** ** A label that a coroutine does not write *)

#[global] Instance keeps_preorder cat key : PreOrder (keeps cat key).
Proof.
  split.
  - by intros w.
  - intros w1 w2 w3 H12 H23. unfold keeps in *. congruence.
Qed.

Lemma keeps_emit cat key ev : frames (keeps cat key) (emit ev).
Proof. intros w. by split. Qed.

Lemma keeps_setattr_ns cat key cat' key' v :
  ~ (cat' = cat /\ key' = key) ->
  frames (keeps cat key) (setattr_ns cat' key' v).
Proof.
  intros Hne w. split; [|done]. unfold keeps.
  rewrite published_setattr_ns. rewrite bool_decide_eq_false_2 by done.
  by rewrite andb_false_r.
Qed.

(** ** The audio collector *)

(** The three player counts head the counter; what MartTools adds comes
    after them under its own labels. *)
Lemma collect_audio_shape h counter :
  collect_audio h = Ok counter ->
  exists rest,
    counter
    = [ ("Active Music Players", VInt (Z.of_nat (length (active_players h))));
        ("Music Players", VInt (Z.of_nat (length (all_players h))));
        ("Inactive Music Players", VInt (inactive_players h)) ] ++ rest
    /\ Forall (fun kv => kv.1 ∈ mart_tools_counters.*1) rest.
Proof.
  unfold collect_audio. cbv zeta. cbn [dict_set].
  rewrite !decide_False by done.
  unfold counter_get. cbn [dict_get].
  rewrite !decide_False by done. rewrite !decide_True by done.
  unfold default. cbn [from_option id py_sub as_num rbind].
  fold (inactive_players h).
  match goal with
  | |- context [dict_set ?k ?v ?d] =>
      replace (dict_set k v d) with (d ++ [(k, v)])
        by (cbn [dict_set]; by rewrite !decide_False by done)
  end.
  cbn [app]. set (prefix := [_; _; _]).
  destruct (get_set_detailed h) as [detailed|e]; cbn [rbind]; [|done].
  assert (Ok (A:=list (string * pyval)) prefix = Ok counter ->
          exists rest, counter = prefix ++ rest
            /\ Forall (fun kv => kv.1 ∈ mart_tools_counters.*1) rest) as Hplain.
  { intros [= <-]. exists []. by rewrite app_nil_r. }
  destruct detailed; [|done].
  destruct (mart_tools_get_value h) as [get_value|]; [|done].
  intros Hloop.
  eapply (rfor_each_inv
            (fun c => exists rest, c = prefix ++ rest
               /\ Forall (fun kv => kv.1 ∈ mart_tools_counters.*1) rest))
    in Hloop; [done|by exists []; rewrite app_nil_r|].
  intros [label name] c c' Hin (rest & -> & Hrest).
  destruct (get_value name) as [v|e]; cbn [rbind]; [|done]. intros [= <-].
  assert (label ∈ mart_tools_counters.*1) as Hlabel.
  { apply list_elem_of_fmap. by exists (label, name). }
  assert (label <> "Active Music Players" /\ label <> "Music Players"
          /\ label <> "Inactive Music Players") as (Hn1 & Hn2 & Hn3).
  { revert Hlabel. clear. unfold mart_tools_counters. simpl.
    rewrite !elem_of_cons, elem_of_nil.
    intros H. split_and!; intros ->;
      repeat (destruct H as [H|H]; [discriminate|]); done. }
  exists (dict_set label v rest). split.
  - subst prefix. by rewrite !decide_False by done.
  - apply Forall_forall. intros [k x] Hk.
    apply (list_elem_of_fmap_2 fst) in Hk. simpl in Hk.
    apply dict_set_keys in Hk as [->|Hk]; [done|].
    apply list_elem_of_fmap in Hk as ([k' x'] & -> & Hk).
    by apply (proj1 (Forall_forall _ _) Hrest (k', x')).
Qed.

Lemma publish_audio_rest_keeps rest :
  Forall (fun kv => kv.1 ∈ mart_tools_counters.*1) rest ->
  frames (keeps "audio" "Inactive Music Players")
    (for_each rest
       (fun '(key, value) _ =>
          value <- match value with
                   | VStr s => z <- lift (int_of_digits (strip_non_digits s)) ;;
                               ret (VInt z)
                   | _ => ret value
                   end ;;
          setattr_ns "audio" key value)
       tt).
Proof.
  intros Hrest. apply spec_for_each; [typeclasses eauto|done|].
  intros [key value] [] Hin _.
  assert (key <> "Inactive Music Players") as Hkey.
  { apply (proj1 (Forall_forall _ _) Hrest) in Hin. revert Hin. clear.
    unfold mart_tools_counters. simpl. rewrite !elem_of_cons, elem_of_nil.
    intros H ->. repeat (destruct H as [H|H]; [discriminate|]). done. }
  eapply spec_bind with (Q := fun _ => True); [typeclasses eauto| |].
  - destruct value; repeat frame_step.
  - intros v _. apply keeps_setattr_ns. by intros [_ ?].
Qed.

(** C5 (as the code has it).  When the collector runs (light mode off, the
    reads of the [try] block succeed, the audio category exists) it
    publishes Inactive Music Players = total players - active players, even
    if a MartTools value later fails to parse; the difference is
    non-negative exactly when there are at most as many active players as
    players. *)
Theorem inactive_music_players h w counter :
  get_set_lightmode h = Ok false ->
  collect_audio h = Ok counter ->
  has_category w "audio" = true ->
  published (write_audio_data h w).2 "audio" "Inactive Music Players"
  = Some (VInt (inactive_players h))
  /\ ((0 <= inactive_players h)%Z
      <-> (length (active_players h) <= length (all_players h))%nat).
Proof.
  intros Hlight Hcollect Hcat. split; [|unfold inactive_players; lia].
  destruct (collect_audio_shape h counter Hcollect) as (rest & -> & Hrest).
  unfold write_audio_data.
  erewrite bind_ok by (unfold lift; rewrite Hlight; reflexivity).
  set (handler := fun e => log_exception "Exception in write_audio_data" e).
  set (body := fun '(key, value) (_ : unit) =>
          value <- match value with
                   | VStr s => z <- lift (int_of_digits (strip_non_digits s)) ;;
                               ret (VInt z)
                   | _ => ret value
                   end ;;
          setattr_ns "audio" key value).
  (* the three counts are written first *)
  set (w1 := (setattr_ns "audio" "Active Music Players"
                (VInt (Z.of_nat (length (active_players h)))) w).2).
  set (w2 := (setattr_ns "audio" "Music Players"
                (VInt (Z.of_nat (length (all_players h)))) w1).2).
  set (w3 := (setattr_ns "audio" "Inactive Music Players"
                (VInt (inactive_players h)) w2).2).
  assert (has_category w1 "audio" = true) as Hcat1
    by (subst w1; by rewrite has_category_setattr_ns).
  assert (has_category w2 "audio" = true) as Hcat2
    by (subst w2; by rewrite has_category_setattr_ns).
  assert (published w3 "audio" "Inactive Music Players"
          = Some (VInt (inactive_players h))) as Hpub3.
  { subst w3. rewrite published_setattr_ns, Hcat2.
    by rewrite bool_decide_eq_true_2. }
  assert (forall suffix,
            for_each ([ ("Active Music Players",
                         VInt (Z.of_nat (length (active_players h))));
                        ("Music Players",
                         VInt (Z.of_nat (length (all_players h))));
                        ("Inactive Music Players", VInt (inactive_players h)) ]
                      ++ suffix) body tt w
            = for_each suffix body tt w3) as Hprefix.
  { intros suffix. cbn [app for_each]. unfold body at 1 2 3.
    unfold bind at 1. unfold bind at 1. cbn [ret].
    pose proof (setattr_ns_ok w "audio" "Active Music Players"
                  (VInt (Z.of_nat (length (active_players h)))) Hcat) as H1.
    fold w1 in H1 |- *.
    destruct (setattr_ns "audio" "Active Music Players" _ w) as [r1 w1'] eqn:E1.
    simpl in H1. subst r1. subst w1. cbn [snd] in *.
    unfold bind at 1. unfold bind at 1. cbn [ret].
    pose proof (setattr_ns_ok w1' "audio" "Music Players"
                  (VInt (Z.of_nat (length (all_players h)))) Hcat1) as H2.
    destruct (setattr_ns "audio" "Music Players" _ w1') as [r2 w2'] eqn:E2.
    simpl in H2. subst r2. subst w2. cbn [snd] in *.
    unfold bind at 1. unfold bind at 1. cbn [ret].
    pose proof (setattr_ns_ok w2' "audio" "Inactive Music Players"
                  (VInt (inactive_players h)) Hcat2) as H3.
    destruct (setattr_ns "audio" "Inactive Music Players" _ w2') as [r3 w3'] eqn:E3.
    simpl in H3. subst r3. subst w3. done. }
  unfold audio_pass.
  assert (keeps "audio" "Inactive Music Players" w3
            (try_except
               (counter <- lift (collect_audio h) ;; publish_audio_counter counter)
               handler w).2) as Hkeep.
  { unfold try_except, bind at 1, lift. rewrite Hcollect.
    unfold publish_audio_counter. fold body. rewrite Hprefix.
    destruct (publish_audio_rest_keeps rest Hrest w3) as [Hk _].
    fold body in Hk.
    destruct (for_each rest body tt w3) as [[[]|e] w4]; [done|].
    simpl in Hk. unfold keeps in *. subst handler. simpl. done. }
  unfold keeps in Hkeep. by rewrite Hkeep.
Qed.

(** ** Buckets of member ids *)

Lemma bucket_add_temp k x t k' :
  bucket (add_temp k x t) k'
  = if decide (k = k') then bucket t k ∪ {[x]} else bucket t k'.
Proof.
  unfold bucket, add_temp, set_add. cbn [temp_data set_temp_data].
  rewrite dict_get_set. by destruct (decide (k = k')).
Qed.

Lemma bucket_add_temp_elem k x t : x ∈ bucket (add_temp k x t) k.
Proof. rewrite bucket_add_temp, decide_True by done. set_solver. Qed.

#[global] Instance buckets_le_preorder : PreOrder buckets_le.
Proof. split; [by intros t k x|]. intros t1 t2 t3 H12 H23 k x ?. auto. Qed.

Lemma buckets_le_add_temp k x t : buckets_le t (add_temp k x t).
Proof.
  intros k' y Hy. rewrite bucket_add_temp.
  destruct (decide (k = k')) as [->|]; [set_solver|done].
Qed.

Lemma buckets_le_add_by_kind users bots humans member t :
  buckets_le t (add_by_kind users bots humans member t).
Proof.
  unfold add_by_kind. destruct (m_bot member);
    (etrans; [apply buckets_le_add_temp|apply buckets_le_add_temp]).
Qed.

Lemma add_by_kind_elem users bots humans member t :
  m_id member ∈ bucket (add_by_kind users bots humans member t) users
  /\ m_id member ∈ bucket (add_by_kind users bots humans member t)
                     (if m_bot member then bots else humans).
Proof.
  unfold add_by_kind. destruct (m_bot member); split;
    first [apply bucket_add_temp_elem
          | apply buckets_le_add_temp, bucket_add_temp_elem].
Qed.

Lemma buckets_le_tally_status member t : buckets_le t (tally_status member t).
Proof.
  unfold tally_status.
  repeat case_decide;
    repeat first [reflexivity | apply buckets_le_add_by_kind
                 | etrans; [apply buckets_le_add_by_kind|]].
Qed.

Lemma buckets_le_tally_platform status l1 l2 l3 l4 member t :
  buckets_le t (tally_platform status l1 l2 l3 l4 member t).
Proof.
  unfold tally_platform.
  repeat case_decide; first [reflexivity | apply buckets_le_add_temp].
Qed.

(** One activity: the member lands in the buckets of its type. *)
Lemma tally_activity_spec member a t seen w :
  exists t' seen',
    tally_activity member a (t, seen) w = (Ok (t', seen'), w)
    /\ buckets_le t t' /\ classified member a t'.
Proof.
  unfold tally_activity, classified, ret.
  destruct a as [ty]. cbn [a_type].
  destruct ty; cbn [activity_buckets];
    repeat (rewrite decide_True by done || rewrite decide_False by done);
    eexists _, _; (split; [reflexivity|]);
    (split; [first [reflexivity | apply buckets_le_add_by_kind]|]);
    intros label Hl;
    try (by apply elem_of_nil in Hl);
    apply elem_of_cons in Hl as [->|Hl%list_elem_of_singleton]; subst;
    apply add_by_kind_elem.
Qed.

(** The loop over the activities reaches every one of them. *)
Lemma tally_activities_spec member delay steps (l : list Activity) :
  forall i t seen w,
  exists t' seen' w',
    async_iter_from delay steps i l (tally_activity member) (t, seen) w
    = (Ok (t', seen'), w')
    /\ bot w' = bot w
    /\ buckets_le t t'
    /\ forall a, a ∈ l -> classified member a t'.
Proof.
  induction l as [|a l IH]; intros i t seen w; cbn [async_iter_from].
  - exists t, seen, w. split_and!; [done|done|reflexivity|].
    by intros a ?%elem_of_nil.
  - set (w1 := ((if (i =? steps)%nat then sleep delay else ret tt) w).2).
    assert ((if (i =? steps)%nat then sleep delay else ret tt) w = (Ok tt, w1)
            /\ bot w1 = bot w) as [Hpause Hbot1].
    { subst w1. by destruct (i =? steps)%nat. }
    erewrite bind_ok by exact Hpause.
    destruct (tally_activity_spec member a t seen w1)
      as (t1 & seen1 & Hstep & Hle1 & Hcl1).
    erewrite bind_ok by exact Hstep.
    destruct (IH (if (i =? steps)%nat then 1 else S i)%nat t1 seen1 w1)
      as (t' & seen' & w' & Hrest & Hbot & Hle & Hcl).
    exists t', seen', w'. split_and!; [done|congruence|by etrans|].
    intros b [->|Hb]%elem_of_cons; [|by apply Hcl].
    intros label Hl. by apply Hle, Hcl1.
Qed.

(** The loop body over the members never raises. *)
Lemma tally_member_total detailed member t w :
  exists t' w',
    tally_member detailed member t w = (Ok t', w')
    /\ bot w' = bot w /\ buckets_le t t'.
Proof.
  unfold tally_member.
  set (t0 := if m_bot member then _ else _).
  assert (buckets_le t t0) as Hle0.
  { subst t0. destruct (m_bot member);
      (etrans; [apply buckets_le_add_temp|apply buckets_le_add_temp]). }
  destruct detailed; [|by exists t0, w].
  set (t1 := if m_is_on_mobile member then _ else t0).
  assert (buckets_le t0 t1) as Hle1.
  { subst t1. destruct (m_is_on_mobile member);
      [apply buckets_le_add_temp|reflexivity]. }
  unfold async_for. cbn [Nat.ltb Nat.leb].
  destruct (tally_activities_spec member (1 # 100) 5 (m_activities member)
              0%nat t1 false w) as (t2 & seen & w' & Hloop & Hbot & Hle2 & _).
  erewrite bind_ok by exact Hloop. unfold ret.
  eexists _, w'. split; [reflexivity|]. split; [done|].
  etrans; [exact Hle0|]. etrans; [exact Hle1|]. etrans; [exact Hle2|].
  repeat (etrans; [|apply buckets_le_tally_platform]).
  destruct seen; [reflexivity|apply buckets_le_tally_status].
Qed.


(** ** Light mode *)

#[global] Instance light_frame_preorder : PreOrder light_frame.
Proof.
  split.
  - by intros w.
  - intros w1 w2 w3 (Hp & Hc & Hd & Ht & Hr) (Hp' & Hc' & Hd' & Ht' & Hr').
    split_and!; [|intros cat; by rewrite Hc', Hc|congruence..].
    intros cat key Hl. by rewrite Hp', Hp.
Qed.

Lemma light_frame_emit ev : frames light_frame (emit ev).
Proof. intros w. by split. Qed.

Lemma to_dict_setattr_ns cat key v w :
  (to_dict <$> stats (bot (setattr_ns cat key v w).2))
  = (to_dict <$> stats (bot w))
  /\ _stats_task (bot (setattr_ns cat key v w).2) = _stats_task (bot w)
  /\ _stats_ready (bot (setattr_ns cat key v w).2) = _stats_ready (bot w).
Proof.
  unfold setattr_ns, bind, get_bot, put_bot, raise.
  destruct (stats (bot w)) as [st|] eqn:Hst; simpl; [|by rewrite Hst].
  destruct (cats st !! cat); simpl; by rewrite ?Hst.
Qed.

Lemma light_frame_setattr_ns cat key v :
  light_label cat key -> frames light_frame (setattr_ns cat key v).
Proof.
  intros Hl w. split; [|done].
  destruct (to_dict_setattr_ns cat key v w) as (Hd & Ht & Hr).
  split_and!; try done.
  - intros cat' key' Hn. rewrite published_setattr_ns.
    rewrite bool_decide_eq_false_2; [by rewrite andb_false_r|].
    intros [<- <-]. done.
  - intros c. apply has_category_setattr_ns.
Qed.

Lemma light_frame_publish_counter cat (c : list (string * pyval)) :
  (forall key, key ∈ c.*1 -> light_label cat key) ->
  frames light_frame (publish_counter cat c).
Proof.
  intros Hkeys. unfold publish_counter.
  apply spec_for_each; [typeclasses eauto|done|].
  intros [key value] [] Hin _. apply light_frame_setattr_ns, Hkeys.
  apply list_elem_of_fmap. by exists (key, value).
Qed.

(** Keys of the dictionaries the tallies are made of. *)
Lemma counter_iadd_keys k v c c' key :
  counter_iadd k v c = Ok c' -> key ∈ c'.*1 -> key = k \/ key ∈ c.*1.
Proof.
  unfold counter_iadd. destruct (py_add _ _); simpl; [|done].
  intros [= <-]. apply dict_set_keys.
Qed.

Lemma set_add_keys k x (d : list (string * gset Z)) key :
  key ∈ (set_add k x d).*1 -> key = k \/ key ∈ d.*1.
Proof. apply dict_set_keys. Qed.

Lemma flatten_sets_keys (sets : list (string * gset Z)) : forall c key,
  key ∈ (flatten_sets sets c).*1 -> key ∈ sets.*1 \/ key ∈ c.*1.
Proof.
  unfold flatten_sets.
  induction sets as [|[k s] sets IH]; intros c key; simpl; [by right|].
  intros [Hin|Hin]%IH.
  - left. by right.
  - apply dict_set_keys in Hin as [->|Hin]; [left; left|by right].
Qed.

Ltac light_keys :=
  repeat match goal with
  | H : _ ∈ (set_add _ _ _).*1 |- _ => apply set_add_keys in H as [->|H]
  | H : _ ∈ (dict_set _ _ _).*1 |- _ => apply dict_set_keys in H as [->|H]
  | H : ?k ∈ ?l, Hs : ?l ⊆ _ |- _ => apply Hs in H
  | |- _ ∈ _ :: _ => rewrite !elem_of_cons in *
  end; try tauto.

Lemma light_tallies_tally_member member t :
  light_tallies t ->
  spec light_frame light_tallies (tally_member false member t).
Proof.
  intros (Hc & Hs & Ht & Hst & Hr & Hv & Hf).
  unfold tally_member. apply spec_ret; [typeclasses eauto|].
  unfold light_tallies.
  destruct (m_bot member); cbn; (split_and!; try done);
    intros key Hin; light_keys.
Qed.

Lemma light_tallies_tally_guild guild t :
  light_tallies t ->
  spec light_frame light_tallies (tally_guild true false guild t).
Proof.
  intros Hlt. pose proof Hlt as (Hc & Hs & Ht & Hst & Hr & Hv & Hf).
  unfold tally_guild. destruct (g_unavailable guild).
  - apply spec_ret; [typeclasses eauto|].
    unfold light_tallies. cbn. split_and!; try done.
    intros key Hin; light_keys.
  - cbn [negb].
    eapply spec_bind with (Q := light_tallies); [typeclasses eauto| |].
    + apply spec_lift; [typeclasses eauto|]. intros t1.
      unfold iadd_server_counter.
      destruct (counter_iadd _ _ _) as [c1|] eqn:Hadd; simpl; [|done].
      intros [= <-]. unfold light_tallies. cbn. split_and!; try done.
      intros key Hin. eapply counter_iadd_keys in Hin as [->|Hin]; [| |done];
        light_keys.
    + intros t1 Ht1.
      eapply spec_bind with (Q := light_tallies); [typeclasses eauto| |].
      { by apply spec_ret; [typeclasses eauto|]. }
      intros t2 Ht2.
      apply spec_async_for; [typeclasses eauto|apply light_frame_emit|done|].
      intros member t3 _ Ht3. by apply light_tallies_tally_member.
Qed.

Lemma light_tallies_collect h :
  spec light_frame
    (fun t => (forall key, key ∈ (counter t).*1 -> light_label "bot" key)
              /\ (forall key, key ∈ (server_counter t).*1 ->
                              light_label "guilds" key)
              /\ region_count t = [] /\ verify_count t = []
              /\ features_count t = [])
    (collect_bot_data h true false false).
Proof.
  unfold collect_bot_data.
  eapply spec_bind with (Q := fun t => t = empty_tallies);
    [typeclasses eauto|by apply spec_ret; [typeclasses eauto|]|].
  intros ? ->.
  eapply spec_bind with (Q := light_tallies); [typeclasses eauto| |].
  { apply spec_try_except; [typeclasses eauto| |].
    - eapply spec_bind with (Q := fun _ => True); [typeclasses eauto| |].
      + apply spec_lift; [typeclasses eauto|done].
      + intros ms _. apply spec_ret; [typeclasses eauto|].
        unfold light_tallies. cbn. split_and!; try done;
          intros key Hin; light_keys.
    - intros e. destruct (is_overflow e); [|apply spec_raise; typeclasses eauto].
      apply spec_ret; [typeclasses eauto|].
      unfold light_tallies. cbn. split_and!; try done;
        intros key Hin; light_keys. }
  intros t1 Ht1.
  eapply spec_bind with (Q := light_tallies); [typeclasses eauto| |].
  { apply spec_for_each; [typeclasses eauto| |].
    - destruct Ht1 as (Hc & Hs & Ht & Hst & Hr & Hv & Hf).
      unfold light_tallies. cbn. split_and!; try done.
      intros key Hin. light_keys.
    - intros guild t2 _ Ht2. by apply light_tallies_tally_guild. }
  intros t2 (Hc & Hs & Ht & Hst & Hr & Hv & Hf).
  apply spec_ret; [typeclasses eauto|]. cbn. split_and!; try done.
  - intros key [Hin|Hin]%flatten_sets_keys; unfold light_label; left;
      (split; [done|]); light_keys.
  - intros key [Hin|Hin]%flatten_sets_keys; unfold light_label; right; left;
      (split; [done|]); light_keys.
Qed.

Lemma light_frame_write_bot_data h :
  get_set_lightmode h = Ok true -> frames light_frame (write_bot_data h).
Proof.
  intros Hlight. unfold write_bot_data. rewrite Hlight.
  eapply spec_bind with (Q := fun lm => lm = true); [typeclasses eauto| |].
  { apply spec_lift; [typeclasses eauto|]. by intros ? [= <-]. }
  intros ? ->. cbn [negb].
  eapply spec_bind with (Q := fun flags => flags = (false, false));
    [typeclasses eauto|by apply spec_ret; [typeclasses eauto|]|].
  intros ? ->.
  apply spec_try_except; [typeclasses eauto| |intros e; apply light_frame_emit].
  unfold bot_data_pass.
  eapply spec_bind; [typeclasses eauto|apply light_tallies_collect|].
  intros t (Hc & Hs & -> & -> & ->).
  repeat (eapply spec_bind with (Q := fun _ => True);
          [typeclasses eauto| |intros ? _]);
    apply light_frame_publish_counter; try done;
    by intros key ?%elem_of_nil.
Qed.

Lemma light_frame_write_currency_data h :
  frames light_frame (write_currency_data h).
Proof.
  unfold write_currency_data, write_currency_data_steps.
  repeat first [apply light_frame_emit | frame_step].
  apply light_frame_publish_counter. cbn.
  intros key ->%list_elem_of_singleton. unfold light_label. tauto.
Qed.

Lemma light_frame_write_shards_data h :
  frames light_frame (write_shards_data h).
Proof.
  unfold write_shards_data. repeat frame_step.
  apply light_frame_setattr_ns. unfold light_label. tauto.
Qed.

Lemma light_frame_write_audio_data h :
  get_set_lightmode h = Ok true -> frames light_frame (write_audio_data h).
Proof.
  intros Hlight w. unfold write_audio_data, bind, lift. rewrite Hlight.
  split; [reflexivity|done].
Qed.

Lemma light_frame_write_adventure_data h :
  get_set_lightmode h = Ok true -> frames light_frame (write_adventure_data h).
Proof.
  intros Hlight w. unfold write_adventure_data, bind, lift.
  destruct (cog_Adventure h); [rewrite Hlight|]; (split; [reflexivity|done]).
Qed.

(** C8 (as the code has it).  With light mode on, a collection pass writes
    nothing but: in the bot category Discord Latency, Shards, Unique Users,
    Bots and Humans; in the guild category Total, Members and Unavailable;
    the shard latencies; and Currency In Circulation.  Every other label of
    every category (channels, roles, boosts, emojis, voice, presence,
    features, verification, audio, adventure) keeps the value it had or
    stays absent, and the categories, [to_dict], the task handle and the
    ready event are as before. *)
Theorem light_mode_pass_frame h w :
  get_set_lightmode h = Ok true -> light_frame w (run_events h w).2.
Proof.
  intros Hlight.
  assert (frames light_frame (run_events h)) as Hframes; [|apply Hframes].
  unfold run_events.
  eapply spec_bind with (Q := fun _ => True);
    [typeclasses eauto| |intros; by apply spec_ret; [typeclasses eauto|]].
  apply spec_gather; [typeclasses eauto|].
  repeat (apply Forall_cons_2); [..|apply Forall_nil]. 6: done.
  - by apply light_frame_write_bot_data.
  - apply light_frame_write_currency_data.
  - apply light_frame_write_shards_data.
  - by apply light_frame_write_audio_data.
  - by apply light_frame_write_adventure_data.
Qed.

(** ** Loops with an invariant over the processed prefix *)

Section PrefixRules.
Context (R : relation world) `{!PreOrder R}.

Lemma spec_for_each_prefix {A St} (I : list A -> St -> Prop) (l : list A)
    body acc :
  I [] acc ->
  (forall pre x a, I pre a -> spec R (I (pre ++ [x])) (body x a)) ->
  spec R (I l) (for_each l body acc).
Proof.
  intros HI Hbody.
  assert (forall pre a, I pre a -> spec R (I (pre ++ l)) (for_each l body a))
    as Hgen; [|by apply (Hgen [])].
  clear acc HI. induction l as [|x l IH]; intros pre a Ha; simpl.
  - rewrite app_nil_r. by apply (spec_ret R).
  - eapply (spec_bind R); [by apply Hbody|].
    intros a' Ha'. rewrite cons_middle, app_assoc. by apply IH.
Qed.

Lemma spec_async_for_prefix {A St} (I : list A -> St -> Prop) (l : list A)
    steps delay body acc :
  frames R (sleep delay) ->
  I [] acc ->
  (forall pre x a, I pre a -> spec R (I (pre ++ [x])) (body x a)) ->
  spec R (I l) (async_for l steps delay body acc).
Proof.
  intros Hsleep HI Hbody. unfold async_for.
  destruct (steps <? 1)%nat; [by apply (spec_raise R)|].
  assert (forall pre i a, I pre a ->
            spec R (I (pre ++ l)) (async_iter_from delay steps i l body a))
    as Hgen; [|by apply (Hgen [])].
  clear acc HI. induction l as [|x l IH]; intros pre i a Ha; simpl.
  - rewrite app_nil_r. by apply (spec_ret R).
  - eapply (spec_bind R) with (Q := fun _ => True).
    { destruct (i =? steps)%nat; [done|by apply (spec_ret R)]. }
    intros _ _. eapply (spec_bind R); [by apply Hbody|].
    intros a' Ha'. rewrite cons_middle, app_assoc. by apply IH.
Qed.
End PrefixRules.

(** ** Distinct keys *)

Lemma NoDup_dict_set {V} (k : string) (v : V) d :
  NoDup d.*1 -> NoDup (dict_set k v d).*1.
Proof.
  induction d as [|[k' v'] d IH]; simpl.
  - intros _. apply NoDup_singleton.
  - rewrite NoDup_cons. intros [Hnot Hnd].
    destruct (decide (k = k')) as [->|Hne]; simpl.
    + by apply NoDup_cons.
    + apply NoDup_cons. split; [|by apply IH].
      intros [->|Hin]%dict_set_keys; done.
Qed.

Lemma NoDup_counter_iadd k v c c' :
  counter_iadd k v c = Ok c' -> NoDup c.*1 -> NoDup c'.*1.
Proof.
  unfold counter_iadd. destruct (py_add _ _); simpl; [|done].
  intros [= <-]. apply NoDup_dict_set.
Qed.

Lemma NoDup_flatten_sets sets : forall c,
  NoDup c.*1 -> NoDup (flatten_sets sets c).*1.
Proof.
  unfold flatten_sets. induction sets as [|[k s] sets IH]; intros c Hc; simpl;
    [done|]. by apply IH, NoDup_dict_set.
Qed.

Lemma dict_get_counter_iadd_ne k k' v c c' :
  counter_iadd k v c = Ok c' -> k <> k' -> dict_get k' c' = dict_get k' c.
Proof.
  unfold counter_iadd. destruct (py_add _ _); simpl; [|done].
  intros [= <-] Hne. by apply dict_get_set_ne.
Qed.

Lemma dict_get_flatten_sets_notin sets k : forall c,
  k ∉ sets.*1 -> dict_get k (flatten_sets sets c) = dict_get k c.
Proof.
  unfold flatten_sets. induction sets as [|[k' s] sets IH]; intros c; simpl;
    [done|].
  rewrite not_elem_of_cons. intros [Hne Hnot].
  rewrite IH by done. by apply dict_get_set_ne.
Qed.

Lemma dict_get_flatten_sets sets k s : forall c,
  NoDup sets.*1 -> dict_get k sets = Some s ->
  dict_get k (flatten_sets sets c) = Some (VInt (Z.of_nat (size s))).
Proof.
  unfold flatten_sets. induction sets as [|[k' s'] sets IH]; intros c; simpl;
    [done|].
  rewrite NoDup_cons. intros [Hnot Hnd].
  destruct (decide (k = k')) as [->|Hne].
  - intros [= ->].
    change (fold_left _ sets ?c0) with (flatten_sets sets c0).
    rewrite dict_get_flatten_sets_notin by done. apply dict_get_set_eq.
  - intros Hget. by apply IH.
Qed.

(** ** Steps of the tally *)

#[global] Instance tallies_step_preorder : PreOrder tallies_step.
Proof.
  split.
  - by intros t.
  - intros t1 t2 t3 (Hw & Hb & Hm) (Hw' & Hb' & Hm').
    split_and!; [tauto|congruence..].
Qed.

Lemma tallies_step_add_temp k x t :
  k <> "Unique Users" -> tallies_step t (add_temp k x t).
Proof.
  intros Hne. split_and!.
  - intros (? & ? & ? & ?). split_and!; try done.
    cbn. by apply NoDup_dict_set.
  - by rewrite bucket_add_temp, decide_False.
  - done.
Qed.

Lemma tallies_step_add_server_temp k x t :
  k <> "Members" -> tallies_step t (add_server_temp k x t).
Proof.
  intros Hne. split_and!; [|done..].
  intros (? & ? & ? & Hnot). split_and!; try done.
  cbn. intros [Heq|Hin]%set_add_keys; [by apply Hne|done].
Qed.

Lemma tallies_step_add_by_kind users bots humans member t :
  users <> "Unique Users" -> bots <> "Unique Users" ->
  humans <> "Unique Users" ->
  tallies_step t (add_by_kind users bots humans member t).
Proof.
  intros. unfold add_by_kind. destruct (m_bot member);
    (etrans; [by apply (tallies_step_add_temp users)
             |by apply tallies_step_add_temp]).
Qed.

Lemma tallies_step_iadd_counter k n t t' :
  iadd_counter k n t = Ok t' -> tallies_step t t'.
Proof.
  unfold iadd_counter. destruct (counter_iadd _ _ _) as [c|] eqn:Hadd; [|done].
  simpl. intros [= <-]. split_and!; [|done..].
  intros (? & ? & ? & ?). split_and!; try done.
  cbn. by eapply NoDup_counter_iadd.
Qed.

Lemma tallies_step_iadd_server_counter k n t t' :
  iadd_server_counter k n t = Ok t' -> k <> "Members" -> tallies_step t t'.
Proof.
  unfold iadd_server_counter.
  destruct (counter_iadd _ _ _) as [c|] eqn:Hadd; [|done].
  simpl. intros [= <-] Hne. split_and!; [|done|].
  - intros (? & ? & ? & ?). split_and!; try done.
    cbn. by eapply NoDup_counter_iadd.
  - cbn. by eapply dict_get_counter_iadd_ne.
Qed.

Lemma tallies_step_set_features_count c t :
  tallies_step t (set_features_count c t).
Proof. by split_and!. Qed.

Lemma tallies_step_set_verify_count c t :
  tallies_step t (set_verify_count c t).
Proof. by split_and!. Qed.

Lemma tallies_step_fold_left {A} (f : tallies -> A -> tallies) (l : list A) :
  (forall t x, tallies_step t (f t x)) ->
  forall t, tallies_step t (fold_left f l t).
Proof.
  intros Hf. induction l as [|x l IH]; intros t; simpl; [reflexivity|].
  etrans; [apply Hf|apply IH].
Qed.

Lemma tallies_step_rfor_each {A} (l : list A) body t t' :
  (forall x a a', body x a = Ok a' -> tallies_step a a') ->
  rfor_each l body t = Ok t' -> tallies_step t t'.
Proof.
  intros Hbody. apply (rfor_each_inv (tallies_step t)); [reflexivity|].
  intros x a a' _ Ha Hx. etrans; [exact Ha|by eapply Hbody].
Qed.

(** ** The blocks of the per-guild tally *)

Lemma tallies_step_tally_guild_detailed guild t t' :
  tally_guild_detailed guild t = Ok t' -> tallies_step t t'.
Proof.
  unfold tally_guild_detailed.
  destruct (rfor_each _ _ t) as [t1|] eqn:Hfeat; simpl; [|done].
  destruct (counter_iadd _ _ (verify_count t1)) as [c|]; simpl; [|done].
  intros [= <-]. etrans; [|apply tallies_step_set_verify_count].
  eapply tallies_step_rfor_each; [|exact Hfeat].
  intros feature a a'. cbv beta.
  destruct (counter_iadd (get_or_unknown features feature) (VInt 1)
              (features_count a)) as [c'|]; simpl; [|done].
  intros [= <-]. apply tallies_step_set_features_count.
Qed.

Lemma tallies_step_tally_guild_flags guild t t' :
  tally_guild_flags guild t = Ok t' -> tallies_step t t'.
Proof.
  unfold tally_guild_flags.
  destruct (iadd_server_counter _ _ t) as [t1|] eqn:Hroles; simpl; [|done].
  intros [= <-].
  apply tallies_step_iadd_server_counter in Hroles; [|done].
  etrans; [exact Hroles|]. clear Hroles.
  set (t2 := if g_large guild then _ else t1).
  assert (tallies_step t1 t2) as H2
    by (subst t2; destruct (g_large guild);
        [by apply tallies_step_add_server_temp|reflexivity]).
  set (t3 := if negb (g_chunked guild) then _ else t2).
  assert (tallies_step t2 t3) as H3
    by (subst t3; destruct (negb (g_chunked guild));
        [by apply tallies_step_add_server_temp|reflexivity]).
  set (t4 := if negb (g_premium_tier guild =? 0)%Z then _ else t3).
  assert (tallies_step t3 t4) as H4
    by (subst t4; destruct (negb (g_premium_tier guild =? 0)%Z);
        [by apply tallies_step_add_server_temp|reflexivity]).
  etrans; [exact H2|]. etrans; [exact H3|]. etrans; [exact H4|].
  repeat match goal with
         | |- tallies_step _ (if ?b then _ else _) => destruct b
         end;
    first [reflexivity | by apply tallies_step_add_server_temp].
Qed.

Lemma tallies_step_tally_channel guild channel t t' :
  tally_channel guild channel t = Ok t' -> tallies_step t t'.
Proof.
  unfold tally_channel.
  destruct (iadd_server_counter _ _ t) as [t1|] eqn:H1; simpl; [|done].
  apply tallies_step_iadd_server_counter in H1; [|done].
  intros Hrest. etrans; [exact H1|]. clear H1. revert Hrest.
  destruct channel as [id nsfw news|id members|id|id].
  - destruct (iadd_server_counter _ _ t1) as [t2|] eqn:H2; simpl; [|done].
    apply tallies_step_iadd_server_counter in H2; [|done].
    intros [= <-]. etrans; [exact H2|].
    destruct nsfw, news;
      first [reflexivity | by apply tallies_step_add_temp
            | etrans; [by apply (tallies_step_add_temp "NSFW Text Channels")
                      |by apply tallies_step_add_temp]].
  - destruct (iadd_server_counter _ _ t1) as [t2|] eqn:H2; simpl; [|done].
    apply tallies_step_iadd_server_counter in H2; [|done].
    destruct (iadd_counter _ _ t2) as [t3|] eqn:H3; simpl; [|done].
    apply tallies_step_iadd_counter in H3.
    destruct (member_in _ _).
    + destruct (iadd_counter _ _ t3) as [t4|] eqn:H4; simpl; [|done].
      apply tallies_step_iadd_counter in H4.
      destruct (iadd_server_counter _ _ t4) as [t5|] eqn:H5; simpl; [|done].
      apply tallies_step_iadd_server_counter in H5; [|done].
      intros [= <-].
      etrans; [exact H2|]. etrans; [exact H3|]. etrans; [exact H4|].
      etrans; [exact H5|].
      apply tallies_step_fold_left. intros a m.
      destruct (m_is_on_mobile m);
        [by apply tallies_step_add_temp|reflexivity].
    + intros [= <-]. by etrans.
  - intros H2. by apply tallies_step_iadd_server_counter in H2.
  - by intros [= <-].
Qed.

Lemma tallies_step_tally_emoji emoji t t' :
  tally_emoji emoji t = Ok t' -> tallies_step t t'.
Proof.
  unfold tally_emoji.
  destruct (iadd_server_counter _ _ t) as [t1|] eqn:H1; simpl; [|done].
  apply tallies_step_iadd_server_counter in H1; [|done].
  destruct (e_animated emoji); intros H2;
    apply tallies_step_iadd_server_counter in H2; try done; by etrans.
Qed.

Lemma tallies_step_tally_status member t :
  tallies_step t (tally_status member t).
Proof.
  unfold tally_status.
  repeat case_decide;
    first [reflexivity | by apply tallies_step_add_by_kind
          | etrans; [by apply (tallies_step_add_by_kind "Users Connected"
                                 "Bots Connected" "Humans Connected")
                    |first [reflexivity|by apply tallies_step_add_by_kind]]].
Qed.

Lemma tallies_step_tally_platform status l1 l2 l3 l4 member t :
  l1 <> "Unique Users" -> l2 <> "Unique Users" -> l3 <> "Unique Users" ->
  l4 <> "Unique Users" ->
  tallies_step t (tally_platform status l1 l2 l3 l4 member t).
Proof.
  intros. unfold tally_platform.
  repeat case_decide; first [reflexivity | by apply tallies_step_add_temp].
Qed.

Lemma tally_activity_step member a t seen w t' seen' w' :
  tally_activity member a (t, seen) w = (Ok (t', seen'), w') ->
  tallies_step t t'.
Proof.
  unfold tally_activity, ret. destruct a as [ty]. cbn [a_type].
  destruct ty;
    repeat (rewrite decide_True by done || rewrite decide_False by done);
    intros [= <- _ _];
    first [reflexivity | by apply tallies_step_add_by_kind].
Qed.

(** ** Unique users and the member total *)

#[global] Instance any_world_preorder : PreOrder any_world.
Proof. by split. Qed.

Lemma any_world_sleep d : frames any_world (sleep d).
Proof. by intros w. Qed.

Lemma member_step_then_step x t t1 t2 :
  member_step x t t1 -> tallies_step t1 t2 -> member_step x t t2.
Proof.
  intros (Hw & Hb & Hm) (Hw' & Hb' & Hm').
  split_and!; [tauto|congruence..].
Qed.

Lemma member_step_unique_users member t :
  member_step (m_id member) t
    (if m_bot member
     then add_temp "Bots" (m_id member)
            (add_temp "Unique Users" (m_id member) t)
     else add_temp "Humans" (m_id member)
            (add_temp "Unique Users" (m_id member) t)).
Proof.
  apply member_step_then_step with (add_temp "Unique Users" (m_id member) t).
  - split_and!; [|by rewrite bucket_add_temp, decide_True|done].
    intros (? & ? & ? & ?). split_and!; try done.
    cbn. by apply NoDup_dict_set.
  - destruct (m_bot member); by apply tallies_step_add_temp.
Qed.

Lemma tally_activities_step member (l : list Activity) t seen :
  spec any_world (fun st => tallies_step t st.1)
    (async_for l 5 (1 # 100) (tally_activity member) (t, seen)).
Proof.
  apply spec_async_for; [typeclasses eauto|apply any_world_sleep|reflexivity|].
  intros a [t1 seen1] _ Ht1. intros w. split; [done|].
  intros [t2 seen2] Hstep. cbn [fst] in *.
  etrans; [exact Ht1|].
  destruct (tally_activity member a (t1, seen1) w) as [r w'] eqn:Hrun.
  simpl in Hstep. subst r. by eapply tally_activity_step.
Qed.

Lemma tally_member_step detailed member t :
  spec any_world (member_step (m_id member) t)
    (tally_member detailed member t).
Proof.
  unfold tally_member.
  pose proof (member_step_unique_users member t) as H0.
  set (t0 := if m_bot member then _ else _) in *.
  destruct detailed; [|by apply spec_ret; [typeclasses eauto|]].
  set (t1 := if m_is_on_mobile member then _ else t0).
  assert (tallies_step t0 t1) as H1.
  { subst t1. destruct (m_is_on_mobile member);
      [by apply tallies_step_add_temp|reflexivity]. }
  eapply spec_bind; [typeclasses eauto|apply tally_activities_step|].
  intros [t2 seen] H2. cbn [fst] in H2.
  apply spec_ret; [typeclasses eauto|].
  eapply member_step_then_step; [exact H0|].
  etrans; [exact H1|]. etrans; [exact H2|].
  etrans; [|by apply tallies_step_tally_platform].
  etrans; [|by apply tallies_step_tally_platform].
  etrans; [|by apply tallies_step_tally_platform].
  destruct seen; [reflexivity|apply tallies_step_tally_status].
Qed.

(** The loop over the members of a guild adds exactly their ids. *)
Lemma tally_members_step detailed (members : list Member) t :
  spec any_world
    (fun t' =>
       (tallies_wf t -> tallies_wf t')
       /\ bucket t' "Unique Users"
          = bucket t "Unique Users" ∪ list_to_set (m_id <$> members)
       /\ dict_get "Members" (server_counter t')
          = dict_get "Members" (server_counter t))
    (async_for members 1000 0 (tally_member detailed) t).
Proof.
  apply (spec_async_for_prefix any_world
           (fun pre t' =>
              (tallies_wf t -> tallies_wf t')
              /\ bucket t' "Unique Users"
                 = bucket t "Unique Users" ∪ list_to_set (m_id <$> pre)
              /\ dict_get "Members" (server_counter t')
                 = dict_get "Members" (server_counter t)));
    [apply any_world_sleep| |].
  - split_and!; [done| |done].
    rewrite fmap_nil, list_to_set_nil. by rewrite (right_id_L ∅ (∪)).
  - intros pre member t1 (Hw & Hb & Hm).
    eapply spec_weaken; [apply tally_member_step|].
    intros t2 (Hw2 & Hb2 & Hm2). split_and!; [tauto| |congruence].
    rewrite Hb2, Hb, fmap_app, list_to_set_app_L.
    rewrite fmap_cons, fmap_nil, list_to_set_cons, list_to_set_nil.
    rewrite (right_id_L ∅ (∪)). by rewrite (assoc_L (∪)).
Qed.

Lemma spec_lift_any {A} (Q : A -> Prop) (r : result A) :
  (forall a, r = Ok a -> Q a) -> spec any_world Q (lift r).
Proof. apply spec_lift. typeclasses eauto. Qed.

(** The statistics of a guild outside light mode are steps. *)
Lemma tally_guild_details_step (detailed : bool) guild t :
  spec any_world (tallies_step t)
    (bind (if detailed then lift (tally_guild_detailed guild t) else ret t)
       (fun t1 : tallies =>
          bind (lift (tally_guild_flags guild t1))
            (fun t2 : tallies =>
               bind (lift (rfor_each (g_channels guild) (tally_channel guild) t2))
                 (fun t3 : tallies =>
                    lift (rfor_each (g_emojis guild) tally_emoji t3))))).
Proof.
  eapply spec_bind with (Q := tallies_step t); [typeclasses eauto| |].
  { destruct detailed.
    - apply spec_lift_any. intros t1. apply tallies_step_tally_guild_detailed.
    - by apply spec_ret; [typeclasses eauto|]. }
  intros t1 H1.
  eapply spec_bind with (Q := tallies_step t); [typeclasses eauto| |].
  { apply spec_lift_any. intros t2 H2. etrans; [exact H1|].
    by eapply tallies_step_tally_guild_flags. }
  intros t2 H2.
  eapply spec_bind with (Q := tallies_step t); [typeclasses eauto| |].
  { apply spec_lift_any. intros t3 H3. etrans; [exact H2|].
    eapply tallies_step_rfor_each; [|exact H3].
    intros channel a a'. apply tallies_step_tally_channel. }
  intros t3 H3.
  apply spec_lift_any. intros t4 H4. etrans; [exact H3|].
  eapply tallies_step_rfor_each; [|exact H4].
  intros emoji a a'. apply tallies_step_tally_emoji.
Qed.

Lemma tally_guild_step lightmode detailed guild t :
  spec any_world (guild_step guild t) (tally_guild lightmode detailed guild t).
Proof.
  unfold tally_guild, guild_step.
  destruct (g_unavailable guild).
  - apply spec_ret; [typeclasses eauto|].
    destruct (tallies_step_add_server_temp "Unavailable" (g_id guild) t)
      as (Hw & Hb & Hm); [done|].
    split_and!; [done| |done]. by rewrite Hb, (right_id_L ∅ (∪)).
  - set (mc := default 0%Z (g_member_count guild)).
    eapply spec_bind with
      (Q := fun t1 =>
              (tallies_wf t -> tallies_wf t1)
              /\ bucket t1 "Unique Users" = bucket t "Unique Users"
              /\ forall z, counter_get "Members" (server_counter t) = VInt z ->
                           dict_get "Members" (server_counter t1)
                           = Some (VInt (z + mc)));
      [typeclasses eauto| |].
    { apply spec_lift_any. intros t1. unfold iadd_server_counter.
      destruct (counter_iadd _ _ _) as [c|] eqn:Hadd; simpl; [|done].
      intros [= <-]. split_and!; [|done|].
      - intros (? & ? & ? & ?). split_and!; try done.
        cbn. by eapply NoDup_counter_iadd.
      - intros z Hz. cbn. unfold counter_iadd in Hadd. rewrite Hz in Hadd.
        simpl in Hadd. injection Hadd as <-. apply dict_get_set_eq. }
    intros t1 (Hw1 & Hb1 & Hm1).
    eapply spec_bind with (Q := tallies_step t1); [typeclasses eauto| |].
    { destruct lightmode; cbn [negb].
      - by apply spec_ret; [typeclasses eauto|].
      - apply tally_guild_details_step. }
    intros t2 (Hw2 & Hb2 & Hm2).
    eapply spec_weaken; [apply tally_members_step|].
    intros t3 (Hw3 & Hb3 & Hm3). split_and!; [tauto| |].
    + rewrite Hb3, Hb2, Hb1. done.
    + intros z Hz. rewrite Hm3, Hm2. by apply Hm1.
Qed.

(** Facts about the guilds processed so far. *)
Lemma available_app gs1 gs2 : available (gs1 ++ gs2) = available gs1 ++ available gs2.
Proof. unfold available. apply List.filter_app. Qed.

Lemma available_singleton g :
  available [g] = if g_unavailable g then [] else [g].
Proof. unfold available. simpl. by destruct (g_unavailable g). Qed.

Lemma unique_users_snoc gs g :
  unique_users (gs ++ [g])
  = unique_users gs ∪ (if g_unavailable g then ∅ else member_ids g).
Proof.
  unfold unique_users. rewrite available_app, available_singleton, fmap_app.
  rewrite union_list_app_L. destruct (g_unavailable g); simpl.
  - done.
  - by rewrite (right_id_L ∅ (∪)).
Qed.

Lemma member_count_total_snoc gs g :
  member_count_total (gs ++ [g])
  = (member_count_total gs
     + if g_unavailable g then 0 else default 0 (g_member_count g))%Z.
Proof.
  unfold member_count_total. rewrite available_app, available_singleton.
  rewrite foldr_app.
  generalize (available gs). intros l.
  destruct (g_unavailable g); simpl.
  - lia.
  - induction l as [|x l IH]; simpl; [lia|]. rewrite IH. lia.
Qed.

Lemma members_entry_counter_get gs sc :
  dict_get "Members" sc = members_entry gs ->
  counter_get "Members" sc = VInt (member_count_total gs).
Proof.
  unfold counter_get, members_entry, member_count_total. intros ->.
  by destruct (available gs).
Qed.

Lemma guilds_tallied_snoc gs g t t' :
  guilds_tallied gs t -> guild_step g t t' -> guilds_tallied (gs ++ [g]) t'.
Proof.
  intros (Hw & Hb & Hm) (Hw' & Hb' & Hm').
  split_and!; [tauto| |].
  - by rewrite Hb', Hb, unique_users_snoc.
  - unfold members_entry in *.
    rewrite member_count_total_snoc, available_app, available_singleton.
    destruct (g_unavailable g).
    + rewrite Hm', Hm, app_nil_r, Z.add_0_r. done.
    + rewrite (Hm' (member_count_total gs)).
      * by destruct (available gs).
      * by apply members_entry_counter_get.
Qed.

Lemma tally_guilds_spec lightmode detailed gs t :
  guilds_tallied [] t ->
  spec any_world (guilds_tallied gs)
    (for_each gs (tally_guild lightmode detailed) t).
Proof.
  intros Ht.
  apply (spec_for_each_prefix any_world guilds_tallied); [done|].
  intros pre g t1 Ht1.
  eapply spec_weaken; [apply tally_guild_step|].
  intros t2. by apply guilds_tallied_snoc.
Qed.

(** ** Publishing a counter *)

Lemma keeps_publish_counter cat key cat' (c : list (string * pyval)) :
  cat' <> cat \/ key ∉ c.*1 ->
  frames (keeps cat key) (publish_counter cat' c).
Proof.
  intros Hne. unfold publish_counter.
  apply spec_for_each; [typeclasses eauto|done|].
  intros [k v] [] Hin _. apply keeps_setattr_ns. intros [-> ->].
  destruct Hne as [?|Hnot]; [done|]. apply Hnot.
  apply list_elem_of_fmap. by exists (key, v).
Qed.

Lemma setattr_ns_published cat key v w w' :
  setattr_ns cat key v w = (Ok tt, w') -> published w' cat key = Some v.
Proof.
  intros Hrun. destruct (has_category w cat) eqn:Hcat.
  - pose proof (published_setattr_ns w cat key v cat key) as Hpub.
    rewrite Hrun, Hcat in Hpub. by rewrite bool_decide_eq_true_2 in Hpub.
  - by rewrite setattr_ns_raises in Hrun.
Qed.

Lemma publish_counter_cons cat k v (c : list (string * pyval)) w :
  publish_counter cat ((k, v) :: c) w
  = bind (setattr_ns cat k v) (fun _ => publish_counter cat c) w.
Proof.
  unfold publish_counter. cbn [for_each]. unfold bind.
  by destruct (setattr_ns cat k v w) as [[[]|e] w1].
Qed.

(** A completed publishing loop has written every entry of a dictionary
    with distinct keys. *)
Lemma publish_counter_published cat (c : list (string * pyval)) k v : forall w w',
  NoDup c.*1 -> dict_get k c = Some v ->
  publish_counter cat c w = (Ok tt, w') ->
  published w' cat k = Some v.
Proof.
  induction c as [|[k0 v0] c IH]; intros w w'; [done|].
  cbn [fmap list_fmap fst dict_get]. rewrite NoDup_cons. intros [Hnot Hnd].
  rewrite publish_counter_cons. intros Hget Hrun.
  apply bind_inv_ok in Hrun as ([] & w1 & Hset & Hrest).
  destruct (decide (k = k0)) as [->|Hne].
  - injection Hget as ->.
    destruct (keeps_publish_counter cat k0 cat c (or_intror Hnot) w1)
      as [Hkeep _].
    rewrite Hrest in Hkeep. unfold keeps in Hkeep. cbn [snd] in Hkeep.
    rewrite Hkeep. by eapply setattr_ns_published.
  - by eapply IH.
Qed.

(** ** What a completed collection has tallied *)

Lemma before_guilds_set_counter k v t :
  before_guilds t -> before_guilds (set_counter (dict_set k v (counter t)) t).
Proof.
  intros (Hc & Hs & Hm & Ht & Hst). split_and!; try done.
  cbn. by apply NoDup_dict_set.
Qed.

Lemma before_guilds_tally_votes h t :
  before_guilds t -> spec any_world before_guilds (tally_votes h t).
Proof.
  intros Ht. unfold tally_votes.
  eapply spec_bind with (Q := fun _ => True); [typeclasses eauto| |].
  { intros w. rewrite get_votes_pure. by split. }
  intros vote_data _.
  destruct (py_truthy (if py_truthy vote_data then vote_data else VDict []));
    [|by apply spec_ret; [typeclasses eauto|]].
  eapply spec_bind with (Q := fun _ => True);
    [typeclasses eauto|by apply spec_lift_any|].
  intros monthly _.
  eapply spec_bind with (Q := before_guilds); [typeclasses eauto| |].
  { destruct (py_truthy monthly); [|by apply spec_ret; [typeclasses eauto|]].
    eapply spec_bind with (Q := fun _ => True);
      [typeclasses eauto|by apply spec_lift_any|].
    intros v _. apply spec_ret; [typeclasses eauto|].
    by apply before_guilds_set_counter. }
  intros t1 Ht1.
  eapply spec_bind with (Q := fun _ => True);
    [typeclasses eauto|by apply spec_lift_any|].
  intros points _.
  destruct (py_truthy points); [|by apply spec_ret; [typeclasses eauto|]].
  eapply spec_bind with (Q := fun _ => True);
    [typeclasses eauto|by apply spec_lift_any|].
  intros v _. apply spec_ret; [typeclasses eauto|].
  by apply before_guilds_set_counter.
Qed.

Lemma before_guilds_tallied t : before_guilds t -> guilds_tallied [] t.
Proof.
  intros (Hc & Hs & Hm & Ht & Hst). split_and!; [|by unfold bucket; rewrite Ht|done].
  split_and!; try done.
  - rewrite Ht. apply NoDup_nil_2.
  - rewrite Hst. apply not_elem_of_nil.
Qed.

Lemma collect_bot_data_spec h lightmode detailed topgg :
  spec any_world (guilds_collected (guilds h))
    (collect_bot_data h lightmode detailed topgg).
Proof.
  unfold collect_bot_data.
  assert (before_guilds empty_tallies) as H0.
  { split_and!; try done; apply NoDup_nil_2. }
  eapply spec_bind with (Q := before_guilds); [typeclasses eauto| |].
  { destruct topgg; [by apply before_guilds_tally_votes|].
    by apply spec_ret; [typeclasses eauto|]. }
  intros t1 Ht1.
  set (t2 := set_server_counter _ t1).
  assert (before_guilds t2) as Ht2.
  { destruct Ht1 as (Hc & Hs & Hm & Ht & Hst). subst t2.
    split_and!; try done; cbn.
    - by apply NoDup_dict_set.
    - by rewrite dict_get_set_ne. }
  eapply spec_bind with (Q := before_guilds); [typeclasses eauto| |].
  { apply spec_try_except; [typeclasses eauto| |].
    - eapply spec_bind with (Q := fun _ => True);
        [typeclasses eauto|by apply spec_lift_any|].
      intros ms _. apply spec_ret; [typeclasses eauto|].
      by apply before_guilds_set_counter.
    - intros e. destruct (is_overflow e);
        [by apply spec_ret; [typeclasses eauto|]
        |apply spec_raise; typeclasses eauto]. }
  intros t3 Ht3.
  eapply spec_bind; [typeclasses eauto| |].
  { apply tally_guilds_spec, before_guilds_tallied.
    by apply before_guilds_set_counter. }
  intros t4 ((Hc & Hs & Ht & Hst) & Hb & Hm).
  apply spec_ret; [typeclasses eauto|]. split_and!; cbn.
  - by apply NoDup_flatten_sets.
  - by apply NoDup_flatten_sets.
  - intros Hne. unfold bucket in Hb.
    destruct (dict_get "Unique Users" (temp_data t4)) as [s|] eqn:Hs';
      cbn in Hb; [|by rewrite Hb in Hne].
    subst s. by apply dict_get_flatten_sets.
  - by rewrite dict_get_flatten_sets_notin.
Qed.

(** ** Deduplication *)







(** ** Faults *)

#[global] Instance bot_frame_preorder : PreOrder bot_frame.
Proof.
  split; [by intros w|]. intros w1 w2 w3 H12 H23. unfold bot_frame in *.
  congruence.
Qed.

Lemma bot_frame_sleep d : frames bot_frame (sleep d).
Proof. by intros w. Qed.

Lemma bot_frame_log msg e : frames bot_frame (log_exception msg e).
Proof. by intros w. Qed.

(** [try: pass / except Exception: log.exception(msg)] returns normally,
    and when the block raises, the handler's log entry is all that is added
    to what the block had done. *)
Lemma try_except_log (pass : M unit) msg w :
  (try_except pass (fun e => log_exception msg e) w).1 = Ok tt
  /\ forall e w1, pass w = (Raise e, w1) ->
       try_except pass (fun e => log_exception msg e) w
       = (Ok tt, {| bot := bot w1; next_obj := next_obj w1;
                    trace := trace w1 ++ [EvLog msg e] |}).
Proof.
  unfold try_except. destruct (pass w) as [[[]|e] w1]; split; try done.
  by intros e' w1' [= <- <-].
Qed.




(** The collection phases only read the host and pause. *)
Lemma collect_bot_data_bot_frame h lightmode detailed topgg :
  frames bot_frame (collect_bot_data h lightmode detailed topgg).
Proof.
  apply frames_collect_bot_data;
    [typeclasses eauto|apply bot_frame_sleep].
Qed.

Lemma adventure_tally_bot_frame raw_accounts :
  frames bot_frame
    (raw_accounts_new <- flatten_accounts raw_accounts ;;
     tally_accounts raw_accounts_new).
Proof.
  unfold flatten_accounts, tally_accounts.
  repeat first [apply bot_frame_sleep | frame_step].
Qed.

(** ** Publishing never fails on an existing category *)

Lemma setattr_ns_run w cat key v :
  has_category w cat = true ->
  exists w', setattr_ns cat key v w = (Ok tt, w')
             /\ (forall c, has_category w' c = has_category w c)
             /\ trace w' = trace w.
Proof.
  intros Hcat. exists (setattr_ns cat key v w).2. split_and!.
  - pose proof (setattr_ns_ok w cat key v Hcat).
    by destruct (setattr_ns cat key v w) as [[[]|] ?].
  - intros c. apply has_category_setattr_ns.
  - apply trace_setattr_ns.
Qed.



Section Rounding.

Local Open Scope Z_scope.

(** ** The rounding error of [fl64] *)

(** The rounded quotient is within half a unit of the quotient. *)
Lemma round_half_even_div_error n d :
0 < d -> 2 * Z.abs (round_half_even_div n d * d - n) <= d.
Proof.
intros Hd. unfold round_half_even_div.
pose proof (Z.div_mod n d ltac:(lia)) as Hdiv.
pose proof (Z.mod_pos_bound n d Hd) as Hmod.
set (q := n / d) in *. set (r := n mod d) in *.
destruct (Z.ltb_spec (2 * r) d); [nia|].
destruct (Z.ltb_spec d (2 * r)); [nia|].
destruct (Z.even q); nia.
Qed.

Lemma pow2_pos k : 0 < 2 ^ k \/ k < 0.
Proof. destruct (Z.le_gt_cases 0 k); [left; by apply Z.pow_pos_nonneg|by right]. Qed.

(** The scaled quotient has at least 53 significant bits. *)
Lemma fl64_exponent_scaled a d :
0 < a -> 0 < d ->
let e := fl64_exponent a d in
2 ^ 52 * (d * 2 ^ Z.max 0 e) <= a * 2 ^ Z.max 0 (- e).
Proof.
intros Ha Hd. unfold fl64_exponent.
pose proof (Z.log2_spec a Ha) as [Hla _].
pose proof (Z.log2_spec d Hd) as [_ Hld].
pose proof (Z.log2_nonneg a) as Hla0.
pose proof (Z.log2_nonneg d) as Hld0.
set (la := Z.log2 a) in *. set (ld := Z.log2 d) in *.
set (e0 := la - ld - 53).
assert (2 ^ 53 = 2 * 2 ^ 52) as H53 by reflexivity.
destruct (Z.leb_spec (2 ^ 53 * d * 2 ^ Z.max 0 e0) (a * 2 ^ Z.max 0 (- e0)))
  as [Htest|Htest]; cbv zeta.
- (* e = e0 + 1 *)
  destruct (Z.le_gt_cases 0 e0) as [He|He].
  + rewrite !Z.max_r in * by lia. rewrite Z.max_l in * by lia.
    rewrite Z.pow_add_r by lia. change (2 ^ 1) with 2.
    rewrite Z.pow_0_r in *. nia.
  + destruct (Z.eq_dec e0 (-1)) as [He1|He1].
    * rewrite He1 in *. change (Z.max 0 (-1 + 1)) with 0.
      change (Z.max 0 (- (-1 + 1))) with 0.
      change (Z.max 0 (-1)) with 0 in Htest.
      change (Z.max 0 (- -1)) with 1 in Htest.
      change (2 ^ 1) with 2 in Htest. rewrite Z.pow_0_r in *. nia.
    * rewrite (Z.max_l 0 (e0 + 1)) by lia.
      rewrite (Z.max_r 0 (- (e0 + 1))) by lia.
      rewrite (Z.max_l 0 e0) in Htest by lia.
      rewrite (Z.max_r 0 (- e0)) in Htest by lia.
      replace (- e0) with (- (e0 + 1) + 1) in Htest by lia.
      rewrite Z.pow_add_r in Htest by lia. change (2 ^ 1) with 2 in Htest.
      rewrite Z.pow_0_r in *. nia.
- (* e = e0 *)
  destruct (Z.le_gt_cases 0 e0) as [He|He].
  + rewrite Z.max_r by lia. rewrite Z.max_l by lia. rewrite Z.pow_0_r.
    assert (2 ^ 52 * (2 ^ Z.succ ld * 2 ^ e0) = 2 ^ la) as Hpow.
    { rewrite <- !Z.pow_add_r by lia. f_equal. lia. }
    assert (0 < 2 ^ e0) by (apply Z.pow_pos_nonneg; lia).
    nia.
  + rewrite Z.max_l by lia. rewrite Z.max_r by lia. rewrite Z.pow_0_r.
    assert (2 ^ la * 2 ^ (- e0) = 2 ^ 52 * 2 ^ Z.succ ld) as Hpow.
    { rewrite <- !Z.pow_add_r by lia. f_equal. lia. }
    assert (0 < 2 ^ (- e0)) by (apply Z.pow_pos_nonneg; lia).
    nia.
Qed.

(** The integer content of the error bound: with [N / D] the scaled
  quotient and [m] its rounding, [|m D - N| 2^53 <= N]. *)
Lemma fl64_core a d :
0 < a -> 0 < d ->
let e := fl64_exponent a d in
let N := a * 2 ^ Z.max 0 (- e) in
let D := d * 2 ^ Z.max 0 e in
Z.abs (round_half_even_div N D * D - N) * 2 ^ 53 <= N.
Proof.
intros Ha Hd e N D.
pose proof (fl64_exponent_scaled a d Ha Hd) as Hscaled. cbv zeta in Hscaled.
fold e in Hscaled. fold N in Hscaled. fold D in Hscaled.
assert (0 < D) as HD.
{ subst D. apply Z.mul_pos_pos; [done|]. apply Z.pow_pos_nonneg; lia. }
pose proof (round_half_even_div_error N D HD) as Hround.
assert (2 ^ 53 = 2 * 2 ^ 52) as -> by reflexivity.
set (B := 2 ^ 52) in *. assert (0 < B) by (subst B; done).
nia.
Qed.

Local Open Scope Q_scope.

(** [fl64] rounds with a relative error of at most [2^-53]. *)
Lemma fl64_error x : Qabs (fl64 x - x) <= unit_roundoff * Qabs x.
Proof.
destruct x as [n dp]. unfold fl64. cbn [Qnum Qden].
destruct (Z.eqb_spec n 0) as [->|Hn].
- unfold Qle, Qabs, Qminus, Qplus, Qopp, Qmult, unit_roundoff. simpl. lia.
- set (a := Z.abs n). set (d := Z.pos dp).
  assert (0 < a)%Z as Ha by (subst a; lia).
  assert (0 < d)%Z as Hd by (subst d; lia).
  pose proof (fl64_core a d Ha Hd) as Hcore. cbv zeta in Hcore.
  set (e := fl64_exponent a d) in *.
  set (p := Z.max 0 (- e)) in *. set (q := Z.max 0 e) in *.
  set (m := round_half_even_div (a * 2 ^ p) (d * 2 ^ q)) in *.
  assert (0 < 2 ^ p)%Z as Hp by (apply Z.pow_pos_nonneg; subst p; lia).
  assert (0 < 2 ^ q)%Z as Hq by (apply Z.pow_pos_nonneg; subst q; lia).
  rewrite Qred_correct.
  unfold Qle, Qabs, Qminus, Qplus, Qopp, Qmult, unit_roundoff.
  cbn [Qnum Qden].
  rewrite !Pos2Z.inj_mul, Z2Pos.id by done. fold d.
  change (Z.pos (2 ^ 53)) with (2 ^ 53)%Z.
  set (P := (2 ^ p)%Z) in *. set (Qq := (2 ^ q)%Z) in *.
  set (B := (2 ^ 53)%Z) in *. assert (0 < B)%Z by (subst B; done).
  assert (Z.abs n = a) as Han by done.
  assert (Z.abs (Z.sgn n * m * Qq * d + - n * P)
          = Z.abs (m * (d * Qq) - a * P))%Z as Habs.
  { subst a. destruct (Z.sgn_spec n) as [[? ->]|[[? ->]|[? ->]]]; lia. }
  rewrite Habs, Z.mul_1_l, Han.
  nia.
Qed.

Lemma percent_tolerance_small : percent_tolerance < 1 # 10 ^ 13.
Proof. reflexivity. Qed.

Lemma fl64_100 : fl64 (inject_Z 100) = 100.
Proof. reflexivity. Qed.

(** [fl(fl(x) * 100)] against [100 x]. *)
Lemma percent_error x :
Qabs (fl64 (fl64 x * 100) - 100 * x) <= percent_tolerance * Qabs x.
Proof.
pose proof (fl64_error x) as H1.
pose proof (fl64_error (fl64 x * 100)) as H2.
pose proof (Qabs_nonneg x) as Hx.
assert (Qabs (fl64 x * 100) <= 100 * (Qabs x + unit_roundoff * Qabs x)) as Hb.
{ rewrite Qabs_Qmult. change (Qabs 100) with 100.
  assert (Qabs (fl64 x) <= Qabs x + unit_roundoff * Qabs x) as Ha.
  { pose proof (Qle_Qabs x) as Hle.
    pose proof (Qle_Qabs (- x)) as Hle'. rewrite Qabs_opp in Hle'.
    apply Qabs_Qle_condition in H1. apply Qabs_Qle_condition. lra. }
  lra. }
set (a1 := fl64 x) in *. set (wp := fl64 (a1 * 100)) in *.
apply Qabs_Qle_condition in H1, H2. apply Qabs_Qle_condition.
unfold percent_tolerance.
change unit_roundoff with (1 # 9007199254740992) in *.
set (ax := Qabs x) in *. set (b := Qabs (a1 * 100)) in *.
split; lra.
Qed.

Lemma shares_sum_one W L :
(W + L <> 0)%Z ->
inject_Z W / inject_Z (W + L) + inject_Z L / inject_Z (W + L) == 1.
Proof.
intros HT. rewrite inject_Z_plus.
assert (~ inject_Z W + inject_Z L == 0) as Hne.
{ rewrite <- inject_Z_plus. change 0 with (inject_Z 0).
  by rewrite inject_Z_injective. }
field. exact Hne.
Qed.

Lemma nonneg_shares W L :
(0 <= W)%Z -> (0 <= L)%Z -> (W + L <> 0)%Z ->
Qabs (inject_Z W / inject_Z (W + L)) + Qabs (inject_Z L / inject_Z (W + L))
== 1.
Proof.
intros HW HL HT.
assert (0 < inject_Z (W + L)) as Hpos.
{ change 0 with (inject_Z 0). rewrite <- Zlt_Qlt. lia. }
assert (0 <= inject_Z W) as HW'
  by (change 0 with (inject_Z 0); by rewrite <- Zle_Qle).
assert (0 <= inject_Z L) as HL'
  by (change 0 with (inject_Z 0); by rewrite <- Zle_Qle).
rewrite !Qabs_pos; [by apply shares_sum_one| |].
- apply Qle_shift_div_l; [done|]. by rewrite Qmult_0_l.
- apply Qle_shift_div_l; [done|]. by rewrite Qmult_0_l.
Qed.

(** The two percentages of an adventure total: their sum is 100 up to the
  rounding of one division and one multiplication each. *)
Lemma percent_sum_error W L :
(W + L <> 0)%Z ->
let x := inject_Z W / inject_Z (W + L) in
let y := inject_Z L / inject_Z (W + L) in
let wp := fl64 (fl64 x * 100) in
let lp := fl64 (fl64 y * 100) in
Qabs (wp + lp - 100) <= percent_tolerance * (Qabs x + Qabs y)
/\ ((0 <= W)%Z -> (0 <= L)%Z -> Qabs (wp + lp - 100) <= percent_tolerance).
Proof.
intros HT x y wp lp.
assert (Qabs (wp + lp - 100) <= percent_tolerance * (Qabs x + Qabs y)) as Hgen.
{ pose proof (percent_error x) as Hx. pose proof (percent_error y) as Hy.
  fold wp in Hx. fold lp in Hy.
  pose proof (shares_sum_one W L HT) as Hone. fold x y in Hone.
  apply Qabs_Qle_condition in Hx, Hy. apply Qabs_Qle_condition.
  set (ax := Qabs x) in *. set (ay := Qabs y) in *.
  set (tol := percent_tolerance) in *.
  split; lra. }
split; [exact Hgen|]. intros HW HL.
eapply Qle_trans; [exact Hgen|].
pose proof (nonneg_shares W L HW HL HT) as Hone. fold x y in Hone.
rewrite Hone. lra.
Qed.

End Rounding.

(** ** The adventure collector *)

Lemma getattr_stats_inv cat w ns w' :
  getattr_stats cat w = (Ok ns, w') -> w' = w.
Proof.
  unfold getattr_stats, bind, get_bot, raise, ret.
  destruct (stats (bot w)) as [st|]; [|done].
  destruct (cats st !! cat); [|done]. by intros [= _ <-].
Qed.

Lemma getattr_ns_inv cat key w v w' :
  getattr_ns cat key w = (Ok v, w') ->
  w' = w /\ published w cat key = Some v.
Proof.
  unfold getattr_ns, getattr_stats, bind, get_bot, raise, ret, published.
  destruct (stats (bot w)) as [st|]; [|done]. simpl.
  destruct (cats st !! cat) as [ns|]; [|done]. simpl.
  destruct (ns_dict ns !! key); [|done]. by intros [= <- <-].
Qed.

Lemma setattr_ns_other cat key v w w' key' :
  setattr_ns cat key v w = (Ok tt, w') -> key <> key' ->
  published w' cat key' = published w cat key'.
Proof.
  intros Hrun Hne.
  pose proof (published_setattr_ns w cat key v cat key') as Hpub.
  rewrite Hrun in Hpub. cbn [snd] in Hpub. rewrite Hpub.
  rewrite bool_decide_eq_false_2; [by rewrite andb_false_r|].
  by intros [_ ?].
Qed.

(** What a completed publication of the adventure counters has written. *)
Lemma publish_adventure_inv c w w' :
  publish_adventure c w = (Ok tt, w') ->
  exists wins losses total win_per loss_per win_pct loss_pct,
    py_add wins losses = Ok total
    /\ (if py_truthy total
        then py_truediv wins total = Ok win_per
             /\ py_truediv losses total = Ok loss_per
        else win_per = VInt 0 /\ loss_per = VInt 0)
    /\ py_mul win_per (VInt 100) = Ok win_pct
    /\ py_mul loss_per (VInt 100) = Ok loss_pct
    /\ published w' "adventure" "Wins" = Some wins
    /\ published w' "adventure" "Losses" = Some losses
    /\ published w' "adventure" "Adventures" = Some total
    /\ published w' "adventure" "Win Percentage" = Some win_pct
    /\ published w' "adventure" "Loss Percentage" = Some loss_pct.
Proof.
  unfold publish_adventure. intros Hrun.
  apply bind_inv_ok in Hrun as ([] & w1 & _ & Hrun).
  apply bind_inv_ok in Hrun as ([] & w2 & _ & Hrun).
  apply bind_inv_ok in Hrun as ([] & w3 & _ & Hrun).
  apply bind_inv_ok in Hrun as (wins & ? & [-> Hwins]%getattr_ns_inv & Hrun).
  apply bind_inv_ok in Hrun as (losses & ? & [-> Hlosses]%getattr_ns_inv & Hrun).
  apply bind_inv_ok in Hrun as (total & ? & Htotal & Hrun).
  unfold lift in Htotal. injection Htotal as Htotal <-.
  apply bind_inv_ok in Hrun as ([win_per loss_per] & w4 & Hpers & Hrun).
  assert (w4 = w3
          /\ if py_truthy total
             then py_truediv wins total = Ok win_per
                  /\ py_truediv losses total = Ok loss_per
             else win_per = VInt 0 /\ loss_per = VInt 0) as [-> Hper].
  { destruct (py_truthy total).
    - apply bind_inv_ok in Hpers as (wins' & ? & [-> Hw']%getattr_ns_inv & Hpers).
      apply bind_inv_ok in Hpers as (wp & ? & Hwp & Hpers).
      unfold lift in Hwp. injection Hwp as Hwp <-.
      apply bind_inv_ok in Hpers as (losses' & ? & [-> Hl']%getattr_ns_inv & Hpers).
      apply bind_inv_ok in Hpers as (lp & ? & Hlp & Hpers).
      unfold lift in Hlp. injection Hlp as Hlp <-.
      unfold ret in Hpers. injection Hpers as <- <- <-.
      assert (wins' = wins) as -> by congruence.
      assert (losses' = losses) as -> by congruence. done.
    - unfold ret in Hpers. by injection Hpers as <- <- <-. }
  apply bind_inv_ok in Hrun as (? & ? & ->%getattr_stats_inv & Hrun).
  apply bind_inv_ok in Hrun as ([] & w5 & Hset5 & Hrun).
  apply bind_inv_ok in Hrun as (? & ? & ->%getattr_stats_inv & Hrun).
  apply bind_inv_ok in Hrun as (win_pct & ? & Hwpct & Hrun).
  unfold lift in Hwpct. injection Hwpct as Hwpct <-.
  apply bind_inv_ok in Hrun as ([] & w6 & Hset6 & Hrun).
  apply bind_inv_ok in Hrun as (? & ? & ->%getattr_stats_inv & Hrun).
  apply bind_inv_ok in Hrun as (loss_pct & ? & Hlpct & Hrun).
  unfold lift in Hlpct. injection Hlpct as Hlpct <-.
  cbn [fst snd] in *.
  exists wins, losses, total, win_per, loss_per, win_pct, loss_pct.
  split_and!; try done.
  - rewrite (setattr_ns_other _ _ _ _ _ "Wins" Hrun) by done.
    rewrite (setattr_ns_other _ _ _ _ _ "Wins" Hset6) by done.
    by rewrite (setattr_ns_other _ _ _ _ _ "Wins" Hset5) by done.
  - rewrite (setattr_ns_other _ _ _ _ _ "Losses" Hrun) by done.
    rewrite (setattr_ns_other _ _ _ _ _ "Losses" Hset6) by done.
    by rewrite (setattr_ns_other _ _ _ _ _ "Losses" Hset5) by done.
  - rewrite (setattr_ns_other _ _ _ _ _ "Adventures" Hrun) by done.
    rewrite (setattr_ns_other _ _ _ _ _ "Adventures" Hset6) by done.
    by eapply setattr_ns_published.
  - rewrite (setattr_ns_other _ _ _ _ _ "Win Percentage" Hrun) by done.
    by eapply setattr_ns_published.
  - by eapply setattr_ns_published.
Qed.

(** C4.  When the adventure collector completes its pass, it has published
    Adventures = Wins + Losses.  For integer counters: if the total is 0,
    both percentages are the integer 0; otherwise both are floats whose
    sum differs from 100 by at most the rounding of one division and one
    multiplication each, scaled by the size of the two shares, which for
    non-negative counters is less than 1e-13. *)
Theorem adventure_percentages adv w w' :
  adventure_pass adv w = (Ok tt, w') ->
  exists wins losses total win_pct loss_pct,
    published w' "adventure" "Wins" = Some wins
    /\ published w' "adventure" "Losses" = Some losses
    /\ published w' "adventure" "Adventures" = Some total
    /\ published w' "adventure" "Win Percentage" = Some win_pct
    /\ published w' "adventure" "Loss Percentage" = Some loss_pct
    /\ py_add wins losses = Ok total
    /\ forall W L : Z, wins = VInt W -> losses = VInt L ->
         total = VInt (W + L)
         /\ ((W + L = 0)%Z -> win_pct = VInt 0 /\ loss_pct = VInt 0)
         /\ ((W + L <> 0)%Z ->
             exists wp lp : Q,
               win_pct = VFloat wp /\ loss_pct = VFloat lp
               /\ (Qabs (wp + lp - 100)
                   <= percent_tolerance
                      * (Qabs (inject_Z W / inject_Z (W + L))
                         + Qabs (inject_Z L / inject_Z (W + L))))%Q
               /\ ((0 <= W)%Z -> (0 <= L)%Z ->
                   (Qabs (wp + lp - 100) <= percent_tolerance)%Q
                   /\ (Qabs (wp + lp - 100) < 1 # 10 ^ 13)%Q)).
Proof.
  unfold adventure_pass. intros Hrun.
  apply bind_inv_ok in Hrun as (raw & w1 & _ & Hrun).
  apply bind_inv_ok in Hrun as (new & w2 & _ & Hrun).
  apply bind_inv_ok in Hrun as (c & w3 & _ & Hrun).
  apply publish_adventure_inv in Hrun
    as (wins & losses & total & win_per & loss_per & win_pct & loss_pct
        & Htotal & Hper & Hwpct & Hlpct & Hw & Hl & Ha & Hwp & Hlp).
  exists wins, losses, total, win_pct, loss_pct. split_and!; try done.
  intros W L -> ->. cbn in Htotal. injection Htotal as <-.
  cbn [py_truthy] in Hper. split_and!; [done| |].
  - intros Hzero. rewrite Hzero in Hper. cbn in Hper. destruct Hper as [-> ->].
    cbn in Hwpct, Hlpct. by injection Hwpct as <-; injection Hlpct as <-.
  - intros Hne. destruct (Z.eqb_spec (W + L) 0) as [|_]; [done|].
    cbn [negb] in Hper. destruct Hper as [Hwin Hloss].
    unfold py_truediv in Hwin, Hloss. cbn [as_num num_is_zero] in Hwin, Hloss.
    destruct (Z.eqb_spec (W + L) 0) as [|_]; [done|].
    injection Hwin as <-. injection Hloss as <-.
    unfold py_mul in Hwpct, Hlpct. cbn [as_num to_float] in Hwpct, Hlpct.
    rewrite fl64_100 in Hwpct, Hlpct.
    injection Hwpct as <-. injection Hlpct as <-.
    destruct (percent_sum_error W L Hne) as [Hgen Hnonneg].
    eexists _, _. split_and!; [done|done|exact Hgen|].
    intros HW HL. split; [by apply Hnonneg|].
    eapply Qle_lt_trans; [by apply Hnonneg|]. apply percent_tolerance_small.
Qed.

(** ** The adventure counters are numbers *)


Lemma number_add_ok a b :
  is_number a -> is_number b -> exists x, py_add a b = Ok x /\ is_number x.
Proof. destruct a, b; try done; intros _ _; by eexists. Qed.







(** ** Publishing the adventure counters never fails *)

Lemma number_label_setattr w key v key' :
  is_number v ->
  number_label w key' ->
  number_label (setattr_ns "adventure" key v w).2 key'.
Proof.
  intros Hv (x & Hx & Hnum). unfold number_label.
  rewrite published_setattr_ns.
  destruct (has_category w "adventure" && _); by eauto.
Qed.

Lemma publish_numbers_run (c : list (string * pyval)) : forall w,
  has_category w "adventure" = true -> number_counter c ->
  exists w', publish_counter "adventure" c w = (Ok tt, w')
             /\ has_category w' "adventure" = true
             /\ forall key, number_label w key -> number_label w' key.
Proof.
  induction c as [|[k v] c IH]; intros w Hcat Hc.
  - by exists w.
  - apply Forall_cons in Hc as [Hv Hc]. rewrite publish_counter_cons.
    destruct (setattr_ns_run w "adventure" k v Hcat) as (w1 & Hset & Hc1 & _).
    destruct (IH w1) as (w2 & Hrest & Hc2 & Hn2); [by rewrite Hc1|done|].
    exists w2. erewrite bind_ok by exact Hset. split_and!; [done..|].
    intros key Hkey. apply Hn2.
    replace w1 with (setattr_ns "adventure" k v w).2 by (by rewrite Hset).
    by apply number_label_setattr.
Qed.

Lemma setattr_number_run w key v :
  has_category w "adventure" = true -> is_number v ->
  exists w', setattr_ns "adventure" key v w = (Ok tt, w')
             /\ has_category w' "adventure" = true
             /\ number_label w' key
             /\ forall key', number_label w key' -> number_label w' key'.
Proof.
  intros Hcat Hv.
  destruct (setattr_ns_run w "adventure" key v Hcat) as (w1 & Hset & Hc1 & _).
  exists w1. split_and!; [done|by rewrite Hc1| |].
  - exists v. split; [|done]. by eapply setattr_ns_published.
  - intros key' Hk.
    replace w1 with (setattr_ns "adventure" key v w).2 by (by rewrite Hset).
    by apply number_label_setattr.
Qed.

Lemma getattr_ns_run cat key w v :
  published w cat key = Some v -> getattr_ns cat key w = (Ok v, w).
Proof.
  unfold published, getattr_ns, getattr_stats, bind, get_bot, raise, ret.
  destruct (stats (bot w)) as [st|]; [|done]. simpl.
  destruct (cats st !! cat) as [ns|]; [|done]. simpl. by intros ->.
Qed.

Lemma getattr_stats_run cat w :
  has_category w cat = true ->
  exists ns, getattr_stats cat w = (Ok ns, w).
Proof.
  unfold has_category, getattr_stats, bind, get_bot, raise, ret.
  destruct (stats (bot w)) as [st|]; [|done].
  intros [ns Hns]%bool_decide_eq_true. rewrite Hns. by eauto.
Qed.

Lemma number_truediv_ok a b :
  is_number a -> is_number b -> py_truthy b = true ->
  exists x, py_truediv a b = Ok x /\ is_number x.
Proof.
  destruct a, b; try done; intros _ _ Hb; unfold py_truediv;
    cbn [as_num num_is_zero py_truthy] in *;
    apply negb_true_iff in Hb; rewrite Hb; by eexists.
Qed.

Lemma number_mul100_ok a :
  is_number a -> exists x, py_mul a (VInt 100) = Ok x.
Proof. destruct a; try done; intros _; by eexists. Qed.

Lemma publish_adventure_run c w :
  has_category w "adventure" = true -> number_counter c ->
  exists w', publish_adventure c w = (Ok tt, w').
Proof.
  intros Hcat Hc. unfold publish_adventure.
  destruct (setattr_number_run w "Wins" (VInt 0) Hcat I)
    as (w1 & H1 & Hc1 & Hw1 & _).
  destruct (setattr_number_run w1 "Losses" (VInt 0) Hc1 I)
    as (w2 & H2 & Hc2 & Hl2 & Hk2).
  destruct (publish_numbers_run c w2 Hc2 Hc) as (w3 & H3 & Hc3 & Hk3).
  destruct (Hk3 "Wins" (Hk2 "Wins" Hw1)) as (wins & Hwins & Hnw).
  destruct (Hk3 "Losses" Hl2) as (losses & Hlosses & Hnl).
  destruct (number_add_ok wins losses Hnw Hnl) as (total & Htotal & Hnt).
  erewrite bind_ok by exact H1. erewrite bind_ok by exact H2.
  erewrite bind_ok by exact H3.
  erewrite bind_ok by (by apply getattr_ns_run).
  erewrite bind_ok by (by apply getattr_ns_run).
  erewrite bind_ok by (unfold lift; rewrite Htotal; reflexivity).
  assert (exists win_per loss_per,
            (if py_truthy total
             then
               wins <- getattr_ns "adventure" "Wins" ;;
               win_per <- lift (py_truediv wins total) ;;
               losses <- getattr_ns "adventure" "Losses" ;;
               loss_per <- lift (py_truediv losses total) ;;
               ret (win_per, loss_per)
             else ret (VInt 0, VInt 0)) w3 = (Ok (win_per, loss_per), w3)
            /\ is_number win_per /\ is_number loss_per)
    as (win_per & loss_per & Hpers & Hnwp & Hnlp).
  { destruct (py_truthy total) eqn:Htruthy; [|by exists (VInt 0), (VInt 0)].
    destruct (number_truediv_ok wins total Hnw Hnt Htruthy) as (wp & Hwp & ?).
    destruct (number_truediv_ok losses total Hnl Hnt Htruthy) as (lp & Hlp & ?).
    exists wp, lp. split; [|done].
    erewrite bind_ok by (by apply getattr_ns_run).
    erewrite bind_ok by (unfold lift; rewrite Hwp; reflexivity).
    erewrite bind_ok by (by apply getattr_ns_run).
    erewrite bind_ok by (unfold lift; rewrite Hlp; reflexivity).
    done. }
  erewrite bind_ok by exact Hpers. cbn [fst snd].
  destruct (getattr_stats_run "adventure" w3 Hc3) as (ns3 & Hns3).
  erewrite bind_ok by exact Hns3.
  destruct (setattr_ns_run w3 "adventure" "Adventures" total Hc3)
    as (w4 & H4 & Hc4 & _).
  erewrite bind_ok by exact H4.
  destruct (getattr_stats_run "adventure" w4) as (ns4 & Hns4);
    [by rewrite Hc4|].
  erewrite bind_ok by exact Hns4.
  destruct (number_mul100_ok win_per Hnwp) as (win_pct & Hwpct).
  erewrite bind_ok by (unfold lift; rewrite Hwpct; reflexivity).
  destruct (setattr_ns_run w4 "adventure" "Win Percentage" win_pct)
    as (w5 & H5 & Hc5 & _); [by rewrite Hc4|].
  erewrite bind_ok by exact H5.
  destruct (getattr_stats_run "adventure" w5) as (ns5 & Hns5);
    [by rewrite Hc5, Hc4|].
  erewrite bind_ok by exact Hns5.
  destruct (number_mul100_ok loss_per Hnlp) as (loss_pct & Hlpct).
  erewrite bind_ok by (unfold lift; rewrite Hlpct; reflexivity).
  destruct (setattr_ns_run w5 "adventure" "Loss Percentage" loss_pct)
    as (w6 & H6 & _); [by rewrite Hc5, Hc4|].
  by exists w6.
Qed.


(** ** Fault containment *)



(** ** The statements on concrete inputs *)

Lemma run_eq {A} (m : M A) w a :
  (m w).1 = Ok a -> m w = (Ok a, (m w).2).
Proof. destruct (m w) as [r w']. simpl. by intros ->. Qed.

Lemma ready_world_initialised : initialised ready_world = true.
Proof. vm_compute. reflexivity. Qed.




(** C3: the endpoint cannot be reached.  The transport error is no
    timeout and [get_votes] raises it instead of returning an empty
    mapping. *)
Lemma get_votes_transport_error_counterexample :
  py_truthy (api_key [("api_key", VStr "token")]) = true
  /\ http_get unreachable_votes_host (user_id unreachable_votes_host)
       (VStr "token")
     = HttpRaise ClientConnectionError
  /\ (get_votes unreachable_votes_host ready_world).1
     = Raise ClientConnectionError
  /\ (get_votes unreachable_votes_host ready_world).1 <> Ok (VDict []).
Proof. vm_compute. done. Qed.

Lemma get_votes_cases_witness :
  (get_votes plain_host ready_world).1
  = Ok (VDict [("points", VInt 7); ("monthlyPoints", VInt 0)]).
Proof.
  destruct (get_votes_cases plain_host ready_world
              [("api_key", VStr "token")] eq_refl) as [_ Hkey].
  destruct (Hkey eq_refl) as (_ & _ & Hbody & _).
  by apply Hbody.
Defined.

(** C4: one user with one win and two losses, one without adventures. *)
Lemma adventure_percentages_witness :
  exists wins losses total,
    published (write_adventure_data plain_host ready_world).2
      "adventure" "Adventures" = Some total
    /\ py_add wins losses = Ok total.
Proof.
  set (adv := {| adv_all_users :=
                   Ok [ (1%Z, [("adventures",
                                 VDict [("wins", VInt 1); ("loses", VInt 2)])]);
                        (2%Z, [("rebirths", VInt 3)]) ] |}).
  destruct (adventure_percentages adv ready_world
              (adventure_pass adv ready_world).2)
    as (wins & losses & total & win_pct & loss_pct
        & _ & _ & Htotal & _ & _ & Hadd & _).
  - apply run_eq. vm_compute. reflexivity.
  - exists wins, losses, total. split; [|exact Hadd].
    rewrite <- Htotal. vm_compute. reflexivity.
Defined.

(** C5: two active players and one player in all.  The collector publishes
    the difference, which is negative. *)
Lemma inactive_players_negative_counterexample :
  length (active_players more_active_host) = 2%nat
  /\ length (all_players more_active_host) = 1%nat
  /\ published (write_audio_data more_active_host ready_world).2
       "audio" "Inactive Music Players"
     = Some (VInt (-1))
  /\ ~ (0 <= -1)%Z.
Proof. vm_compute. split_and!; try done. Qed.

Lemma inactive_music_players_witness :
  published (write_audio_data plain_host ready_world).2
    "audio" "Inactive Music Players"
  = Some (VInt (inactive_players plain_host)).
Proof.
  refine (proj1 (inactive_music_players plain_host ready_world
                   (match collect_audio plain_host with
                    | Ok c => c
                    | Raise _ => []
                    end) eq_refl _ _)).
  - vm_compute. reflexivity.
  - vm_compute. reflexivity.
Defined.

(** C6: three accounts, iterated with the batch size of the source. *)
Lemma currency_in_circulation_is_sum_witness :
  published (write_currency_data plain_host ready_world).2
    "currency" "Currency In Circulation"
  = Some (VInt (sum_balances example_accounts)).
Proof.
  refine (proj2 (currency_in_circulation_is_sum 50 plain_host ready_world
                   example_accounts _ eq_refl _ _)).
  - lia.
  - repeat apply Forall_cons_2; [..|apply Forall_nil_2];
      eexists; reflexivity.
  - vm_compute. reflexivity.
Defined.



(** C8: a pass in light mode writes the guild total, which is none of the
    unique-user, bot and human counts, shard latencies or currency. *)
Lemma light_mode_writes_guild_total_counterexample :
  get_set_lightmode light_host = Ok true
  /\ published ready_world "guilds" "Total" = None
  /\ published (run_events light_host ready_world).2 "guilds" "Total"
     = Some (VInt 1)
  /\ ~ named_light_label "guilds" "Total".
Proof.
  split_and!; [reflexivity|by vm_compute|by vm_compute|].
  intros [[? _]|[?|?]]; discriminate.
Qed.

Lemma light_mode_pass_frame_witness :
  light_frame ready_world (run_events light_host ready_world).2.
Proof. apply light_mode_pass_frame. reflexivity. Defined.



(** C10: the bot after a first call and a collection cycle. *)
Lemma init_bot_stats_idempotent_witness :
  init_bot_stats (run_events plain_host ready_world).2
  = (Ok tt, (run_events plain_host ready_world).2).
Proof.
  apply init_bot_stats_idempotent. vm_compute. reflexivity.
Defined.

(** * Further properties of the module *)

(** ** Initialisation *)

#[global] Instance init_frame_preorder : PreOrder init_frame.
Proof.
  split.
  - intros w. unfold init_frame. split_and!; done.
  - intros w1 w2 w3 (Hp & Hc & Hn & Hd & Ht & He & Htr)
      (Hp' & Hc' & Hn' & Hd' & Ht' & He' & Htr').
    unfold init_frame. split_and!; intros; try (by eauto); try congruence.
    rewrite Hn', Hn; done.
Qed.

(** A block [b = bot; f b; rest] as the block [b = bot; f b] followed by
    [rest]. *)
Lemma spec_get_bot_block (R : relation world) `{!PreOrder R} {A B}
    (Q : B -> Prop) (f : Red -> M A) (k : A -> M B) :
  frames R (bind get_bot f) -> (forall a, spec R Q (k a)) ->
  spec R Q (bind get_bot (fun b => bind (f b) k)).
Proof.
  intros Hf Hk w.
  change (bind get_bot (fun b => bind (f b) k) w)
    with (bind (bind get_bot f) k w).
  revert w. eapply (spec_bind R); [exact Hf|]. intros a _. apply Hk.
Qed.

Lemma init_category_init_frame stat_obj :
  stat_obj ∈ bot_stats -> frames init_frame (init_category stat_obj).
Proof.
  intros Hin w. split; [|done]. unfold init_category, bind, get_bot.
  destruct (stats (bot w)) as [st|] eqn:Hst; [|reflexivity].
  destruct (cats st !! stat_obj) as [ns|] eqn:Hns; [reflexivity|].
  cbn. unfold init_frame, published, category. cbn. rewrite Hst. cbn.
  split_and!; try done.
  - intros cat key. destruct (decide (stat_obj = cat)) as [->|Hne].
    + by rewrite lookup_insert_eq, Hns.
    + by rewrite lookup_insert_ne.
  - intros cat ns Hc. destruct (decide (stat_obj = cat)) as [->|Hne].
    + congruence.
    + by rewrite lookup_insert_ne.
  - intros cat Hc. rewrite lookup_insert_ne; [done|]. by intros ->.
Qed.

Lemma init_bot_stats_init_frame : frames init_frame init_bot_stats.
Proof.
  unfold init_bot_stats.
  apply spec_get_bot_block; [typeclasses eauto| |intros _].
  { intros w0. split; [|done]. unfold bind, get_bot.
    destruct (stats (bot w0)) as [st|] eqn:Hst; [reflexivity|].
    cbn. unfold init_frame, published, category. cbn. rewrite Hst. cbn.
    split_and!; done. }
  eapply (spec_bind init_frame) with (Q := fun _ => True).
  { apply spec_for_each; [typeclasses eauto|done|].
    intros stat_obj [] Hin _. by apply init_category_init_frame. }
  intros _ _.
  apply spec_get_bot_block; [typeclasses eauto| |intros _].
  { intros w0. split; [|done]. unfold bind, get_bot.
    destruct (stats (bot w0)) as [st|] eqn:Hst; [|reflexivity].
    destruct (to_dict st) as [td|] eqn:Htd; [reflexivity|].
    cbn. unfold init_frame, published, category. cbn. rewrite Hst. cbn.
    split_and!; try done. congruence. }
  apply spec_get_bot_block; [typeclasses eauto| |intros _].
  { intros w0. split; [|done]. unfold bind, get_bot.
    destruct (_stats_task (bot w0)) as [t|] eqn:Ht; [reflexivity|].
    cbn. unfold init_frame, published, category. cbn.
    split_and!; try done. congruence. }
  intros w0. split; [|done]. unfold bind, get_bot.
  destruct (_stats_ready (bot w0)) as [t|] eqn:Ht; [reflexivity|].
  cbn. unfold init_frame, published, category. cbn.
  split_and!; try done. congruence.
Qed.

(** X1.  [init_bot_stats] only adds what is missing, on any bot object:
    every published value, every category namespace, [to_dict], task
    handle and ready event that exists before the call is the same object
    with the same contents after it, attributes of [bot.stats] outside the
    nine categories are neither added nor removed, and nothing is
    logged. *)
Theorem init_bot_stats_keeps w : init_frame w (init_bot_stats w).2.
Proof. apply init_bot_stats_init_frame. Qed.

(** X2.  On any bot object, with all, some or none of the attributes,
    [init_bot_stats] returns normally, and afterwards [bot.stats] with its
    nine categories and [to_dict], [bot._stats_task] and
    [bot._stats_ready] all exist. *)
Theorem init_bot_stats_establishes w :
  (init_bot_stats w).1 = Ok tt /\ initialised (init_bot_stats w).2 = true.
Proof. apply init_bot_stats_initialised. Qed.

Lemma published_category w cat key :
  published w cat key = category w cat ≫= (fun ns => ns_dict ns !! key).
Proof.
  unfold published, category. by destruct (stats (bot w)) as [st|].
Qed.

Lemma has_category_category w cat :
  has_category w cat = true <-> is_Some (category w cat).
Proof.
  unfold has_category, category. destruct (stats (bot w)) as [st|]; cbn.
  - by rewrite bool_decide_eq_true.
  - split; [done|]. by intros [? ?].
Qed.

Lemma _get_dict_lookup w d cat :
  _get_dict (bot w) = Ok d -> d !! cat = ns_dict <$> category w cat.
Proof.
  unfold _get_dict, category. destruct (stats (bot w)) as [st|]; [|done].
  intros [= <-]. cbn. by rewrite lookup_fmap.
Qed.

(** X3.  What [bot.stats.to_dict()] returns after [init_bot_stats]: a
    category that existed keeps its attribute dictionary, each of the nine
    categories that was missing is there and empty, and no other key
    appears.  On a bot without [stats] the export is the nine categories,
    each empty. *)
Theorem init_bot_stats_export w :
  exists d,
    _get_dict (bot (init_bot_stats w).2) = Ok d
    /\ forall cat,
         d !! cat
         = match category w cat with
           | Some ns => Some (ns_dict ns)
           | None => if bool_decide (cat ∈ bot_stats) then Some ∅ else None
           end.
Proof.
  destruct (init_bot_stats_initialised w) as [_ Hinit].
  destruct (init_bot_stats_init_frame w) as [(Hpub & Hcat & Hnew & _) _].
  set (w' := (init_bot_stats w).2) in *.
  assert (exists st, stats (bot w') = Some st) as [st Hst].
  { unfold initialised in Hinit. destruct (stats (bot w')); [by eauto|].
    by rewrite andb_false_r in Hinit. }
  exists (ns_dict <$> cats st). split; [unfold _get_dict; by rewrite Hst|].
  intros cat.
  assert (_get_dict (bot w') = Ok (ns_dict <$> cats st)) as Hd
    by (unfold _get_dict; by rewrite Hst).
  rewrite (_get_dict_lookup w' _ cat Hd).
  destruct (category w cat) as [ns|] eqn:Hc.
  - by rewrite (Hcat _ _ Hc).
  - case_bool_decide as Hin.
    + assert (has_category w' cat = true) as Hhas.
      { unfold initialised in Hinit.
        apply andb_prop in Hinit as [[[Hall _]%andb_prop _]%andb_prop _].
        rewrite forallb_forall in Hall. apply Hall. by apply list_elem_of_In. }
      apply has_category_category in Hhas as [ns' Hns'].
      rewrite Hns'. cbn. f_equal. apply map_eq. intros key.
      rewrite lookup_empty.
      specialize (Hpub cat key). rewrite !published_category in Hpub.
      by rewrite Hns', Hc in Hpub.
    + by rewrite (Hnew _ Hin), Hc.
Qed.

(** ** The export *)

(** X4.  After a successful [setattr(bot.stats.<cat>, key, v)],
    [bot.stats.to_dict()] is what it was before with the entry [key] of
    the category's dictionary set to [v]; every other entry of every
    category is the same. *)
Theorem setattr_then_to_dict cat key v w w' :
  setattr_ns cat key v w = (Ok tt, w') ->
  exists d ns,
    _get_dict (bot w) = Ok d /\ d !! cat = Some ns
    /\ _get_dict (bot w') = Ok (<[cat := <[key := v]> ns]> d).
Proof.
  unfold setattr_ns, bind, get_bot, _get_dict.
  destruct (stats (bot w)) as [st|]; [|done].
  destruct (cats st !! cat) as [ns|] eqn:Hns; [|done].
  intros [= <-]. cbn. exists (ns_dict <$> cats st), (ns_dict ns).
  split_and!; [done|by rewrite lookup_fmap, Hns|].
  by rewrite fmap_insert.
Qed.

Lemma setattr_then_to_dict_witness :
  exists d ns,
    _get_dict (bot ready_world) = Ok d /\ d !! "audio" = Some ns
    /\ _get_dict (bot (setattr_ns "audio" "Music Players" (VInt 3)
                         ready_world).2)
       = Ok (<["audio" := <["Music Players" := VInt 3]> ns]> d).
Proof.
  apply (setattr_then_to_dict "audio" "Music Players" (VInt 3) ready_world).
  apply run_eq. vm_compute. reflexivity.
Defined.

(** ** The shard collector *)

Lemma shard_step index latency ms w :
  has_category w "shards" = true ->
  pyfloat_int (pyfloat_mul1000 latency) = Ok ms ->
  (_ <- getattr_stats "shards" ;;
   ms <- lift (pyfloat_int (pyfloat_mul1000 latency)) ;;
   setattr_ns "shards" (str_of_int (index + 1)) (VInt ms)) w
  = setattr_ns "shards" (shard_label index) (VInt ms) w.
Proof.
  intros Hcat Hms. destruct (getattr_stats_run "shards" w Hcat) as [ns Hns].
  erewrite bind_ok by exact Hns.
  erewrite bind_ok by (unfold lift; rewrite Hms; reflexivity). done.
Qed.

Lemma shard_step_fault index latency e w :
  has_category w "shards" = true ->
  pyfloat_int (pyfloat_mul1000 latency) = Raise e ->
  (_ <- getattr_stats "shards" ;;
   ms <- lift (pyfloat_int (pyfloat_mul1000 latency)) ;;
   setattr_ns "shards" (str_of_int (index + 1)) (VInt ms)) w
  = (Raise e, w).
Proof.
  intros Hcat Hms. destruct (getattr_stats_run "shards" w Hcat) as [ns Hns].
  erewrite bind_ok by exact Hns.
  erewrite bind_raise by (unfold lift; rewrite Hms; reflexivity). done.
Qed.

Lemma shards_loop (l : list (Z * pyfloat)) : forall w,
  has_category w "shards" = true ->
  Forall (fun kv => latency_ok kv.2) l ->
  exists w',
    for_each l
      (fun '(index, latency) _ =>
         _ <- getattr_stats "shards" ;;
         ms <- lift (pyfloat_int (pyfloat_mul1000 latency)) ;;
         setattr_ns "shards" (str_of_int (index + 1)) (VInt ms))
      tt w = (Ok tt, w')
    /\ has_category w' "shards" = true
    /\ trace w' = trace w
    /\ (forall cat key,
          cat <> "shards" \/ key ∉ shard_label <$> l.*1 ->
          published w' cat key = published w cat key)
    /\ (NoDup l.*1 ->
        forall index x ms,
          (index, x) ∈ l -> pyfloat_int (pyfloat_mul1000 x) = Ok ms ->
          published w' "shards" (shard_label index) = Some (VInt ms)).
Proof.
  induction l as [|[index x] l IH]; intros w Hcat Hall.
  - exists w. split_and!; try done. intros _ ? ? ? Hin. by apply elem_of_nil in Hin.
  - apply Forall_cons in Hall as [Hx Hall]. unfold latency_ok in Hx.
    cbn [snd] in Hx.
    destruct (pyfloat_int (pyfloat_mul1000 x)) as [ms|] eqn:Hms;
      [|discriminate Hx].
    cbn [for_each].
    destruct (setattr_ns_run w "shards" (shard_label index) (VInt ms) Hcat)
      as (w1 & Hset & Hcats & Htr).
    erewrite bind_ok by (rewrite (shard_step index x ms) by done; exact Hset).
    destruct (IH w1) as (w' & Hrun & Hcat' & Htr' & Hkeep & Hpub);
      [by rewrite Hcats|done|].
    exists w'. split_and!; [done|done|congruence| |].
    + intros cat key Hne. rewrite Hkeep.
      * pose proof (published_setattr_ns w "shards" (shard_label index)
                      (VInt ms) cat key) as Hp.
        rewrite Hset in Hp. cbn [snd] in Hp. rewrite Hp, Hcat. cbn.
        rewrite bool_decide_eq_false_2; [done|].
        intros [<- <-]. destruct Hne as [?|Hne]; [done|].
        apply Hne. cbn. left.
      * destruct Hne as [?|Hne]; [by left|right].
        intros Hin. apply Hne. cbn. by right.
    + intros Hnd index' x' ms' Hin Hms'. cbn in Hnd.
      apply NoDup_cons in Hnd as [Hnotin Hnd].
      apply elem_of_cons in Hin as [[= -> ->]|Hin].
      * rewrite Hkeep.
        -- rewrite Hms in Hms'. injection Hms' as <-.
           by eapply setattr_ns_published.
        -- right. intros Hin. apply list_elem_of_fmap in Hin as (i & Hi & Hin).
           unfold shard_label, str_of_int in Hi.
           apply (inj pretty) in Hi. assert (i = index) as -> by lia. done.
      * by eapply Hpub.
Qed.

(** X5.  With the shards category in place and every latency finite,
    [write_shards_data] returns normally and nothing is logged; for shard
    indices that are distinct, the label [str(index + 1)] holds
    [int(latency * 1000)] for every shard, and every other label of every
    category, among them the labels of shards that are no longer
    reported, is as it was. *)
Theorem write_shards_data_publishes h w :
  has_category w "shards" = true ->
  Forall (fun kv => latency_ok kv.2) (latencies h) ->
  NoDup (latencies h).*1 ->
  let w' := (write_shards_data h w).2 in
  (write_shards_data h w).1 = Ok tt
  /\ trace w' = trace w
  /\ (forall index x ms,
        (index, x) ∈ latencies h ->
        pyfloat_int (pyfloat_mul1000 x) = Ok ms ->
        published w' "shards" (shard_label index) = Some (VInt ms))
  /\ (forall cat key,
        cat <> "shards" \/ key ∉ shard_label <$> (latencies h).*1 ->
        published w' cat key = published w cat key).
Proof.
  intros Hcat Hall Hnd. cbv zeta. unfold write_shards_data.
  destruct (shards_loop (latencies h) w Hcat Hall)
    as (w' & -> & _ & Htr & Hkeep & Hpub).
  split_and!; try done. by apply Hpub.
Qed.

(** X6.  The first latency for which [int(latency * 1000)] raises (an
    infinite one gives [OverflowError], NaN gives [ValueError]) ends
    [write_shards_data] with that exception: the shards listed before it
    have been written, exactly as if the list had ended there, and the
    shards after it are not looked at. *)
Theorem write_shards_data_first_fault h h_pre w index x post e :
  has_category w "shards" = true ->
  latencies h = latencies h_pre ++ (index, x) :: post ->
  Forall (fun kv => latency_ok kv.2) (latencies h_pre) ->
  pyfloat_int (pyfloat_mul1000 x) = Raise e ->
  (write_shards_data h_pre w).1 = Ok tt
  /\ write_shards_data h w = (Raise e, (write_shards_data h_pre w).2)
  /\ e = match x with NaN => ValueError | _ => OverflowError end.
Proof.
  intros Hcat Hl Hall He. unfold write_shards_data. rewrite Hl.
  destruct (shards_loop (latencies h_pre) w Hcat Hall)
    as (w1 & Hrun & Hcat1 & _).
  rewrite for_each_app. rewrite Hrun. split_and!; [done| |].
  - erewrite bind_ok by exact Hrun. cbn [for_each].
    erewrite bind_raise; [done|]. by apply shard_step_fault.
  - destruct x; cbn in He; congruence.
Qed.

Lemma write_shards_data_publishes_witness :
  published (write_shards_data plain_host ready_world).2 "shards" "1"
  = Some (VInt 50).
Proof.
  refine (proj1 (proj2 (proj2
    (write_shards_data_publishes plain_host ready_world _ _ _))) 0%Z
    (Finite (5 # 100)) 50%Z _ _).
  - vm_compute. reflexivity.
  - repeat constructor.
  - apply NoDup_singleton.
  - left.
  - vm_compute. reflexivity.
Defined.

Lemma write_shards_data_first_fault_witness :
  write_shards_data waiting_shard_host ready_world
  = (Raise OverflowError, (write_shards_data plain_host ready_world).2).
Proof.
  refine (proj1 (proj2
    (write_shards_data_first_fault waiting_shard_host plain_host ready_world
       1%Z PosInf [] OverflowError _ _ _ _))).
  - vm_compute. reflexivity.
  - reflexivity.
  - repeat constructor.
  - reflexivity.
Defined.

(** ** The currency collector *)

Lemma currency_loop_fault steps (pre : list (Z * pyval)) k v post e :
  forall i acc w,
  Forall (fun kv => balance_record kv.2) pre ->
  balance_fault v e ->
  exists w',
    async_iter_from 0 steps i (pre ++ (k, v) :: post)
      (fun '(key, value) overall =>
         balance <- lift (py_getitem value "balance") ;;
         lift (py_add overall balance))
      (VInt acc) w
    = (Raise e, w')
    /\ bot w' = bot w.
Proof.
  induction pre as [|[key value] pre IH]; intros i acc w Hall Hfault;
    cbn [app async_iter_from];
    set (w1 := ((if (i =? steps)%nat then sleep 0 else ret tt) w).2);
    (assert ((if (i =? steps)%nat then sleep 0 else ret tt) w = (Ok tt, w1)
             /\ bot w1 = bot w) as [Hpause Hbot1]
       by (subst w1; by destruct (i =? steps)%nat));
    erewrite bind_ok by exact Hpause.
  - exists w1. split; [|done]. apply bind_raise.
    destruct Hfault as [Hget|(b & Hget & Hnum & ->)];
      unfold bind, lift; rewrite Hget; [done|].
    unfold py_add. cbn [as_num]. by rewrite Hnum.
  - inversion Hall as [|? ? [b Hb] Hrest]; subst. cbn [snd] in Hb.
    destruct (IH (if (i =? steps)%nat then 1 else S i)%nat (acc + b)%Z w1
                Hrest Hfault) as (w' & Hloop & Hbot).
    exists w'. erewrite bind_ok; last first.
    { unfold bind, lift. rewrite Hb. simpl. reflexivity. }
    rewrite Hloop. split; [done|congruence].
Qed.

(** X7.  A bank record without a balance ([KeyError]), or whose balance
    is no number ([TypeError]), makes [write_currency_data] raise that
    exception to its caller, whatever the batch size: the collector has no
    handler, the total is only written after the loop, and so no attribute
    of the bot has changed; the label keeps the value of the last complete
    pass. *)
Theorem write_currency_data_fault steps h w (pre : list (Z * pyval)) k v post
    e :
  (1 <= steps)%nat ->
  bank_all_users h = Ok (pre ++ (k, v) :: post) ->
  Forall (fun kv => balance_record kv.2) pre ->
  balance_fault v e ->
  (write_currency_data_steps steps h w).1 = Raise e
  /\ bot (write_currency_data_steps steps h w).2 = bot w.
Proof.
  intros Hsteps Hbank Hall Hfault. unfold write_currency_data_steps.
  erewrite bind_ok by (unfold lift; rewrite Hbank; reflexivity).
  unfold async_for. destruct (Nat.ltb_spec steps 1) as [?|_]; [lia|].
  destruct (currency_loop_fault steps pre k v post e 0%nat 0%Z w Hall Hfault)
    as (w' & Hloop & Hbot).
  erewrite bind_raise by exact Hloop. done.
Qed.

Lemma write_currency_data_fault_witness :
  (write_currency_data broken_bank_host ready_world).1
  = Raise (KeyError "balance").
Proof.
  refine (proj1 (write_currency_data_fault 50 broken_bank_host ready_world
                   example_accounts
                   9%Z (VDict []) [] (KeyError "balance") _ eq_refl _ _)).
  - lia.
  - repeat apply Forall_cons_2; [..|apply Forall_nil_2]; eexists; reflexivity.
  - by left.
Defined.

(** ** The scheduler *)

(** X8.  With [run_events] in its [try], the loop of [update_task] never
    takes the [except] branch: started on a bot whose ready event is
    clear, any number of cycles returns normally, the event is set by the
    end of the first cycle whatever the collectors met, and [set] is
    called exactly once. *)
Theorem update_task_ready_after_first_cycle h hosts w ev :
  _stats_ready (bot w) = Some ev -> ev_flag ev = false ->
  let w' := (update_task (h :: hosts) w).2 in
  (update_task (h :: hosts) w).1 = Ok tt
  /\ stats_ready_flag (update_cycle (run_events h) w).2 = true
  /\ stats_ready_flag w' = true
  /\ ready_set_calls w' = S (ready_set_calls w).
Proof.
  intros Hev Hflag.
  assert (Forall (fun events => frames ready_frame events)
            (map run_events (h :: hosts))) as Hall.
  { apply Forall_map, Forall_forall. intros h' _.
    apply run_events_ready_frame. }
  destruct (update_loop_ready _ w ev Hall Hev) as (Hok & Hf & Hc).
  destruct (update_cycle_ready (run_events h) w ev
              (run_events_ready_frame h) Hev) as (_ & _ & Hf1 & _).
  simpl in *. rewrite run_events_ok in *. simpl in *.
  rewrite Hflag in *. simpl in *. unfold update_task. simpl.
  split_and!; [done | by rewrite Hf1 | done | lia].
Qed.

Lemma update_task_ready_after_first_cycle_witness :
  stats_ready_flag
    (update_task [waiting_shard_host; plain_host] ready_world).2 = true.
Proof.
  refine (proj1 (proj2 (proj2
    (update_task_ready_after_first_cycle waiting_shard_host [plain_host]
       ready_world {| ev_id := 11; ev_flag := false |} _ _)))).
  - vm_compute. reflexivity.
  - reflexivity.
Defined.

(** X9.  On a bot that has no [_stats_ready] attribute ([init_bot_stats]
    was not called), the first cycle of [update_task] runs the collectors
    and then raises [AttributeError] from the [else] branch, which the
    [except] clause does not cover: the loop ends there, without sleeping
    and without a log entry of its own. *)
Theorem update_task_needs_ready_event h hosts w :
  _stats_ready (bot w) = None ->
  update_task (h :: hosts) w = (Raise AttributeError, (run_events h w).2).
Proof.
  intros Hev. unfold update_task, update_loop. cbn [map for_each].
  apply bind_raise. unfold update_cycle.
  pose proof (run_events_ok h w) as Hok.
  destruct (run_events_ready_frame h w) as [[Hsame _] _].
  destruct (run_events h w) as [[[]|e] w1]; [|done]. cbn [snd] in *.
  apply bind_raise. unfold stats_ready_is_set, bind, get_bot.
  by rewrite Hsame, Hev.
Qed.

Lemma update_task_needs_ready_event_witness :
  (update_task [plain_host] fresh_world).1 = Raise AttributeError.
Proof.
  by rewrite (update_task_needs_ready_event plain_host [] fresh_world eq_refl).
Defined.

(** ** The bot and guild collector *)

Lemma spec_with_frame (R : relation world) {A} (Q : A -> Prop) (m : M A) :
  frames R m -> spec any_world Q m -> spec R Q m.
Proof.
  intros Hf Hq w. destruct (Hf w) as [HR _], (Hq w) as [_ HQ]. done.
Qed.

Lemma keeps_collect_bot_data cat key h lightmode detailed topgg :
  frames (keeps cat key) (collect_bot_data h lightmode detailed topgg).
Proof.
  apply frames_collect_bot_data; [typeclasses eauto|].
  intros d. apply keeps_emit.
Qed.

(** X10.  When no guild is available (the bot is in no guild, or all of
    them are marked unavailable), a pass of [write_bot_data] does not
    write the Members label of the guild category: it keeps the value of
    an earlier pass, or stays absent. *)
Theorem members_label_not_written h w :
  available (guilds h) = [] ->
  published (write_bot_data h w).2 "guilds" "Members"
  = published w "guilds" "Members".
Proof.
  intros Hnone.
  assert (frames (keeps "guilds" "Members") (write_bot_data h)) as Hkeep;
    [|apply Hkeep].
  unfold write_bot_data.
  eapply spec_bind with (Q := fun _ => True);
    [typeclasses eauto|frame_step|intros lightmode _].
  eapply spec_bind with (Q := fun _ => True);
    [typeclasses eauto|repeat frame_step|intros [detailed topgg] _].
  apply spec_try_except; [typeclasses eauto| |intros e; apply keeps_emit].
  unfold bot_data_pass.
  eapply (spec_bind (keeps "guilds" "Members"));
    [apply spec_with_frame;
       [apply keeps_collect_bot_data|apply collect_bot_data_spec]|].
  intros t (_ & _ & _ & Hm).
  assert ("Members" ∉ (server_counter t).*1) as Hnotin
    by (apply dict_get_None; rewrite Hm; unfold members_entry;
        by rewrite Hnone).
  repeat (eapply spec_bind with (Q := fun _ => True);
          [typeclasses eauto| |intros ? _]);
    apply keeps_publish_counter; first [by right | by left].
Qed.

Lemma members_label_not_written_witness :
  published
    (write_bot_data waiting_shard_host
       (setattr_ns "guilds" "Members" (VInt 7) ready_world).2).2
    "guilds" "Members"
  = Some (VInt 7).
Proof.
  rewrite (members_label_not_written waiting_shard_host _ eq_refl).
  vm_compute. reflexivity.
Defined.

Lemma tally_votes_pure h t w : (tally_votes h t w).2 = w.
Proof.
  assert (frames eq (tally_votes h t)) as H; [|symmetry; apply H].
  unfold tally_votes. repeat frame_step. apply frames_get_votes.
  typeclasses eauto.
Qed.

Lemma collect_bot_data_nan h lightmode detailed (topgg : bool) w :
  latency h = NaN ->
  exists e, collect_bot_data h lightmode detailed topgg w = (Raise e, w)
            /\ (topgg = false -> e = ValueError).
Proof.
  intros Hnan. unfold collect_bot_data. rewrite Hnan.
  set (votes := if topgg then _ else _).
  assert ((votes w).2 = w) as Hpure.
  { subst votes. destruct topgg; [apply tally_votes_pure|done]. }
  destruct (votes w) as [[t|e] w1] eqn:Hvotes; cbn [snd] in Hpure; subst w1.
  - exists ValueError. split; [|done].
    erewrite bind_ok by exact Hvotes. by apply bind_raise.
  - exists e. split; [by apply bind_raise|].
    intros ->. subst votes. by cbv in Hvotes.
Qed.

(** X11.  While [bot.latency] is NaN (discord.py reports it so when no
    shard is ready), [round] raises [ValueError], which the
    [suppress(OverflowError)] around the latency does not cover: the pass
    of [write_bot_data] ends in the handler before any label is written,
    the exception is logged, and the bot is as before. *)
Theorem write_bot_data_nan_latency h w lightmode :
  latency h = NaN ->
  get_set_lightmode h = Ok lightmode ->
  (lightmode = false ->
   is_ok (get_set_detailed h) = true /\ is_ok (get_set_topgg h) = true) ->
  exists e,
    write_bot_data h w = (Ok tt, logged "Exception in write_bot_data" e w)
    /\ (lightmode = true \/ get_set_topgg h = Ok false -> e = ValueError).
Proof.
  intros Hnan Hlight Hflags. unfold write_bot_data.
  erewrite bind_ok by (unfold lift; rewrite Hlight; reflexivity).
  destruct lightmode.
  - erewrite bind_ok by reflexivity.
    destruct (collect_bot_data_nan h true false false w Hnan)
      as (e & Hcollect & He).
    exists e. split; [|intros _; by apply He].
    apply try_except_log. unfold bot_data_pass. by apply bind_raise.
  - destruct Hflags as [Hd Ht]; [done|].
    destruct (get_set_detailed h) as [detailed|] eqn:Hdet; [|done].
    destruct (get_set_topgg h) as [topgg|] eqn:Htop; [|done].
    erewrite bind_ok by reflexivity.
    destruct (collect_bot_data_nan h false detailed topgg w Hnan)
      as (e & Hcollect & He).
    exists e. split; [|intros [?|[= ->]]; [done|by apply He]].
    apply try_except_log. unfold bot_data_pass. by apply bind_raise.
Qed.

Lemma write_bot_data_nan_latency_witness :
  bot (write_bot_data starting_host ready_world).2 = bot ready_world.
Proof.
  destruct (write_bot_data_nan_latency starting_host ready_world false
              eq_refl eq_refl) as (e & Hrun & _).
  - done.
  - by rewrite Hrun.
Defined.

(** ** The region tally stays empty *)

Lemma regions_iadd_counter k n t t' :
  iadd_counter k n t = Ok t' -> region_count t' = region_count t.
Proof.
  unfold iadd_counter. destruct (counter_iadd _ _ _); [|done].
  by intros [= <-].
Qed.

Lemma regions_iadd_server_counter k n t t' :
  iadd_server_counter k n t = Ok t' -> region_count t' = region_count t.
Proof.
  unfold iadd_server_counter. destruct (counter_iadd _ _ _); [|done].
  by intros [= <-].
Qed.

Lemma regions_add_by_kind users bots humans member t :
  region_count (add_by_kind users bots humans member t) = region_count t.
Proof. unfold add_by_kind. by destruct (m_bot member). Qed.

Lemma regions_rfor_each {A} (l : list A) body t t' :
  (forall x a a', body x a = Ok a' -> region_count a' = region_count a) ->
  rfor_each l body t = Ok t' -> region_count t' = region_count t.
Proof.
  intros Hbody Hrun.
  eapply (rfor_each_inv (fun a => region_count a = region_count t));
    [done| |exact Hrun].
  intros x a0 a1 _ Ha Hx. by rewrite (Hbody _ _ _ Hx).
Qed.

Lemma regions_tally_guild_detailed guild t t' :
  tally_guild_detailed guild t = Ok t' -> region_count t' = region_count t.
Proof.
  unfold tally_guild_detailed.
  destruct (rfor_each _ _ t) as [t1|] eqn:Hloop; [|done]. cbn [rbind].
  destruct (counter_iadd _ _ _); [|done]. intros [= <-]. cbn.
  eapply regions_rfor_each; [|exact Hloop].
  intros x t2 t3. cbv beta.
  destruct (counter_iadd _ _ _); [|done]. by intros [= <-].
Qed.

Lemma regions_tally_guild_flags guild t t' :
  tally_guild_flags guild t = Ok t' -> region_count t' = region_count t.
Proof.
  unfold tally_guild_flags.
  destruct (iadd_server_counter _ _ t) as [t1|] eqn:H1; [|done].
  apply regions_iadd_server_counter in H1. cbn [rbind]. intros [= <-].
  repeat case_match; cbn; done.
Qed.

Lemma regions_tally_channel guild channel t t' :
  tally_channel guild channel t = Ok t' -> region_count t' = region_count t.
Proof.
  unfold tally_channel.
  destruct (iadd_server_counter _ _ t) as [t1|] eqn:H1; [|done].
  apply regions_iadd_server_counter in H1. cbn [rbind].
  destruct channel as [id is_nsfw is_news|id members|id|id].
  - destruct (iadd_server_counter _ _ t1) as [t2|] eqn:H2; [|done].
    apply regions_iadd_server_counter in H2. cbn [rbind]. intros [= <-].
    destruct is_nsfw, is_news; cbn; congruence.
  - destruct (iadd_server_counter _ _ t1) as [t2|] eqn:H2; [|done].
    apply regions_iadd_server_counter in H2. cbn [rbind].
    destruct (iadd_counter _ _ t2) as [t3|] eqn:H3; [|done].
    apply regions_iadd_counter in H3. cbn [rbind].
    destruct (member_in _ _); [|intros [= <-]; congruence].
    destruct (iadd_counter _ _ t3) as [t4|] eqn:H4; [|done].
    apply regions_iadd_counter in H4. cbn [rbind].
    destruct (iadd_server_counter _ _ t4) as [t5|] eqn:H5; [|done].
    apply regions_iadd_server_counter in H5. cbn [rbind]. intros [= <-].
    assert (forall t0, region_count
              (fold_left
                 (fun t m => if m_is_on_mobile m
                             then add_temp "Users in a VC on Mobile" (m_id m) t
                             else t) members t0) = region_count t0) as Hfold.
    { induction members as [|m members IH]; intros t0; [done|].
      cbn [fold_left]. rewrite IH. by destruct (m_is_on_mobile m). }
    rewrite Hfold. congruence.
  - intros H2. apply regions_iadd_server_counter in H2. congruence.
  - intros [= <-]. done.
Qed.

Lemma regions_tally_emoji emoji t t' :
  tally_emoji emoji t = Ok t' -> region_count t' = region_count t.
Proof.
  unfold tally_emoji.
  destruct (iadd_server_counter _ _ t) as [t1|] eqn:H1; [|done].
  apply regions_iadd_server_counter in H1. cbn [rbind].
  destruct (e_animated emoji); intros H2;
    apply regions_iadd_server_counter in H2; congruence.
Qed.

Lemma regions_tally_status member t :
  region_count (tally_status member t) = region_count t.
Proof.
  unfold tally_status.
  repeat case_decide; rewrite ?regions_add_by_kind; done.
Qed.

Lemma regions_tally_platform status l1 l2 l3 l4 member t :
  region_count (tally_platform status l1 l2 l3 l4 member t) = region_count t.
Proof. unfold tally_platform. repeat case_decide; done. Qed.

Lemma regions_tally_activity member a t seen :
  spec any_world (fun st => region_count st.1 = region_count t)
    (tally_activity member a (t, seen)).
Proof.
  unfold tally_activity.
  repeat case_decide; apply spec_ret; try typeclasses eauto; cbn [fst];
    rewrite ?regions_add_by_kind; done.
Qed.

Lemma regions_tally_member detailed member t :
  spec any_world (fun t' => region_count t' = region_count t)
    (tally_member detailed member t).
Proof.
  unfold tally_member.
  set (t0 := if m_bot member then _ else _).
  assert (region_count t0 = region_count t) as H0
    by (subst t0; by destruct (m_bot member)).
  destruct detailed; [|by apply spec_ret; [typeclasses eauto|]].
  set (t1 := if m_is_on_mobile member then _ else t0).
  assert (region_count t1 = region_count t) as H1
    by (subst t1; by destruct (m_is_on_mobile member)).
  eapply (spec_bind any_world)
    with (Q := fun st => region_count st.1 = region_count t).
  - apply spec_async_for; [typeclasses eauto|done|done|].
    intros a [t2 seen] _ Hst. cbn [fst] in Hst.
    eapply spec_weaken; [apply regions_tally_activity|].
    intros st Hst'. cbn beta in Hst'. congruence.
  - intros [t2 seen] Hst. cbn [fst] in Hst.
    apply spec_ret; [typeclasses eauto|].
    rewrite !regions_tally_platform.
    destruct seen; cbn [negb]; rewrite ?regions_tally_status; done.
Qed.

Lemma regions_tally_guild lightmode detailed guild t :
  spec any_world (fun t' => region_count t' = region_count t)
    (tally_guild lightmode detailed guild t).
Proof.
  unfold tally_guild.
  destruct (g_unavailable guild); [by apply spec_ret; [typeclasses eauto|]|].
  eapply (spec_bind any_world)
    with (Q := fun t' => region_count t' = region_count t).
  { apply spec_lift; [typeclasses eauto|].
    intros t1 H1. by apply regions_iadd_server_counter in H1. }
  intros t1 H1.
  eapply (spec_bind any_world)
    with (Q := fun t' => region_count t' = region_count t).
  { destruct lightmode; cbn [negb];
      [by apply spec_ret; [typeclasses eauto|]|].
    eapply (spec_bind any_world)
      with (Q := fun t' => region_count t' = region_count t).
    { destruct detailed; [|by apply spec_ret; [typeclasses eauto|]].
      apply spec_lift; [typeclasses eauto|].
      intros t2 H2. apply regions_tally_guild_detailed in H2. congruence. }
    intros t2 H2.
    eapply (spec_bind any_world)
      with (Q := fun t' => region_count t' = region_count t).
    { apply spec_lift; [typeclasses eauto|].
      intros t3 H3. apply regions_tally_guild_flags in H3. congruence. }
    intros t3 H3.
    eapply (spec_bind any_world)
      with (Q := fun t' => region_count t' = region_count t).
    { apply spec_lift; [typeclasses eauto|].
      intros t4 H4. apply regions_rfor_each in H4; [congruence|].
      intros ? ? ?. apply regions_tally_channel. }
    intros t4 H4.
    apply spec_lift; [typeclasses eauto|].
    intros t5 H5. apply regions_rfor_each in H5; [congruence|].
    intros ? ? ?. apply regions_tally_emoji. }
  intros t2 H2.
  apply spec_async_for; [typeclasses eauto|done|done|].
  intros member t3 _ H3.
  eapply spec_weaken; [apply regions_tally_member|].
  intros t4 H4. cbn beta in H4. congruence.
Qed.

Lemma regions_tally_votes h t :
  spec any_world (fun t' => region_count t' = region_count t)
    (tally_votes h t).
Proof.
  unfold tally_votes.
  eapply (spec_bind any_world) with (Q := fun _ => True);
    [intros w; done|intros vote_data _].
  cbv zeta. destruct (py_truthy (if py_truthy vote_data then _ else _));
    [|by apply spec_ret; [typeclasses eauto|]].
  eapply (spec_bind any_world) with (Q := fun _ => True);
    [intros w; done|intros monthly _].
  eapply (spec_bind any_world)
    with (Q := fun t' => region_count t' = region_count t).
  { destruct (py_truthy monthly); [|by apply spec_ret; [typeclasses eauto|]].
    eapply (spec_bind any_world) with (Q := fun _ => True);
      [intros w; done|intros v _].
    by apply spec_ret; [typeclasses eauto|]. }
  intros t1 H1.
  eapply (spec_bind any_world) with (Q := fun _ => True);
    [intros w; done|intros points _].
  destruct (py_truthy points); [|by apply spec_ret; [typeclasses eauto|]].
  eapply (spec_bind any_world) with (Q := fun _ => True);
    [intros w; done|intros v _].
  by apply spec_ret; [typeclasses eauto|].
Qed.

Lemma regions_collect_bot_data h lightmode detailed topgg :
  spec any_world (fun t => region_count t = [])
    (collect_bot_data h lightmode detailed topgg).
Proof.
  unfold collect_bot_data.
  eapply (spec_bind any_world) with (Q := fun t => region_count t = []).
  { destruct topgg; [apply regions_tally_votes|].
    by apply spec_ret; [typeclasses eauto|]. }
  intros t1 H1.
  eapply (spec_bind any_world) with (Q := fun t => region_count t = []).
  { apply spec_try_except; [typeclasses eauto| |].
    - eapply (spec_bind any_world) with (Q := fun _ => True);
        [intros w; done|intros ms _].
      by apply spec_ret; [typeclasses eauto|].
    - intros e. destruct (is_overflow e);
        [by apply spec_ret; [typeclasses eauto|]|].
      apply spec_raise. typeclasses eauto. }
  intros t2 H2.
  eapply (spec_bind any_world) with (Q := fun t => region_count t = []).
  { apply spec_for_each; [typeclasses eauto|done|].
    intros guild t3 _ H3.
    eapply spec_weaken; [apply regions_tally_guild|].
    intros t4 H4. cbn beta in H4. congruence. }
  intros t3 H3. by apply spec_ret; [typeclasses eauto|].
Qed.

(** ** Every collector writes to its own categories *)

Ltac keeps_auto :=
  repeat first
    [ apply keeps_emit
    | apply keeps_setattr_ns; intros [? ?]; congruence
    | apply keeps_publish_counter; left; congruence
    | frame_step ].

Lemma keeps_write_shards_data cat key h :
  cat <> "shards" -> frames (keeps cat key) (write_shards_data h).
Proof. intros Hne. unfold write_shards_data. keeps_auto. Qed.

Lemma keeps_write_currency_data cat key h :
  cat <> "currency" -> frames (keeps cat key) (write_currency_data h).
Proof.
  intros Hne. unfold write_currency_data, write_currency_data_steps.
  keeps_auto.
Qed.

Lemma keeps_write_audio_data cat key h :
  cat <> "audio" -> frames (keeps cat key) (write_audio_data h).
Proof.
  intros Hne. unfold write_audio_data, audio_pass, publish_audio_counter.
  keeps_auto.
Qed.

Lemma keeps_write_adventure_data cat key h :
  cat <> "adventure" -> frames (keeps cat key) (write_adventure_data h).
Proof.
  intros Hne.
  unfold write_adventure_data, adventure_pass, flatten_accounts,
    tally_accounts, publish_adventure.
  keeps_auto.
Qed.

Lemma keeps_write_bot_data cat key h :
  cat ∉ bot_data_categories -> frames (keeps cat key) (write_bot_data h).
Proof.
  intros Hcat. unfold bot_data_categories in Hcat.
  rewrite !not_elem_of_cons in Hcat.
  destruct Hcat as (Hb & Hg & Hf & Hv & _).
  unfold write_bot_data.
  eapply spec_bind with (Q := fun _ => True);
    [typeclasses eauto|frame_step|intros lightmode _].
  eapply spec_bind with (Q := fun _ => True);
    [typeclasses eauto|repeat frame_step|intros [detailed topgg] _].
  apply spec_try_except; [typeclasses eauto| |intros e; apply keeps_emit].
  unfold bot_data_pass.
  eapply (spec_bind (keeps cat key));
    [apply spec_with_frame;
       [apply keeps_collect_bot_data|apply regions_collect_bot_data]|].
  intros t Hregions. cbv beta in Hregions. rewrite Hregions.
  repeat (eapply spec_bind with (Q := fun _ => True);
          [typeclasses eauto| |intros ? _]);
    apply keeps_publish_counter;
    first [left; congruence | right; apply not_elem_of_nil].
Qed.

(** X12.  Each collector writes to its own categories only:
    [write_bot_data] to bot, guilds, guild_features and
    guild_verification; [write_currency_data] to currency;
    [write_shards_data] to shards; [write_audio_data] to audio;
    [write_adventure_data] to adventure.  Whatever a collector meets, every
    label of every other category is as before. *)
Theorem collectors_write_own_categories h w cat key :
  (cat ∉ bot_data_categories ->
   published (write_bot_data h w).2 cat key = published w cat key)
  /\ (cat <> "currency" ->
      published (write_currency_data h w).2 cat key = published w cat key)
  /\ (cat <> "shards" ->
      published (write_shards_data h w).2 cat key = published w cat key)
  /\ (cat <> "audio" ->
      published (write_audio_data h w).2 cat key = published w cat key)
  /\ (cat <> "adventure" ->
      published (write_adventure_data h w).2 cat key = published w cat key).
Proof.
  split_and!; intros Hne.
  - by apply keeps_write_bot_data.
  - by apply keeps_write_currency_data.
  - by apply keeps_write_shards_data.
  - by apply keeps_write_audio_data.
  - by apply keeps_write_adventure_data.
Qed.

Lemma keeps_run_events key h :
  frames (keeps "guilds_regions" key) (run_events h).
Proof.
  unfold run_events.
  eapply spec_bind with (Q := fun _ => True);
    [typeclasses eauto| |intros; by apply spec_ret; [typeclasses eauto|]].
  apply spec_gather; [typeclasses eauto|].
  repeat (apply Forall_cons_2); [..|apply Forall_nil_2].
  - apply keeps_write_bot_data. unfold bot_data_categories.
    rewrite !not_elem_of_cons. split_and!; try done. apply not_elem_of_nil.
  - by apply keeps_write_currency_data.
  - by apply keeps_write_shards_data.
  - by apply keeps_write_audio_data.
  - by apply keeps_write_adventure_data.
Qed.

Lemma keeps_update_cycle cat key events :
  frames (keeps cat key) events -> frames (keeps cat key) (update_cycle events).
Proof.
  intros Hevents w. split; [|done]. destruct (Hevents w) as [Hk _].
  unfold update_cycle, keeps in *.
  destruct (events w) as [[[]|e] w1]; cbn [snd] in Hk; rewrite <- Hk.
  - unfold stats_ready_is_set, stats_ready_set, bind, get_bot.
    destruct (_stats_ready (bot w1)) as [ev|] eqn:Hev; [|done].
    destruct (ev_flag ev); cbn; rewrite ?Hev; done.
  - done.
Qed.

(** X13.  No collector writes to the guilds_regions category (the region
    tally of [write_bot_data] is never filled): a collection pass and any
    number of cycles of [update_task] leave every label of that category
    as it was, so the category that [init_bot_stats] creates stays
    empty. *)
Theorem guilds_regions_never_written h hosts w key :
  published (run_events h w).2 "guilds_regions" key
  = published w "guilds_regions" key
  /\ published (update_task hosts w).2 "guilds_regions" key
     = published w "guilds_regions" key.
Proof.
  split; [apply keeps_run_events|].
  assert (frames (keeps "guilds_regions" key) (update_task hosts)) as H;
    [|apply H].
  unfold update_task, update_loop.
  apply spec_for_each; [typeclasses eauto|done|].
  intros events [] Hin _. apply list_elem_of_fmap in Hin as (h' & -> & _).
  apply keeps_update_cycle, keeps_run_events.
Qed.

(** ** Values given as strings *)

Lemma pretty_N_char_digit (d : N) :
  (d < 10)%N ->
  is_digit (pretty_N_char d) = true
  /\ Z.of_nat (Ascii.nat_of_ascii (pretty_N_char d) - 48) = Z.of_N d.
Proof.
  intros Hd.
  assert (d = 0 \/ d = 1 \/ d = 2 \/ d = 3 \/ d = 4 \/ d = 5 \/ d = 6
          \/ d = 7 \/ d = 8 \/ d = 9)%N as Hin by lia.
  destruct Hin as [->|[->|[->|[->|[->|[->|[->|[->|[->| ->]]]]]]]]];
    split; reflexivity.
Qed.

Lemma digits_value_acc s : forall acc,
  digits_value acc s
  = (acc * 10 ^ Z.of_nat (String.length s) + digits_value 0 s)%Z.
Proof.
  induction s as [|c s IH]; intros acc; cbn [digits_value String.length].
  - change (10 ^ Z.of_nat 0)%Z with 1%Z. lia.
  - rewrite IH. rewrite (IH (10 * 0 + _)%Z).
    rewrite Nat2Z.inj_succ, Z.pow_succ_r by lia. lia.
Qed.

Lemma strip_pretty_N_go x : forall s,
  strip_non_digits (pretty_N_go x s) = pretty_N_go x (strip_non_digits s).
Proof.
  induction x as [x IH] using (well_founded_induction N.lt_wf_0); intros s.
  destruct (decide (x = 0)%N) as [->|Hx]; [by rewrite !pretty_N_go_0|].
  rewrite (pretty_N_go_step x s), (pretty_N_go_step x (strip_non_digits s))
    by lia.
  rewrite IH by (apply N.div_lt; lia). cbn [strip_non_digits].
  destruct (pretty_N_char_digit (x `mod` 10)%N) as [-> _];
    [apply N.mod_lt; lia|done].
Qed.

Lemma digits_value_pretty_N_go x : forall s,
  digits_value 0 (pretty_N_go x s)
  = (Z.of_N x * 10 ^ Z.of_nat (String.length s) + digits_value 0 s)%Z.
Proof.
  induction x as [x IH] using (well_founded_induction N.lt_wf_0); intros s.
  destruct (decide (x = 0)%N) as [->|Hx]; [rewrite pretty_N_go_0; lia|].
  rewrite pretty_N_go_step by lia.
  rewrite IH by (apply N.div_lt; lia).
  cbn [String.length digits_value]. rewrite digits_value_acc.
  destruct (pretty_N_char_digit (x `mod` 10)%N) as [_ ->];
    [apply N.mod_lt; lia|].
  rewrite Nat2Z.inj_succ, Z.pow_succ_r by lia.
  rewrite (N.div_mod x 10) at 3 by lia.
  rewrite N2Z.inj_add, N2Z.inj_mul. change (Z.of_N 10) with 10%Z. lia.
Qed.

Lemma int_of_digits_pretty_N (x : N) :
  int_of_digits (strip_non_digits (pretty x)) = Ok (Z.of_N x).
Proof.
  unfold pretty, pretty_N. case_decide as Hx; [by subst|].
  rewrite strip_pretty_N_go. cbn [strip_non_digits].
  pose proof (digits_value_pretty_N_go x "") as Hv.
  cbn [String.length digits_value] in Hv.
  change (10 ^ Z.of_nat 0)%Z with 1%Z in Hv.
  unfold int_of_digits. destruct (pretty_N_go x "") as [|c s].
  - cbn in Hv. lia.
  - rewrite Hv. f_equal. lia.
Qed.

(** X14.  What [int(re.sub(r"\D", "", value))] makes of a value that is
    the decimal string of an int: the number itself when it is not
    negative, and its absolute value otherwise, because the sign is
    removed with the other non-digits. *)
Theorem int_of_rendered_int (z : Z) :
  int_of_digits (strip_non_digits (str_of_int z)) = Ok (Z.abs z).
Proof.
  destruct z as [|p|p].
  - done.
  - apply (int_of_digits_pretty_N (Npos p)).
  - change (str_of_int (Z.neg p)) with ("-" +:+ pretty (N.pos p)).
    change (strip_non_digits ("-" +:+ pretty (N.pos p)))
      with (strip_non_digits (pretty (N.pos p))).
    apply (int_of_digits_pretty_N (Npos p)).
Qed.

(** ** The audio collector with MartTools *)

Lemma audio_step key value pv w :
  audio_value value = Ok pv ->
  (value <- match value with
            | VStr s => z <- lift (int_of_digits (strip_non_digits s)) ;;
                        ret (VInt z)
            | _ => ret value
            end ;;
   setattr_ns "audio" key value) w
  = setattr_ns "audio" key pv w.
Proof.
  intros Hv. apply bind_ok.
  destruct value; cbn in Hv; try (by injection Hv as <-).
  unfold bind, lift, ret. destruct (int_of_digits _); [|done].
  cbn in Hv. by injection Hv as <-.
Qed.

Lemma publish_audio_loop (c : list (string * pyval)) : forall w,
  has_category w "audio" = true ->
  Forall (fun kv => is_ok (audio_value kv.2) = true) c ->
  exists w',
    publish_audio_counter c w = (Ok tt, w')
    /\ has_category w' "audio" = true
    /\ trace w' = trace w
    /\ (forall cat key,
          cat <> "audio" \/ key ∉ c.*1 ->
          published w' cat key = published w cat key)
    /\ (NoDup c.*1 ->
        forall key value pv,
          (key, value) ∈ c -> audio_value value = Ok pv ->
          published w' "audio" key = Some pv).
Proof.
  unfold publish_audio_counter.
  induction c as [|[k v] c IH]; intros w Hcat Hall.
  - exists w. split_and!; try done.
    intros _ ? ? ? Hin. by apply elem_of_nil in Hin.
  - apply Forall_cons in Hall as [Hv Hall]. cbn [snd] in Hv.
    destruct (audio_value v) as [pv|] eqn:Hpv; [|discriminate Hv].
    cbn [for_each].
    destruct (setattr_ns_run w "audio" k pv Hcat) as (w1 & Hset & Hcats & Htr).
    erewrite bind_ok by (rewrite (audio_step k v pv) by done; exact Hset).
    destruct (IH w1) as (w' & Hrun & Hcat' & Htr' & Hkeep & Hpub);
      [by rewrite Hcats|done|].
    exists w'. split_and!; [done|done|congruence| |].
    + intros cat key Hne. rewrite Hkeep.
      * pose proof (published_setattr_ns w "audio" k pv cat key) as Hp.
        rewrite Hset in Hp. cbn [snd] in Hp. rewrite Hp, Hcat. cbn.
        rewrite bool_decide_eq_false_2; [done|].
        intros [<- <-]. destruct Hne as [?|Hne]; [done|].
        apply Hne. cbn. left.
      * destruct Hne as [?|Hne]; [by left|right].
        intros Hin. apply Hne. cbn. by right.
    + intros Hnd key value pv' Hin Hpv'. cbn in Hnd.
      apply NoDup_cons in Hnd as [Hnotin Hnd].
      apply elem_of_cons in Hin as [[= -> ->]|Hin].
      * rewrite Hkeep by (by right).
        rewrite Hpv in Hpv'. injection Hpv' as <-.
        by eapply setattr_ns_published.
      * by eapply Hpub.
Qed.

Lemma collect_audio_detailed h get_value :
  get_set_detailed h = Ok true ->
  mart_tools_get_value h = Some get_value ->
  (forall name, name ∈ mart_tools_counters.*2 ->
                is_ok (get_value name) = true) ->
  collect_audio h
  = Ok ([ ("Active Music Players",
            VInt (Z.of_nat (length (active_players h))));
          ("Music Players", VInt (Z.of_nat (length (all_players h))));
          ("Inactive Music Players", VInt (inactive_players h)) ]
        ++ ((fun ln => (ln.1, match get_value ln.2 with
                              | Ok v => v
                              | Raise _ => VNone
                              end)) <$> mart_tools_counters)).
Proof.
  intros Hdet Hmart Hget.
  unfold collect_audio. rewrite Hdet, Hmart. vm_compute.
  repeat match goal with
         | |- context [get_value ?n] =>
             let H := fresh "Hv" in
             destruct (get_value n) eqn:H;
             [|exfalso;
               assert (is_ok (get_value n) = true) as Hn
                 by (apply Hget; cbn; by repeat constructor);
               rewrite H in Hn; discriminate Hn]
         end.
  reflexivity.
Qed.

(** X15.  With light mode off, detailed mode on and a MartTools cog whose
    [get_value] answers the thirteen counters with values that are ints or
    strings containing a digit, [write_audio_data] returns without
    logging and publishes the number of active players, the number of
    players and, under each of the thirteen labels, the value MartTools
    gave: as it is, or for a string the int made of its digits. *)
Theorem write_audio_data_publishes h w get_value :
  get_set_lightmode h = Ok false ->
  get_set_detailed h = Ok true ->
  mart_tools_get_value h = Some get_value ->
  has_category w "audio" = true ->
  (forall name, name ∈ mart_tools_counters.*2 ->
     exists v, get_value name = Ok v /\ is_ok (audio_value v) = true) ->
  let w' := (write_audio_data h w).2 in
  (write_audio_data h w).1 = Ok tt
  /\ trace w' = trace w
  /\ published w' "audio" "Active Music Players"
     = Some (VInt (Z.of_nat (length (active_players h))))
  /\ published w' "audio" "Music Players"
     = Some (VInt (Z.of_nat (length (all_players h))))
  /\ forall label name v pv,
       (label, name) ∈ mart_tools_counters ->
       get_value name = Ok v -> audio_value v = Ok pv ->
       published w' "audio" label = Some pv.
Proof.
  intros Hlight Hdet Hmart Hcat Hvalues. cbv zeta.
  assert (forall name, name ∈ mart_tools_counters.*2 ->
                       is_ok (get_value name) = true) as Hget.
  { intros name Hin. destruct (Hvalues name Hin) as (v & -> & _). done. }
  pose proof (collect_audio_detailed h get_value Hdet Hmart Hget) as Hcollect.
  set (counter := _ ++ _) in Hcollect.
  assert (Forall (fun kv => is_ok (audio_value kv.2) = true) counter) as Hok.
  { subst counter. apply Forall_app. split; [by repeat constructor|].
    apply Forall_fmap, Forall_forall. intros [label name] Hin. cbn.
    destruct (Hvalues name) as (v & -> & Hv); [|done].
    apply list_elem_of_fmap. by exists (label, name). }
  assert (NoDup counter.*1) as Hnd.
  { subst counter. rewrite fmap_app, <- list_fmap_compose.
    apply (bool_decide_unpack _). by vm_compute. }
  destruct (publish_audio_loop counter w Hcat Hok)
    as (w' & Hrun & _ & Htr & _ & Hpub).
  specialize (Hpub Hnd).
  assert (write_audio_data h w = (Ok tt, w')) as ->.
  { unfold write_audio_data.
    erewrite bind_ok by (unfold lift; rewrite Hlight; reflexivity).
    unfold try_except, audio_pass.
    erewrite bind_ok by (unfold lift; rewrite Hcollect; reflexivity).
    by rewrite Hrun. }
  split_and!; [done|done| | |].
  - apply (Hpub _ (VInt (Z.of_nat (length (active_players h))))); [|done].
    subst counter. apply elem_of_app. left. left.
  - apply (Hpub _ (VInt (Z.of_nat (length (all_players h))))); [|done].
    subst counter. apply elem_of_app. left. right. left.
  - intros label name v pv Hin Hv Hpv. apply (Hpub label v pv); [|done].
    subst counter. apply elem_of_app. right.
    apply list_elem_of_fmap. exists (label, name). cbn [fst snd].
    by rewrite Hv.
Qed.

Lemma write_audio_data_publishes_witness :
  published (write_audio_data plain_host ready_world).2 "audio"
    "Tracks Played"
  = Some (VInt 1234).
Proof.
  refine (proj2 (proj2 (proj2 (proj2
    (write_audio_data_publishes plain_host ready_world
       (fun _ => Ok (VStr "1,234")) eq_refl eq_refl eq_refl _ _))))
    "Tracks Played" "tracks_played" (VStr "1,234") (VInt 1234) _ eq_refl
    eq_refl).
  - vm_compute. reflexivity.
  - intros name _. by exists (VStr "1,234").
  - left.
Defined.

(** ** How a member is counted *)

Lemma bucket_add_by_kind_other users bots humans member t label :
  label <> users -> label <> bots -> label <> humans ->
  bucket (add_by_kind users bots humans member t) label = bucket t label.
Proof.
  intros Hu Hb Hh. unfold add_by_kind.
  destruct (m_bot member); rewrite !bucket_add_temp;
    rewrite !decide_False by done; done.
Qed.

(** Side conditions [label <> "..."] for a presence label. *)
Ltac other_label Hl :=
  let H := fresh in
  intros H; simplify_eq; apply (bool_decide_pack _) in Hl;
  by vm_compute in Hl.

Lemma status_labels_tally_activity member a t seen label :
  label ∈ status_labels ->
  exists t' seen',
    tally_activity member a (t, seen) = ret (t', seen')
    /\ seen' = seen || bool_decide (a_type a = streaming)
    /\ bucket t' label = bucket t label.
Proof.
  intros Hl. unfold tally_activity. destruct a as [ty]. cbn [a_type].
  destruct ty;
    repeat (rewrite decide_True by done || rewrite decide_False by done);
    eexists _, _; (split; [reflexivity|]);
    (split; [by destruct seen|]);
    repeat case_decide; try done;
    rewrite ?bucket_add_by_kind_other by other_label Hl; done.
Qed.

Lemma status_labels_tally_activities member delay steps (l : list Activity)
    label :
  label ∈ status_labels ->
  forall i t seen w,
  exists t' w',
    async_iter_from delay steps i l (tally_activity member) (t, seen) w
    = (Ok (t', seen || existsb (fun a => bool_decide (a_type a = streaming)) l),
       w')
    /\ bucket t' label = bucket t label.
Proof.
  intros Hl.
  induction l as [|a l IH]; intros i t seen w; cbn [async_iter_from existsb].
  - exists t, w. by rewrite orb_false_r.
  - set (w1 := ((if (i =? steps)%nat then sleep delay else ret tt) w).2).
    assert ((if (i =? steps)%nat then sleep delay else ret tt) w = (Ok tt, w1))
      as Hpause by (subst w1; by destruct (i =? steps)%nat).
    erewrite bind_ok by exact Hpause.
    destruct (status_labels_tally_activity member a t seen label Hl)
      as (t1 & seen1 & Hstep & -> & Hsame1).
    erewrite bind_ok by (rewrite Hstep; reflexivity).
    destruct (IH (if (i =? steps)%nat then 1 else S i)%nat t1
                (seen || bool_decide (a_type a = streaming)) w1)
      as (t' & w' & Hrest & Hsame).
    exists t', w'. rewrite Hrest, orb_assoc. split; [done|congruence].
Qed.

Lemma status_labels_tally_platform status l1 l2 l3 l4 member t label :
  label <> l1 -> label <> l2 -> label <> l3 -> label <> l4 ->
  bucket (tally_platform status l1 l2 l3 l4 member t) label = bucket t label.
Proof.
  intros H1 H2 H3 H4. unfold tally_platform.
  repeat case_decide; rewrite ?bucket_add_temp, ?decide_False by done; done.
Qed.


(** The loop body for a member in detailed mode, up to the presence on the
    three platforms. *)
Lemma tally_member_detailed member t w label :
  label ∈ status_labels ->
  exists t2 t' w',
    tally_member true member t w = (Ok t', w')
    /\ buckets_le (if streams member then t2 else tally_status member t2) t'
    /\ bucket t' label
       = bucket (if streams member then t2 else tally_status member t2) label
    /\ bucket t2 label = bucket t label.
Proof.
  intros Hl. unfold tally_member.
  set (t0 := if m_bot member then _ else _).
  assert (bucket t0 label = bucket t label) as H0.
  { subst t0. destruct (m_bot member); rewrite !bucket_add_temp;
      rewrite !decide_False by other_label Hl; done. }
  set (t1 := if m_is_on_mobile member then _ else t0).
  assert (bucket t1 label = bucket t label) as H1.
  { subst t1. destruct (m_is_on_mobile member); [|done].
    rewrite bucket_add_temp, decide_False by other_label Hl. done. }
  unfold async_for. cbn [Nat.ltb Nat.leb].
  destruct (status_labels_tally_activities member (1 # 100) 5
              (m_activities member) label Hl 0%nat t1 false w)
    as (t2 & w' & Hloop & H2).
  erewrite bind_ok by exact Hloop. cbn [orb]. fold (streams member).
  unfold ret. eexists t2, _, w'. split; [reflexivity|].
  split_and!.
  - repeat (etrans; [|apply buckets_le_tally_platform]).
    by destruct (streams member).
  - rewrite !status_labels_tally_platform by other_label Hl.
    by destruct (streams member).
  - congruence.
Qed.

(** X16.  In every mode the loop body for a member returns normally
    without touching the bot, puts the member's id into Unique Users and
    into Bots or Humans according to [member.bot], and removes no id from
    any bucket. *)
Theorem member_is_counted detailed member t w :
  exists t' w',
    tally_member detailed member t w = (Ok t', w')
    /\ bot w' = bot w
    /\ buckets_le t t'
    /\ m_id member ∈ bucket t' "Unique Users"
    /\ m_id member ∈ bucket t' (if m_bot member then "Bots" else "Humans").
Proof.
  unfold tally_member.
  set (t0 := if m_bot member then _ else _).
  assert (buckets_le t t0) as Hle0.
  { subst t0. destruct (m_bot member);
      (etrans; [apply buckets_le_add_temp|apply buckets_le_add_temp]). }
  assert (m_id member ∈ bucket t0 "Unique Users"
          /\ m_id member ∈ bucket t0 (if m_bot member then "Bots"
                                       else "Humans")) as Hin0.
  { subst t0. destruct (m_bot member);
      (split; [apply buckets_le_add_temp|]); apply bucket_add_temp_elem. }
  assert (forall t' : tallies, buckets_le t0 t' ->
            buckets_le t t'
            /\ m_id member ∈ bucket t' "Unique Users"
            /\ m_id member ∈ bucket t' (if m_bot member then "Bots"
                                         else "Humans")) as Hfrom.
  { intros t' Hle. split_and!; [by etrans|by apply Hle, Hin0..]. }
  destruct detailed; [|exists t0, w; by split_and!; try apply Hfrom].
  set (t1 := if m_is_on_mobile member then _ else t0).
  assert (buckets_le t0 t1) as Hle1.
  { subst t1. destruct (m_is_on_mobile member);
      [apply buckets_le_add_temp|reflexivity]. }
  unfold async_for. cbn [Nat.ltb Nat.leb].
  destruct (tally_activities_spec member (1 # 100) 5 (m_activities member)
              0%nat t1 false w) as (t2 & seen & w' & Hloop & Hbot & Hle2 & _).
  erewrite bind_ok by exact Hloop. unfold ret.
  eexists _, w'. split; [reflexivity|]. split; [done|].
  apply Hfrom.
  etrans; [exact Hle1|]. etrans; [exact Hle2|].
  repeat (etrans; [|apply buckets_le_tally_platform]).
  destruct seen; [reflexivity|apply buckets_le_tally_status].
Qed.


(** X18.  A member with a stream among its activities gets no presence
    label from the loop body: each of the connected, online, idle,
    do-not-disturb and offline buckets holds the same ids after the member
    as before. *)
Theorem streaming_member_presence member t w label :
  streams member = true ->
  label ∈ status_labels ->
  exists t' w',
    tally_member true member t w = (Ok t', w')
    /\ bucket t' label = bucket t label.
Proof.
  intros Hstreams Hl.
  destruct (tally_member_detailed member t w label Hl)
    as (t2 & t' & w' & Hrun & _ & Hsame & Hsame2).
  rewrite Hstreams in Hsame.
  exists t', w'. split; [done|congruence].
Qed.


Lemma streaming_member_presence_witness :
  bucket
    (returned_tallies (tally_member true busy_member empty_tallies fresh_world))
    "Users Online"
  = bucket empty_tallies "Users Online".
Proof.
  destruct (streaming_member_presence busy_member empty_tallies fresh_world
              "Users Online" eq_refl) as (t' & w' & Hrun & Hsame).
  - do 3 right. left.
  - unfold returned_tallies. by rewrite Hrun.
Defined.

(** ** The totals of the adventure collector *)

Lemma dict_get_update {V} (f : string) (upd : list (string * V)) :
  forall d, NoDup upd.*1 ->
  dict_get f (dict_update d upd)
  = match dict_get f upd with Some x => Some x | None => dict_get f d end.
Proof.
  induction upd as [|[k v] upd IH]; intros d Hnd; [done|].
  cbn in Hnd. apply NoDup_cons in Hnd as [Hnotin Hnd].
  rewrite dict_update_cons. cbn [fst snd dict_get].
  rewrite IH by done. destruct (decide (f = k)) as [->|Hne].
  - apply dict_get_None in Hnotin. rewrite Hnotin. apply dict_get_set_eq.
  - rewrite dict_get_set_ne by done. done.
Qed.

(** The inner loop over the [adventures] dict: it is merged in as soon as
    one of its keys is a known counter. *)
Lemma merge_known_get (items : list (string * pyval)) f :
  NoDup items.*1 ->
  forall (l0 : list (string * pyval)) acc,
  dict_get f
    (fold_left
       (fun user_data '(s, sv) =>
          if dict_mem s adventures_default
          then dict_update user_data items else user_data)
       l0 acc)
  = if existsb (fun kv => dict_mem kv.1 adventures_default) l0
    then match dict_get f items with
         | Some x => Some x
         | None => dict_get f acc
         end
    else dict_get f acc.
Proof.
  intros Hnd. induction l0 as [|[s sv] l0 IH]; intros acc; [done|].
  cbn [fold_left existsb fst]. rewrite IH.
  destruct (dict_mem s adventures_default); cbn [orb]; [|done].
  rewrite dict_get_update by done.
  destruct (existsb _ l0); by destruct (dict_get f items).
Qed.

Lemma flatten_loop (l : list (string * pyval)) : forall acc,
  NoDup l.*1 ->
  (forall vi, dict_get "adventures" l = Some vi ->
     exists items, vi = VDict items /\ NoDup items.*1
                   /\ ("rebirths" ∉ items.*1) /\ ("set_items" ∉ items.*1)) ->
  exists u,
    rfor_each l
      (fun '(vk, vi) user_data =>
         if bool_decide (vk ∈ ["rebirths"; "set_items"])
         then Ok (dict_update user_data [(vk, vi)])
         else if bool_decide (vk ∈ ["adventures"])
         then match vi with
              | VDict items =>
                  Ok (fold_left
                        (fun user_data '(s, sv) =>
                           if dict_mem s adventures_default
                           then dict_update user_data items
                           else user_data)
                        items user_data)
              | _ => Raise AttributeError
              end
         else Ok user_data)
      acc = Ok u
    /\ forall f,
         dict_get f u
         = if bool_decide (f ∈ ["rebirths"; "set_items"])
           then match dict_get f l with
                | Some x => Some x
                | None => dict_get f acc
                end
           else match dict_get f (merged_items l) with
                | Some x => Some x
                | None => dict_get f acc
                end.
Proof.
  induction l as [|[vk vi] l IH]; intros acc Hnd Hadv.
  - exists acc. split; [done|]. intros f. by case_bool_decide.
  - cbn in Hnd. apply NoDup_cons in Hnd as [Hnotin Hnd].
    apply dict_get_None in Hnotin.
    cbn [rfor_each]. case_bool_decide as Hvk.
    + (* rebirths or set_items *)
      assert (vk <> "adventures") as Hne.
      { intros ->. revert Hvk. rewrite !elem_of_cons, elem_of_nil.
        intros [?|[?|[]]]; done. }
      cbn [rbind]. destruct (IH (dict_update acc [(vk, vi)]) Hnd)
        as (u & Hrun & Hget).
      { intros vi' Hvi'. apply Hadv. cbn [dict_get].
        by rewrite decide_False by done. }
      exists u. split; [done|]. intros f. rewrite Hget.
      unfold merged_items. cbn [dict_get].
      rewrite (decide_False (P := "adventures" = vk)) by done.
      change (dict_update acc [(vk, vi)]) with (dict_set vk vi acc).
      rewrite dict_get_set.
      destruct (decide (vk = f)) as [->|Hf].
      * rewrite bool_decide_eq_true_2 by done.
        rewrite decide_True by done. by rewrite Hnotin.
      * rewrite (decide_False (P := f = vk)) by done. done.
    + case_bool_decide as Hvk'.
      * (* adventures *)
        apply list_elem_of_singleton in Hvk' as ->.
        destruct (Hadv vi) as (items & -> & Hndi & Hr & Hs).
        { cbn [dict_get]. by rewrite decide_True. }
        cbn [rbind].
        destruct (IH (fold_left
                        (fun user_data '(s, sv) =>
                           if dict_mem s adventures_default
                           then dict_update user_data items
                           else user_data)
                        items acc) Hnd) as (u & Hrun & Hget).
        { intros vi' Hvi'. by rewrite Hnotin in Hvi'. }
        exists u. split; [done|]. intros f. rewrite Hget.
        unfold merged_items at 1. rewrite Hnotin. cbn [dict_get].
        rewrite merge_known_get by done.
        unfold merged_items. cbn [dict_get].
        rewrite (decide_True (P := "adventures" = "adventures")) by done.
        case_bool_decide as Hf.
        -- assert (f <> "adventures") as Hfa.
           { intros ->. revert Hf. rewrite !elem_of_cons, elem_of_nil.
             intros [?|[?|[]]]; done. }
           rewrite decide_False by done.
           assert (dict_get f items = None) as ->.
           { apply dict_get_None. revert Hf.
             rewrite !elem_of_cons, elem_of_nil.
             intros [->|[->|[]]]; done. }
           by destruct (existsb _ items).
        -- by destruct (existsb _ items).
      * (* another key *)
        assert (vk <> "adventures") as Hne.
        { intros ->. apply Hvk'. left. }
        cbn [rbind]. destruct (IH acc Hnd) as (u & Hrun & Hget).
        { intros vi' Hvi'. apply Hadv. cbn [dict_get].
          by rewrite decide_False by done. }
        exists u. split; [done|]. intros f. rewrite Hget.
        unfold merged_items. cbn [dict_get].
        rewrite (decide_False (P := "adventures" = vk)) by done.
        case_bool_decide as Hf; [|done].
        rewrite decide_False; [done|]. by intros ->.
Qed.

Lemma backfill_step item (dflt : pyval) (v : list (string * pyval)) k :
  dict_get k (if dict_mem item v then v else dict_set item dflt v)
  = match dict_get k v with
    | Some x => Some x
    | None => if decide (item = k) then Some dflt else None
    end.
Proof.
  unfold dict_mem. destruct (dict_get item v) as [y|] eqn:Hitem.
  - destruct (dict_get k v) eqn:Hk; [done|].
    rewrite decide_False; [done|]. intros ->. congruence.
  - rewrite dict_get_set. destruct (decide (item = k)) as [->|Hne].
    + by rewrite Hitem.
    + by destruct (dict_get k v).
Qed.

Lemma backfill_get (v : list (string * pyval)) k :
  dict_get k (backfill_account v)
  = match dict_get k v with
    | Some x => Some x
    | None =>
        if decide ("adventures" = k) then Some (VDict adventures_default)
        else if decide ("rebirths" = k) then Some (VInt 0)
        else if decide ("set_items" = k) then Some (VInt 0)
        else None
    end.
Proof.
  unfold backfill_account, dict_update.
  cbn [fold_left String.eqb Ascii.eqb Bool.eqb fst snd].
  rewrite !backfill_step.
  destruct (dict_get k v); [done|].
  repeat case_decide; done.
Qed.

Lemma backfill_NoDup (v : list (string * pyval)) :
  NoDup v.*1 -> NoDup (backfill_account v).*1.
Proof.
  intros Hnd. unfold backfill_account, dict_update.
  cbn [fold_left String.eqb Ascii.eqb Bool.eqb fst snd].
  repeat (match goal with
          | |- NoDup (if ?b then _ else _).*1 => destruct b
          | |- NoDup (dict_set _ _ _).*1 => apply NoDup_dict_set
          end); done.
Qed.

Lemma existsb_known (items : list (string * pyval)) field x :
  dict_get field items = Some x ->
  dict_mem field adventures_default = true ->
  existsb (fun kv => dict_mem kv.1 adventures_default) items = true.
Proof.
  intros Hget Hknown. apply existsb_exists. exists (field, x).
  split; [|done]. apply list_elem_of_In. by apply dict_get_Some_elem.
Qed.

Lemma adventure_field_cases field :
  field ∈ adventure_labels.*2 ->
  field ∈ ["rebirths"; "set_items"]
  \/ ((field ∉ ["rebirths"; "set_items"]) /\ field <> "adventures"
      /\ dict_mem field adventures_default = true).
Proof.
  intros Hf.
  destruct (decide (field ∈ ["rebirths"; "set_items"])) as [Hin|Hnotin];
    [by left|right].
  split; [done|]. revert Hf Hnotin. cbn. rewrite !elem_of_cons, elem_of_nil.
  intros [->|[->|[->|[->|[->|[->|[->|[->|[->|[->|[]]]]]]]]]]] Hnotin;
    first [ by split; [|vm_compute] | exfalso; apply Hnotin; auto ].
Qed.

(** What the two inner loops make of one account record. *)
Lemma flatten_backfilled (v : list (string * pyval)) :
  adventure_record v ->
  exists u,
    flatten_account (backfill_account v) = Ok u
    /\ u <> []
    /\ forall field, field ∈ adventure_labels.*2 ->
         default (VInt 0) (dict_get field u) = VInt (contribution v field).
Proof.
  intros (Hnd & Hadv & Hint).
  destruct (flatten_loop (backfill_account v) [] (backfill_NoDup v Hnd))
    as (u & Hrun & Hget).
  { intros vi. rewrite backfill_get. rewrite decide_True by done.
    destruct (dict_get "adventures" v) as [vi'|] eqn:Hv.
    - intros [= <-]. by apply Hadv.
    - intros [= <-]. exists adventures_default. split; [done|].
      split_and!; [apply (bool_decide_unpack _); by vm_compute|..];
        apply (bool_decide_unpack _); by vm_compute. }
  exists u. split; [exact Hrun|]. split.
  - specialize (Hget "rebirths"). rewrite bool_decide_eq_true_2 in Hget
      by (left). rewrite backfill_get in Hget.
    intros ->. cbn [dict_get] in Hget.
    destruct (dict_get "rebirths" v); [done|].
    rewrite decide_False, decide_True in Hget by done. done.
  - intros field Hfield. rewrite Hget. unfold contribution, account_field.
    destruct (adventure_field_cases field Hfield)
      as [Hin|(Hnotin & Hne & Hknown)].
    + rewrite !bool_decide_eq_true_2 by done. rewrite backfill_get.
      specialize (Hint field). unfold account_field in Hint.
      rewrite bool_decide_eq_true_2 in Hint by done.
      destruct (dict_get field v) as [x|] eqn:Hx.
      * destruct (Hint x Hfield eq_refl) as [z ->]. done.
      * revert Hin. rewrite !elem_of_cons, elem_of_nil.
        intros [->|[->|[]]]; repeat case_decide; done.
    + rewrite !bool_decide_eq_false_2 by done.
      unfold merged_items. rewrite backfill_get, decide_True by done.
      specialize (Hint field). unfold account_field in Hint.
      rewrite bool_decide_eq_false_2 in Hint by done.
      destruct (dict_get "adventures" v) as [vi|] eqn:Hv.
      * destruct (Hadv vi eq_refl) as (items & -> & _).
        destruct (dict_get field items) as [x|] eqn:Hx.
        -- rewrite (existsb_known items field x) by done. rewrite Hx.
           destruct (Hint x Hfield eq_refl) as [z ->]. done.
        -- by destruct (existsb _ items); rewrite ?Hx.
      * change (existsb _ adventures_default) with true. cbn iota.
        revert Hfield Hnotin. cbn. rewrite !elem_of_cons, elem_of_nil.
        intros [->|[->|[->|[->|[->|[->|[->|[->|[->|[->|[]]]]]]]]]]] Hnotin;
          try done; exfalso; apply Hnotin; auto.
Qed.

Lemma dict_set_notin {K V} `{EqDecision K} (k : K) (v : V) d :
  k ∉ d.*1 -> dict_set k v d = d ++ [(k, v)].
Proof.
  intros Hnotin.
  pose proof (dict_set_app_notin k v d [] Hnotin) as H0.
  by rewrite app_nil_r in H0.
Qed.

(** The first loop: one flattened record per user, in order. *)
Lemma flatten_accounts_loop (raw : list (Z * list (string * pyval))) :
  forall i (acc : list (Z * list (string * pyval))) w,
  NoDup (acc.*1 ++ raw.*1) ->
  Forall (fun kv => adventure_record kv.2) raw ->
  exists new w',
    async_iter_from 0 50 i raw
      (fun '(k, v) (raw_accounts_new : list (Z * list (string * pyval))) =>
         let v := backfill_account v in
         user_data <- lift (flatten_account v) ;;
         let user_data :=
           match user_data with
           | [] => []
           | _ => [(k, user_data)]
           end in
         ret (dict_update raw_accounts_new user_data))
      acc w
    = (Ok (acc ++ new), w')
    /\ bot w' = bot w
    /\ Forall2 (fun kv ku => flatten_account (backfill_account kv.2) = Ok ku.2)
         raw new.
Proof.
  induction raw as [|[k v] raw IH]; intros i acc w Hnd Hall.
  - exists [], w. rewrite app_nil_r. by split_and!.
  - apply Forall_cons in Hall as [Hv Hall]. cbn [snd] in Hv.
    destruct (flatten_backfilled v Hv) as (u & Hu & Hne & _).
    cbn [async_iter_from].
    set (w1 := ((if (i =? 50)%nat then sleep 0 else ret tt) w).2).
    assert ((if (i =? 50)%nat then sleep 0 else ret tt) w = (Ok tt, w1)
            /\ bot w1 = bot w) as [Hpause Hbot1]
      by (subst w1; by destruct (i =? 50)%nat).
    erewrite bind_ok by exact Hpause.
    assert (k ∉ acc.*1) as Hk.
    { cbn in Hnd. apply NoDup_app in Hnd as (_ & Hdisj & _).
      intros Hin. apply (Hdisj k Hin). left. }
    erewrite bind_ok; last first.
    { cbv zeta. erewrite bind_ok by (unfold lift; rewrite Hu; reflexivity).
      unfold ret. reflexivity. }
    assert (dict_update acc match u with [] => [] | _ => [(k, u)] end
            = acc ++ [(k, u)]) as ->.
    { destruct u; [done|]. unfold dict_update. cbn [fold_left fst snd].
      by apply dict_set_notin. }
    destruct (IH (if (i =? 50)%nat then 1 else S i)%nat (acc ++ [(k, u)]) w1)
      as (new & w' & Hrun & Hbot & Hrel).
    { rewrite fmap_app. cbn. rewrite <- app_assoc. exact Hnd. }
    { done. }
    exists ((k, u) :: new), w'. rewrite <- app_assoc in Hrun.
    split_and!; [exact Hrun|congruence|by constructor].
Qed.

Lemma int_counter_get c k :
  int_counter c -> counter_get k c = VInt (counter_int c k).
Proof.
  intros Hc. unfold counter_int, counter_get.
  destruct (dict_get k c) as [x|] eqn:Hx; [|done].
  apply dict_get_Some_elem in Hx.
  destruct (proj1 (Forall_forall _ _) Hc _ Hx) as [z Hz].
  cbn in *. by subst.
Qed.

Lemma int_counter_dict_set k z c :
  int_counter c -> int_counter (dict_set k (VInt z) c).
Proof.
  unfold int_counter. induction c as [|[k' v'] c IH]; intros Hc; cbn.
  - repeat constructor. by exists z.
  - apply Forall_cons in Hc as [Hv Hc]. case_decide.
    + constructor; [by exists z|done].
    + constructor; [done|by apply IH].
Qed.

Lemma counter_int_dict_set k z c k' :
  counter_int (dict_set k (VInt z) c) k'
  = if decide (k = k') then z else counter_int c k'.
Proof.
  unfold counter_int, counter_get. rewrite dict_get_set. by case_decide.
Qed.

Lemma iadd_int k x c :
  int_counter c ->
  counter_iadd k (VInt x) c
  = Ok (dict_set k (VInt (counter_int c k + x)) c).
Proof.
  intros Hc. unfold counter_iadd. by rewrite (int_counter_get c k Hc).
Qed.

(** The ten sums of one user, over any list of labels. *)
Lemma tally_labels_int (l : list (string * string)) u : forall c,
  NoDup l.*1 -> int_counter c -> NoDup c.*1 ->
  (forall label field, (label, field) ∈ l ->
     default (VInt 0) (dict_get field u) = VInt (field_int u field)) ->
  exists c',
    rfor_each l
      (fun '(label, field) adventure_count =>
         counter_iadd label (default (VInt 0) (dict_get field u))
           adventure_count)
      c = Ok c'
    /\ int_counter c' /\ NoDup c'.*1
    /\ (forall k, k ∈ c.*1 -> k ∈ c'.*1)
    /\ forall k,
         counter_int c' k
         = (counter_int c k
            + match dict_get k l with
              | Some field => field_int u field
              | None => 0
              end)%Z
         /\ (is_Some (dict_get k l) -> k ∈ c'.*1).
Proof.
  induction l as [|[label field] l IH]; intros c Hnd Hc Hndc Hint.
  - exists c. split_and!; try done. intros k. split; [cbn; lia|].
    by intros [? ?].
  - cbn in Hnd. apply NoDup_cons in Hnd as [Hnotin Hnd].
    cbn [rfor_each]. rewrite (Hint label field) by left.
    rewrite iadd_int by done. cbn [rbind].
    destruct (IH (dict_set label (VInt (counter_int c label
                                         + field_int u field)) c))
      as (c' & Hrun & Hc' & Hndc' & Hmono & Hsum);
      [done|by apply int_counter_dict_set|by apply NoDup_dict_set| |].
    { intros label' field' Hin. apply (Hint label' field'). by right. }
    exists c'. split_and!; [done|done|done| |].
    + intros k Hk. by apply Hmono, dict_set_keys_mono.
    + intros k. destruct (Hsum k) as [Hk Hin]. rewrite Hk.
      rewrite counter_int_dict_set. cbn [dict_get].
      destruct (decide (label = k)) as [->|Hne].
      * rewrite decide_True by done. apply dict_get_None in Hnotin.
        rewrite Hnotin. split; [lia|]. intros _.
        apply Hmono. apply list_elem_of_fmap.
        exists (k, VInt (counter_int c k + field_int u field)%Z).
        split; [done|]. apply dict_get_Some_elem, dict_get_set_eq.
      * rewrite decide_False by done. done.
Qed.

Lemma dict_get_elem {K V} `{EqDecision K} (k : K) (v : V) d :
  NoDup d.*1 -> (k, v) ∈ d -> dict_get k d = Some v.
Proof.
  induction d as [|[k' v'] d IH]; intros Hnd Hin.
  - by apply elem_of_nil in Hin.
  - cbn in Hnd. apply NoDup_cons in Hnd as [Hnotin Hnd]. cbn [dict_get].
    apply elem_of_cons in Hin as [[= -> ->]|Hin].
    + by rewrite decide_True.
    + rewrite decide_False; [by apply IH|].
      intros ->. apply Hnotin. apply list_elem_of_fmap. by exists (k', v).
Qed.

Lemma adventure_labels_NoDup : NoDup adventure_labels.*1.
Proof. apply (bool_decide_unpack _). by vm_compute. Qed.

(** The second loop: the sums over all users. *)
Lemma tally_accounts_loop (new : list (Z * list (string * pyval))) :
  forall i c w,
  int_counter c -> NoDup c.*1 ->
  Forall (fun ku => forall field, field ∈ adventure_labels.*2 ->
            default (VInt 0) (dict_get field ku.2)
            = VInt (field_int ku.2 field)) new ->
  exists c' w',
    async_iter_from 0 25 i new
      (fun '(u_id, u_data) adventure_count =>
         lift (tally_account u_data adventure_count))
      c w
    = (Ok c', w')
    /\ bot w' = bot w
    /\ int_counter c' /\ NoDup c'.*1
    /\ (forall k, k ∈ c.*1 -> k ∈ c'.*1)
    /\ forall label field, (label, field) ∈ adventure_labels ->
         counter_int c' label
         = (counter_int c label
            + foldr (fun ku acc => field_int ku.2 field + acc) 0 new)%Z
         /\ (new <> [] -> label ∈ c'.*1).
Proof.
  induction new as [|[u_id u] new IH]; intros i c w Hc Hnd Hall.
  - exists c, w. split_and!; try done. intros label field _. split; [cbn; lia|done].
  - apply Forall_cons in Hall as [Hu Hall]. cbn [snd] in Hu.
    cbn [async_iter_from].
    set (w1 := ((if (i =? 25)%nat then sleep 0 else ret tt) w).2).
    assert ((if (i =? 25)%nat then sleep 0 else ret tt) w = (Ok tt, w1)
            /\ bot w1 = bot w) as [Hpause Hbot1]
      by (subst w1; by destruct (i =? 25)%nat).
    erewrite bind_ok by exact Hpause.
    destruct (tally_labels_int adventure_labels u c adventure_labels_NoDup
                Hc Hnd) as (c1 & Hstep & Hc1 & Hnd1 & Hmono1 & Hsum1).
    { intros label field Hin. apply Hu. apply list_elem_of_fmap.
      by exists (label, field). }
    erewrite bind_ok by (unfold lift, tally_account; rewrite Hstep; reflexivity).
    destruct (IH (if (i =? 25)%nat then 1 else S i)%nat c1 w1 Hc1 Hnd1 Hall)
      as (c' & w' & Hrun & Hbot & Hc' & Hnd' & Hmono & Hsum).
    exists c', w'. split_and!; [done|congruence|done|done|by auto|].
    intros label field Hin.
    destruct (Hsum label field Hin) as [Hs _].
    destruct (Hsum1 label) as [Hs1 Hin1].
    rewrite (dict_get_elem label field adventure_labels
               adventure_labels_NoDup Hin) in Hs1, Hin1.
    split.
    + rewrite Hs, Hs1. cbn [foldr snd]. lia.
    + intros _. apply Hmono, Hin1. by eexists.
Qed.

Lemma publish_adventure_label c w w' k v :
  publish_adventure c w = (Ok tt, w') ->
  NoDup c.*1 -> dict_get k c = Some v ->
  k ∉ ["Adventures"; "Win Percentage"; "Loss Percentage"] ->
  published w' "adventure" k = Some v.
Proof.
  intros Hrun Hnd Hget Hk. rewrite !not_elem_of_cons in Hk.
  destruct Hk as (Hk1 & Hk2 & Hk3 & _).
  unfold publish_adventure in Hrun.
  apply bind_inv_ok in Hrun as ([] & w1 & _ & Hrun).
  apply bind_inv_ok in Hrun as ([] & w2 & _ & Hrun).
  apply bind_inv_ok in Hrun as ([] & w3 & Hpub & Hrun).
  pose proof (publish_counter_published _ _ _ _ _ _ Hnd Hget Hpub) as H3.
  match type of Hrun with
  | ?m w3 = _ =>
      assert (frames (keeps "adventure" k) m) as Hkeep by (keeps_auto)
  end.
  destruct (Hkeep w3) as [Hsame _]. rewrite Hrun in Hsame.
  unfold keeps in Hsame. cbn [snd] in Hsame. congruence.
Qed.

Lemma adventure_label_not_derived label field :
  (label, field) ∈ adventure_labels ->
  label ∉ ["Adventures"; "Win Percentage"; "Loss Percentage"].
Proof.
  intros Hin Hbad. revert Hin Hbad. unfold adventure_labels.
  rewrite !elem_of_cons, !elem_of_nil.
  intros [[= -> ->]|[[= -> ->]|[[= -> ->]|[[= -> ->]|[[= -> ->]|[[= -> ->]|
    [[= -> ->]|[[= -> ->]|[[= -> ->]|[[= -> ->]|[]]]]]]]]]]] [?|[?|[?|[]]]];
    done.
Qed.

Lemma flattened_fields (raw new : list (Z * list (string * pyval))) :
  Forall (fun kv => adventure_record kv.2) raw ->
  Forall2 (fun kv ku => flatten_account (backfill_account kv.2) = Ok ku.2)
    raw new ->
  Forall (fun ku => forall field, field ∈ adventure_labels.*2 ->
            default (VInt 0) (dict_get field ku.2)
            = VInt (field_int ku.2 field)) new
  /\ (forall field, field ∈ adventure_labels.*2 ->
        foldr (fun ku acc => field_int ku.2 field + acc)%Z 0%Z new
        = field_total raw field)
  /\ (raw <> [] -> new <> []).
Proof.
  intros Hall Hrel. induction Hrel as [|[k v] [k' u] raw new Hu Hrel IH].
  - by split_and!.
  - apply Forall_cons in Hall as [Hv Hall]. cbn [snd] in *.
    destruct (IH Hall) as (Hnew & Hsum & _).
    destruct (flatten_backfilled v Hv) as (u' & Hu' & _ & Hfields).
    assert (u' = u) as -> by congruence.
    assert (forall field, field ∈ adventure_labels.*2 ->
              field_int u field = contribution v field) as Hint.
    { intros field Hf. unfold field_int. by rewrite (Hfields field Hf). }
    split_and!; [|intros field Hf|done].
    + constructor; [|done]. intros field Hf. cbn [snd].
      rewrite (Hint field Hf). by apply Hfields.
    + cbn [foldr snd]. unfold field_total in *. cbn [foldr snd].
      by rewrite (Hsum field Hf), (Hint field Hf).
Qed.

(** X19.  For account records as the Adventure cog stores them (distinct
    users, int values, an [adventures] dict without [rebirths] or
    [set_items] of its own), with at least one user, the pass of
    [write_adventure_data] completes and publishes under each of its ten
    labels the sum over all users of the corresponding field, a user
    without the field counting 0: [set_items] and [rebirths] are read from
    the record, the eight fight counters from its [adventures] dict. *)
Theorem adventure_totals adv accounts w :
  adv_all_users adv = Ok accounts ->
  accounts <> [] ->
  NoDup accounts.*1 ->
  Forall (fun kv => adventure_record kv.2) accounts ->
  has_category w "adventure" = true ->
  (adventure_pass adv w).1 = Ok tt
  /\ forall label field, (label, field) ∈ adventure_labels ->
       published (adventure_pass adv w).2 "adventure" label
       = Some (VInt (field_total accounts field)).
Proof.
  intros Hadv Hne Hnd Hall Hcat. unfold adventure_pass.
  erewrite bind_ok by (unfold lift; rewrite Hadv; reflexivity).
  destruct (flatten_accounts_loop accounts 0%nat [] w Hnd Hall)
    as (new & w1 & Hflat & Hbot1 & Hrel).
  erewrite bind_ok by (unfold flatten_accounts, async_for; exact Hflat).
  destruct (flattened_fields accounts new Hall Hrel) as (Hnew & Hsum & Hne').
  destruct (tally_accounts_loop new 0%nat [] w1)
    as (c & w2 & Htally & Hbot2 & Hc & Hndc & _ & Htotals);
    [by constructor|by constructor|done|].
  erewrite bind_ok by (unfold tally_accounts, async_for; exact Htally).
  assert (has_category w2 "adventure" = true) as Hcat2.
  { unfold has_category in *. by rewrite Hbot2, Hbot1. }
  assert (number_counter c) as Hnum.
  { unfold number_counter. eapply Forall_impl; [exact Hc|].
    intros [k x] [z Hz]. cbn in *. by subst. }
  destruct (publish_adventure_run c w2 Hcat2 Hnum) as (w3 & Hpub).
  rewrite Hpub. split; [done|]. intros label field Hin. cbn [snd].
  destruct (Htotals label field Hin) as [Htotal Hkey].
  specialize (Hkey (Hne' Hne)).
  apply (publish_adventure_label c w2 w3); [done|done| |].
  - assert (is_Some (dict_get label c)) as [x Hx].
    { apply not_eq_None_Some. intros Hnone. by apply dict_get_None in Hnone. }
    pose proof (int_counter_get c label Hc) as Hget.
    unfold counter_get in Hget. rewrite Hx in Hget. cbn in Hget.
    rewrite Hx, Hget, Htotal. do 2 f_equal.
    rewrite Hsum by (apply list_elem_of_fmap; by exists (label, field)).
    unfold counter_int, counter_get. cbn. lia.
  - by eapply adventure_label_not_derived.
Qed.

Lemma adventure_totals_witness :
  published (adventure_pass example_adventure ready_world).2 "adventure"
    "Rebirths" = Some (VInt 3).
Proof.
  refine (proj2 (adventure_totals example_adventure _ ready_world eq_refl
                   _ _ _ _) "Rebirths" "rebirths" _).
  - done.
  - apply (bool_decide_unpack _). by vm_compute.
  - repeat apply Forall_cons_2; [..|apply Forall_nil_2];
      unfold adventure_record; cbn [snd]; split_and!;
      first
        [ solve [apply (bool_decide_unpack _); by vm_compute]
        | solve [intros vi Hvi; vm_compute in Hvi;
                 first [ discriminate Hvi
                       | injection Hvi as <-; eexists;
                         split; [reflexivity|]; split_and!;
                         apply (bool_decide_unpack _); by vm_compute ]]
        | intros field x Hf; cbn in Hf;
          rewrite !elem_of_cons, elem_of_nil in Hf;
          destruct Hf as [->|[->|[->|[->|[->|[->|[->|[->|[->|[->|[]]]]]]]]]]];
          vm_compute; intros Hx;
          first [ discriminate Hx | injection Hx as <-; by eexists ] ].
  - vm_compute. reflexivity.
  - do 1 right. left.
Defined.

(** ** The labels set before the loop over the guilds *)

#[global] Instance early_step_preorder : PreOrder early_step.
Proof.
  split.
  - intros t. by split_and!.
  - intros t1 t2 t3 (Hc & Ht & Hs & Hst) (Hc' & Ht' & Hs' & Hst').
    split_and!.
    + intros L HL. by rewrite Hc', Hc.
    + intros L HL Hn. by apply Ht', Ht.
    + congruence.
    + intros Hn. by apply Hst', Hst.
Qed.

Lemma early_add_temp k x t :
  bool_decide (k ∈ early_labels) = false -> early_step t (add_temp k x t).
Proof.
  intros Hk%bool_decide_eq_false. split_and!; try done.
  intros L HL Hn. cbn. intros [->|Hin]%set_add_keys; done.
Qed.

Lemma early_add_server_temp k x t :
  k <> "Total" -> early_step t (add_server_temp k x t).
Proof.
  intros Hk. split_and!; try done.
  intros Hn. cbn. intros [?|Hin]%set_add_keys; done.
Qed.

Lemma early_add_by_kind users bots humans member t :
  bool_decide (users ∈ early_labels) = false ->
  bool_decide (bots ∈ early_labels) = false ->
  bool_decide (humans ∈ early_labels) = false ->
  early_step t (add_by_kind users bots humans member t).
Proof.
  intros. unfold add_by_kind. destruct (m_bot member);
    (etrans; [by apply (early_add_temp users)|by apply early_add_temp]).
Qed.

Lemma early_iadd_counter k n t t' :
  bool_decide (k ∈ early_labels) = false ->
  iadd_counter k n t = Ok t' -> early_step t t'.
Proof.
  intros Hk%bool_decide_eq_false. unfold iadd_counter.
  destruct (counter_iadd _ _ _) as [c|] eqn:Hadd; [|done].
  simpl. intros [= <-]. split_and!; try done.
  intros L HL. cbn. eapply dict_get_counter_iadd_ne; [exact Hadd|].
  by intros ->.
Qed.

Lemma early_iadd_server_counter k n t t' :
  k <> "Total" -> iadd_server_counter k n t = Ok t' -> early_step t t'.
Proof.
  intros Hk. unfold iadd_server_counter.
  destruct (counter_iadd _ _ _) as [c|] eqn:Hadd; [|done].
  simpl. intros [= <-]. split_and!; try done.
  cbn. by eapply dict_get_counter_iadd_ne.
Qed.

Lemma early_fold_left {A} (f : tallies -> A -> tallies) (l : list A) :
  (forall t x, early_step t (f t x)) ->
  forall t, early_step t (fold_left f l t).
Proof.
  intros Hf. induction l as [|x l IH]; intros t; simpl; [reflexivity|].
  etrans; [apply Hf|apply IH].
Qed.

Lemma early_rfor_each {A} (l : list A) body t t' :
  (forall x a a', body x a = Ok a' -> early_step a a') ->
  rfor_each l body t = Ok t' -> early_step t t'.
Proof.
  intros Hbody Hrun.
  eapply (rfor_each_inv (early_step t)); [reflexivity| |exact Hrun].
  intros x a0 a1 _ Ha Hx. etrans; [exact Ha|by eapply Hbody].
Qed.

Lemma early_set_features_count c t : early_step t (set_features_count c t).
Proof. by split_and!. Qed.

Lemma early_set_verify_count c t : early_step t (set_verify_count c t).
Proof. by split_and!. Qed.

Lemma early_tally_guild_detailed guild t t' :
  tally_guild_detailed guild t = Ok t' -> early_step t t'.
Proof.
  unfold tally_guild_detailed.
  destruct (rfor_each _ _ t) as [t1|] eqn:Hfeat; simpl; [|done].
  destruct (counter_iadd _ _ (verify_count t1)) as [c|]; simpl; [|done].
  intros [= <-]. etrans; [|apply early_set_verify_count].
  eapply early_rfor_each; [|exact Hfeat].
  intros feature t2 t3. cbv beta.
  destruct (counter_iadd (get_or_unknown features feature) (VInt 1)
              (features_count t2)) as [c'|]; simpl; [|done].
  intros [= <-]. apply early_set_features_count.
Qed.

Lemma early_tally_guild_flags guild t t' :
  tally_guild_flags guild t = Ok t' -> early_step t t'.
Proof.
  unfold tally_guild_flags.
  destruct (iadd_server_counter _ _ t) as [t1|] eqn:Hroles; simpl; [|done].
  intros [= <-].
  apply early_iadd_server_counter in Hroles; [|done].
  etrans; [exact Hroles|]. clear Hroles.
  set (t2 := if g_large guild then _ else t1).
  assert (early_step t1 t2) as H2
    by (subst t2; destruct (g_large guild);
        [by apply early_add_server_temp|reflexivity]).
  set (t3 := if negb (g_chunked guild) then _ else t2).
  assert (early_step t2 t3) as H3
    by (subst t3; destruct (negb (g_chunked guild));
        [by apply early_add_server_temp|reflexivity]).
  set (t4 := if negb (g_premium_tier guild =? 0)%Z then _ else t3).
  assert (early_step t3 t4) as H4
    by (subst t4; destruct (negb (g_premium_tier guild =? 0)%Z);
        [by apply early_add_server_temp|reflexivity]).
  etrans; [exact H2|]. etrans; [exact H3|]. etrans; [exact H4|].
  repeat match goal with
         | |- early_step _ (if ?b then _ else _) => destruct b
         end;
    first [reflexivity | by apply early_add_server_temp].
Qed.

Lemma early_tally_channel guild channel t t' :
  tally_channel guild channel t = Ok t' -> early_step t t'.
Proof.
  unfold tally_channel.
  destruct (iadd_server_counter _ _ t) as [t1|] eqn:H1; simpl; [|done].
  apply early_iadd_server_counter in H1; [|done].
  intros Hrest. etrans; [exact H1|]. clear H1. revert Hrest.
  destruct channel as [id nsfw news|id members|id|id].
  - destruct (iadd_server_counter _ _ t1) as [t2|] eqn:H2; simpl; [|done].
    apply early_iadd_server_counter in H2; [|done].
    intros [= <-]. etrans; [exact H2|].
    destruct nsfw, news;
      first [reflexivity | by apply early_add_temp
            | etrans; [by apply (early_add_temp "NSFW Text Channels")
                      |by apply early_add_temp]].
  - destruct (iadd_server_counter _ _ t1) as [t2|] eqn:H2; simpl; [|done].
    apply early_iadd_server_counter in H2; [|done].
    destruct (iadd_counter _ _ t2) as [t3|] eqn:H3; simpl; [|done].
    apply early_iadd_counter in H3; [|done].
    destruct (member_in _ _).
    + destruct (iadd_counter _ _ t3) as [t4|] eqn:H4; simpl; [|done].
      apply early_iadd_counter in H4; [|done].
      destruct (iadd_server_counter _ _ t4) as [t5|] eqn:H5; simpl; [|done].
      apply early_iadd_server_counter in H5; [|done].
      intros [= <-].
      etrans; [exact H2|]. etrans; [exact H3|]. etrans; [exact H4|].
      etrans; [exact H5|].
      apply early_fold_left. intros a m.
      destruct (m_is_on_mobile m);
        [by apply early_add_temp|reflexivity].
    + intros [= <-]. by etrans.
  - intros H2. by apply early_iadd_server_counter in H2.
  - by intros [= <-].
Qed.

Lemma early_tally_emoji emoji t t' :
  tally_emoji emoji t = Ok t' -> early_step t t'.
Proof.
  unfold tally_emoji.
  destruct (iadd_server_counter _ _ t) as [t1|] eqn:H1; simpl; [|done].
  apply early_iadd_server_counter in H1; [|done].
  destruct (e_animated emoji); intros H2;
    apply early_iadd_server_counter in H2; try done; by etrans.
Qed.

Lemma early_tally_status member t : early_step t (tally_status member t).
Proof.
  unfold tally_status.
  repeat case_decide;
    first [reflexivity | by apply early_add_by_kind
          | etrans; [by apply (early_add_by_kind "Users Connected"
                                 "Bots Connected" "Humans Connected")
                    |first [reflexivity|by apply early_add_by_kind]]].
Qed.

Lemma early_tally_platform status l1 l2 l3 l4 member t :
  bool_decide (l1 ∈ early_labels) = false ->
  bool_decide (l2 ∈ early_labels) = false ->
  bool_decide (l3 ∈ early_labels) = false ->
  bool_decide (l4 ∈ early_labels) = false ->
  early_step t (tally_platform status l1 l2 l3 l4 member t).
Proof.
  intros H1 H2 H3 H4. unfold tally_platform.
  repeat match goal with
         | |- context [decide (status = ?s)] => destruct (decide (status = s))
         end;
    first [reflexivity | by apply early_add_temp].
Qed.

Lemma early_tally_activity member a t seen :
  spec any_world (fun st => early_step t st.1)
    (tally_activity member a (t, seen)).
Proof.
  unfold tally_activity. destruct a as [ty]. cbn [a_type].
  destruct ty;
    repeat (rewrite decide_True by done || rewrite decide_False by done);
    apply spec_ret; try typeclasses eauto; cbn [fst];
    first [reflexivity | by apply early_add_by_kind].
Qed.

Lemma early_tally_member detailed member t :
  spec any_world (early_step t) (tally_member detailed member t).
Proof.
  unfold tally_member.
  set (t0 := if m_bot member then _ else _).
  assert (early_step t t0) as H0.
  { subst t0. destruct (m_bot member);
      (etrans; [by apply (early_add_temp "Unique Users")
               |by apply early_add_temp]). }
  destruct detailed; [|by apply spec_ret; [typeclasses eauto|]].
  set (t1 := if m_is_on_mobile member then _ else t0).
  assert (early_step t t1) as H1.
  { subst t1. destruct (m_is_on_mobile member); [|done].
    etrans; [exact H0|by apply early_add_temp]. }
  eapply (spec_bind any_world) with (Q := fun st => early_step t st.1).
  - apply spec_async_for; [typeclasses eauto|done|done|].
    intros a [t2 seen] _ Hst. cbn [fst] in Hst.
    eapply spec_weaken; [apply early_tally_activity|].
    intros st Hst'. cbn beta in Hst'. by etrans.
  - intros [t2 seen] Hst. cbn [fst] in Hst.
    apply spec_ret; [typeclasses eauto|].
    repeat (etrans; [|by apply early_tally_platform]).
    destruct seen; cbn [negb]; [done|].
    etrans; [exact Hst|apply early_tally_status].
Qed.

Lemma early_tally_guild lightmode detailed guild t :
  spec any_world (early_step t) (tally_guild lightmode detailed guild t).
Proof.
  unfold tally_guild.
  destruct (g_unavailable guild).
  { apply spec_ret; [typeclasses eauto|]. by apply early_add_server_temp. }
  eapply (spec_bind any_world) with (Q := early_step t).
  { apply spec_lift; [typeclasses eauto|].
    intros t1 H1. by apply early_iadd_server_counter in H1. }
  intros t1 H1.
  eapply (spec_bind any_world) with (Q := early_step t).
  { destruct lightmode; cbn [negb];
      [by apply spec_ret; [typeclasses eauto|]|].
    eapply (spec_bind any_world) with (Q := early_step t).
    { destruct detailed; [|by apply spec_ret; [typeclasses eauto|]].
      apply spec_lift; [typeclasses eauto|].
      intros t2 H2. apply early_tally_guild_detailed in H2. by etrans. }
    intros t2 H2.
    eapply (spec_bind any_world) with (Q := early_step t).
    { apply spec_lift; [typeclasses eauto|].
      intros t3 H3. apply early_tally_guild_flags in H3. by etrans. }
    intros t3 H3.
    eapply (spec_bind any_world) with (Q := early_step t).
    { apply spec_lift; [typeclasses eauto|].
      intros t4 H4. apply early_rfor_each in H4; [by etrans|].
      intros ? ? ?. apply early_tally_channel. }
    intros t4 H4.
    apply spec_lift; [typeclasses eauto|].
    intros t5 H5. apply early_rfor_each in H5; [by etrans|].
    intros ? ? ?. apply early_tally_emoji. }
  intros t2 H2.
  apply spec_async_for; [typeclasses eauto|done|done|].
  intros member t3 _ H3.
  eapply spec_weaken; [apply early_tally_member|].
  intros t4 H4. cbn beta in H4. by etrans.
Qed.

Lemma early_tally_guilds lightmode detailed gs t :
  spec any_world (early_step t) (for_each gs (tally_guild lightmode detailed) t).
Proof.
  apply spec_for_each; [typeclasses eauto|reflexivity|].
  intros guild t1 _ H1.
  eapply spec_weaken; [apply early_tally_guild|].
  intros t2 H2. cbn beta in H2. by etrans.
Qed.


(** What a completed collection holds under the labels it set before the
    loop over the guilds, in terms of the tallies [t1] after the vote
    block. *)
Lemma collect_bot_data_early h lightmode detailed (topgg : bool) w t w1 :
  collect_bot_data h lightmode detailed topgg w = (Ok t, w1) ->
  exists t1,
    (if topgg then tally_votes h empty_tallies else ret empty_tallies) w
    = (Ok t1, w)
    /\ dict_get "Total" (server_counter t)
       = Some (VInt (Z.of_nat (length (guilds h))))
    /\ forall L, L ∈ early_labels ->
         dict_get L (counter t)
         = dict_get L
             (dict_set "Shards"
                match shard_count h with Some n => VInt n | None => VNone end
                match pyfloat_round (pyfloat_mul1000 (latency h)) with
                | Ok ms => dict_set "Discord Latency" (VInt ms) (counter t1)
                | Raise _ => counter t1
                end).
Proof.
  intros Hrun. unfold collect_bot_data in Hrun.
  apply bind_inv_ok in Hrun as (t1 & w0 & Hvotes & Hrun).
  assert (w0 = w) as ->.
  { destruct topgg; [|unfold ret in Hvotes; by simplify_eq].
    pose proof (tally_votes_pure h empty_tallies w) as Hp.
    by rewrite Hvotes in Hp. }
  assert (before_guilds t1) as (_ & _ & _ & Htemp & Hstemp).
  { assert (before_guilds empty_tallies) as H0
      by (split_and!; try done; apply NoDup_nil_2).
    destruct topgg; [|unfold ret in Hvotes; by simplify_eq].
    destruct (before_guilds_tally_votes h empty_tallies H0 w) as [_ Hq].
    apply Hq. by rewrite Hvotes. }
  exists t1. split; [done|]. cbv zeta in Hrun.
  apply bind_inv_ok in Hrun as (t3 & w3 & Hlat & Hrun).
  apply bind_inv_ok in Hrun as (t4 & w4 & Hloop & Hrun).
  unfold ret in Hrun. injection Hrun as <- <-.
  set (t2 := set_server_counter _ t1) in *.
  assert (t3 = match pyfloat_round (pyfloat_mul1000 (latency h)) with
               | Ok ms => set_counter (dict_set "Discord Latency" (VInt ms)
                                         (counter t2)) t2
               | Raise _ => t2
               end) as Ht3.
  { unfold try_except, bind, lift, ret, raise in Hlat.
    destruct (pyfloat_round (pyfloat_mul1000 (latency h))) as [ms|e].
    - by injection Hlat as <- _.
    - destruct (is_overflow e); [by injection Hlat as <- _|done]. }
  set (t3' := set_counter _ t3) in *.
  destruct (early_tally_guilds lightmode detailed (guilds h) t3' w3)
    as [_ Hearly].
  rewrite Hloop in Hearly. specialize (Hearly t4 eq_refl).
  destruct Hearly as (Hc & Ht & Hs & Hst).
  assert (temp_data t3' = [] /\ server_temp_data t3' = []) as [Ht3' Hst3'].
  { subst t3' t3 t2. by destruct (pyfloat_round _). }
  split.
  - cbn. rewrite dict_get_flatten_sets_notin
      by (apply Hst; rewrite Hst3'; apply not_elem_of_nil).
    rewrite Hs. subst t3' t3 t2.
    destruct (pyfloat_round _); cbn; apply dict_get_set_eq.
  - intros L HL. cbn. rewrite dict_get_flatten_sets_notin
      by (apply Ht; [done|rewrite Ht3'; apply not_elem_of_nil]).
    rewrite (Hc L HL). subst t3' t3 t2.
    by destruct (pyfloat_round _).
Qed.



(** ** The vote counts *)

Lemma tally_votes_result h w data :
  (get_votes h w).1 = Ok (VDict data) ->
  tally_votes h empty_tallies w
  = (Ok (set_counter (votes_counter data) empty_tallies), w).
Proof.
  intros Hvotes. unfold tally_votes.
  assert (get_votes h w = (Ok (VDict data), w)) as Hrun.
  { pose proof (get_votes_pure h w) as Hp.
    destruct (get_votes h w) as [r w0]. cbn in *. by subst. }
  erewrite bind_ok by exact Hrun. cbv zeta.
  destruct data as [|kv data]; [done|].
  cbn [py_truthy]. set (d := kv :: data).
  unfold py_get, py_getitem, votes_counter, bind, lift, ret. fold d.
  destruct (dict_get "monthlyPoints" d) as [m|] eqn:Hm;
    cbn [default from_option id py_truthy];
    destruct (dict_get "points" d) as [p|] eqn:Hp;
    cbn [default from_option id py_truthy];
    repeat match goal with
           | |- context [py_truthy ?v] => destruct (py_truthy v)
           end;
    reflexivity.
Qed.

(** The labels of the bot category after a completed pass: what the
    collection holds for a label is published, and a label it does not
    hold is as before. *)
Lemma bot_pass_labels h lightmode detailed topgg w w' :
  bot_data_pass h lightmode detailed topgg w = (Ok tt, w') ->
  exists t w1,
    collect_bot_data h lightmode detailed topgg w = (Ok t, w1)
    /\ forall L,
         published w' "bot" L
         = match dict_get L (counter t) with
           | Some v => Some v
           | None => published w "bot" L
           end.
Proof.
  intros Hrun. unfold bot_data_pass in Hrun.
  apply bind_inv_ok in Hrun as (t & w1 & Hcollect & Hrun).
  exists t, w1. split; [done|]. intros L.
  destruct (collect_bot_data_spec h lightmode detailed topgg w) as [_ Hspec].
  rewrite Hcollect in Hspec.
  destruct (Hspec t eq_refl) as (Hndc & _).
  destruct (collect_bot_data_bot_frame h lightmode detailed topgg w)
    as [Hbot _].
  rewrite Hcollect in Hbot. unfold bot_frame in Hbot. cbn [snd] in Hbot.
  apply bind_inv_ok in Hrun as ([] & w2 & Hpbot & Hrun).
  assert (frames (keeps "bot" L)
            (publish_counter "guilds" (server_counter t) ;;
             publish_counter "guilds_regions" (region_count t) ;;
             publish_counter "guild_features" (features_count t) ;;
             publish_counter "guild_verification" (verify_count t)))
    as Hkeep by (keeps_auto).
  destruct (Hkeep w2) as [Hk _]. rewrite Hrun in Hk.
  unfold keeps in Hk. cbn [snd] in Hk. rewrite Hk.
  destruct (dict_get L (counter t)) as [v|] eqn:HL.
  - by apply (publish_counter_published "bot" (counter t) _ _ w1 w2 Hndc).
  - apply dict_get_None in HL.
    destruct (keeps_publish_counter "bot" L "bot" (counter t)
                (or_intror HL) w1) as [Hk1 _].
    rewrite Hpbot in Hk1. unfold keeps in Hk1. cbn [snd] in Hk1.
    rewrite Hk1. unfold published. by rewrite Hbot.
Qed.

(** X21.  With the vote fetch enabled and a response body that is a
    dict, a completed pass of [write_bot_data] publishes [monthlyPoints] as
    Monthly Votes and [points] as Votes when the count is truthy; a count
    that is missing or 0 is not written, and the label keeps the value of
    an earlier pass. *)
Theorem votes_published h lightmode detailed w w' data :
  bot_data_pass h lightmode detailed true w = (Ok tt, w') ->
  (get_votes h w).1 = Ok (VDict data) ->
  forall key label,
    (key, label) ∈ [("monthlyPoints", "Monthly Votes"); ("points", "Votes")] ->
    published w' "bot" label
    = match dict_get key data with
      | Some v => if py_truthy v then Some v else published w "bot" label
      | None => published w "bot" label
      end.
Proof.
  intros Hrun Hvotes key label Hin.
  destruct (bot_pass_labels _ _ _ _ _ _ Hrun) as (t & w1 & Hcollect & Hpub).
  destruct (collect_bot_data_early _ _ _ _ _ _ _ Hcollect)
    as (t1 & Ht1 & _ & Hearly).
  rewrite (tally_votes_result h w data Hvotes) in Ht1.
  injection Ht1 as <-.
  rewrite Hpub.
  rewrite !elem_of_cons, elem_of_nil in Hin.
  destruct Hin as [[= -> ->]|[[= -> ->]|[]]].
  - rewrite (Hearly "Monthly Votes")
      by (apply (bool_decide_unpack _); by vm_compute).
    rewrite dict_get_set_ne by done.
    assert (dict_get "Monthly Votes"
              match pyfloat_round (pyfloat_mul1000 (latency h)) with
              | Ok ms =>
                  dict_set "Discord Latency" (VInt ms)
                    (counter (set_counter (votes_counter data) empty_tallies))
              | Raise _ =>
                  counter (set_counter (votes_counter data) empty_tallies)
              end
            = dict_get "Monthly Votes" (votes_counter data)) as ->.
    { destruct (pyfloat_round _); [by rewrite dict_get_set_ne|done]. }
    unfold votes_counter.
    destruct (dict_get "monthlyPoints" data) as [m|];
      destruct (dict_get "points" data) as [p|];
      repeat match goal with
             | |- context [py_truthy ?v] => destruct (py_truthy v)
             end;
      cbn [dict_set dict_get];
      rewrite ?decide_True by done; rewrite ?decide_False by done; done.
  - rewrite (Hearly "Votes")
      by (apply (bool_decide_unpack _); by vm_compute).
    rewrite dict_get_set_ne by done.
    assert (dict_get "Votes"
              match pyfloat_round (pyfloat_mul1000 (latency h)) with
              | Ok ms =>
                  dict_set "Discord Latency" (VInt ms)
                    (counter (set_counter (votes_counter data) empty_tallies))
              | Raise _ =>
                  counter (set_counter (votes_counter data) empty_tallies)
              end
            = dict_get "Votes" (votes_counter data)) as ->.
    { destruct (pyfloat_round _); [by rewrite dict_get_set_ne|done]. }
    unfold votes_counter.
    destruct (dict_get "monthlyPoints" data) as [m|];
      destruct (dict_get "points" data) as [p|];
      repeat match goal with
             | |- context [py_truthy ?v] => destruct (py_truthy v)
             end;
      cbn [dict_set dict_get];
      rewrite ?decide_True by done; rewrite ?decide_False by done; done.
Qed.

Lemma votes_published_witness :
  published (bot_data_pass plain_host false true true ready_world).2
    "bot" "Votes" = Some (VInt 7).
Proof.
  refine (votes_published plain_host false true ready_world _
            [("points", VInt 7); ("monthlyPoints", VInt 0)] _ eq_refl
            "points" "Votes" _).
  - apply run_eq. vm_compute. reflexivity.
  - right. left.
Defined.
